(** * Address book bot: contact records, validated fields and the
      birthdays-per-week report (Exercise_1.py)

    A shallow embedding of the classes [Field], [Name], [Phone], [Birthday],
    [Record] and [AddressBook] of [Exercise_1.py], and of the parts of the
    Python standard library they call ([str.isdigit], [str.strip],
    [datetime.strptime], [datetime.date]).

    Conventions.
    - A Python [str] is a [string]; a character is the code point
      U+0000..U+00FF that the 8-bit [ascii] value denotes.
    - A Python [int] is a [Z].
    - A raised exception is the [Raise] case of [result]; code that mutates
      objects runs in the monad [M], which threads the object store and keeps
      the store reached when an exception is raised. *)

From Stdlib Require Import ZArith Lia Bool Ascii String List.
From stdpp Require Import base list strings.

Local Open Scope string_scope.
Local Open Scope Z_scope.

(** ** Exceptions and results *)

Inductive exn : Type :=
| ValueError (msg : string)
| OverflowError (msg : string).

Inductive result (A : Type) : Type :=
| Ok (a : A)
| Raise (e : exn).
Arguments Ok {A} a.
Arguments Raise {A} e.

Definition rbind {A B} (r : result A) (k : A -> result B) : result B :=
  match r with
  | Ok a => k a
  | Raise e => Raise e
  end.

Declare Scope result_scope.
Delimit Scope result_scope with result.
Notation "'let?' x ':=' r 'in' k" := (rbind r (fun x => k))
  (at level 10, x pattern, r at level 100, k at level 200) : result_scope.

(** ** Python [str] methods *)

Module Str.

Definition chars (s : string) : list ascii := list_ascii_of_string s.

Definition ord (c : ascii) : Z := Z.of_N (N_of_ascii c).

(** [\d] of [re] on [str] patterns, and the digits [int()] reads: the
    characters of category Nd, which below U+0100 are ['0'..'9']. *)
Definition is_decimal (c : ascii) : bool :=
  (48 <=? ord c) && (ord c <=? 57).

(** One character of [str.isdigit]: Numeric_Type Digit or Decimal, which
    below U+0100 are ['0'..'9'] and the superscripts U+00B2, U+00B3 and
    U+00B9. *)
Definition isdigit_char (c : ascii) : bool :=
  is_decimal c || (ord c =? 178) || (ord c =? 179) || (ord c =? 185).

(** [str.isdigit]: all characters are digits and there is at least one. *)
Definition isdigit (s : string) : bool :=
  match chars s with
  | [] => false
  | cs => forallb isdigit_char cs
  end.

(** Whitespace as [str.strip] and [str.isspace] see it below U+0100. *)
Definition is_space (c : ascii) : bool :=
  ((9 <=? ord c) && (ord c <=? 13)) || ((28 <=? ord c) && (ord c <=? 32))
  || (ord c =? 133) || (ord c =? 160).

Fixpoint lstrip_chars (cs : list ascii) : list ascii :=
  match cs with
  | c :: cs' => if is_space c then lstrip_chars cs' else cs
  | [] => []
  end.

Definition rstrip_chars (cs : list ascii) : list ascii :=
  rev (lstrip_chars (rev cs)).

(** [s.strip()] *)
Definition strip (s : string) : string :=
  string_of_list_ascii (rstrip_chars (lstrip_chars (chars s))).

(** Truth value of a [str]: non-empty. *)
Definition truthy (s : string) : bool :=
  negb (String.eqb s "").

(** [len(s)] *)
Definition len (s : string) : Z := Z.of_nat (String.length s).

(** [sep.join(parts)] *)
Fixpoint join (sep : string) (parts : list string) : string :=
  match parts with
  | [] => ""
  | [p] => p
  | p :: ps => p +:+ sep +:+ join sep ps
  end.

End Str.

(** ** Fields *)

(** [class Field]: one attribute, [value]. [Name], [Phone] and [Birthday]
    add no attribute, only a validating constructor. *)
Record Field : Type := mkField { value : string }.

(** [Field.__str__] *)
Definition Field_str (f : Field) : string := value f.

Definition InvalidName : exn := ValueError "Name cannot be empty.".
Definition InvalidPhone : exn :=
  ValueError "Invalid phone number. Please enter 10 digits.".
Definition InvalidDate : exn :=
  ValueError "Invalid date format. Please use DD.MM.YYYY.".

(** [Name.__init__] *)
Definition Name (v : string) : result Field :=
  if negb (Str.truthy (Str.strip v)) then Raise InvalidName
  else Ok (mkField v).

(** [Phone.__init__] *)
Definition Phone (v : string) : result Field :=
  if negb (Str.isdigit v) || negb (Str.len v =? 10) then Raise InvalidPhone
  else Ok (mkField v).

(** ** [datetime.date]

    The proleptic Gregorian calendar of the [datetime] module: ordinals count
    days from 0001-01-01 (ordinal 1), years range over [MINYEAR..MAXYEAR]. *)

Module datetime.

Definition MINYEAR : Z := 1.
Definition MAXYEAR : Z := 9999.
Definition _MAXORDINAL : Z := 3652059.

(** Index 0 is a placeholder, as in the module. *)
Definition _DAYS_IN_MONTH : list Z :=
  [-1; 31; 28; 31; 30; 31; 30; 31; 31; 30; 31; 30; 31].

Definition _DAYS_BEFORE_MONTH : list Z :=
  [-1; 0; 31; 59; 90; 120; 151; 181; 212; 243; 273; 304; 334].

Definition table (t : list Z) (i : Z) : Z := nth (Z.to_nat i) t 0.

Definition _is_leap (year : Z) : bool :=
  (year mod 4 =? 0) && (negb (year mod 100 =? 0) || (year mod 400 =? 0)).

Definition _days_before_year (year : Z) : Z :=
  let y := year - 1 in
  y * 365 + y / 4 - y / 100 + y / 400.

Definition _days_in_month (year month : Z) : Z :=
  if (month =? 2) && _is_leap year then 29
  else table _DAYS_IN_MONTH month.

Definition _days_before_month (year month : Z) : Z :=
  table _DAYS_BEFORE_MONTH month
  + (if (2 <? month) && _is_leap year then 1 else 0).

Definition _ymd2ord (year month day : Z) : Z :=
  _days_before_year year + _days_before_month year month + day.

Definition _DI400Y : Z := 146097.
Definition _DI100Y : Z := 36524.
Definition _DI4Y : Z := 1461.

Definition _ord2ymd (n : Z) : Z * Z * Z :=
  let n := n - 1 in
  let n400 := n / _DI400Y in
  let n := n mod _DI400Y in
  let year := n400 * 400 + 1 in
  let n100 := n / _DI100Y in
  let n := n mod _DI100Y in
  let n4 := n / _DI4Y in
  let n := n mod _DI4Y in
  let n1 := n / 365 in
  let n := n mod 365 in
  let year := year + n100 * 100 + n4 * 4 + n1 in
  if (n1 =? 4) || (n100 =? 4) then (year - 1, 12, 31)
  else
    let leapyear := (n1 =? 3) && (negb (n4 =? 24) || (n100 =? 3)) in
    let month := Z.shiftr (n + 50) 5 in
    let preceding :=
      table _DAYS_BEFORE_MONTH month
      + (if (2 <? month) && leapyear then 1 else 0) in
    if n <? preceding then
      let month := month - 1 in
      let preceding :=
        preceding
        - (table _DAYS_IN_MONTH month
           + (if (month =? 2) && leapyear then 1 else 0)) in
      (year, month, n - preceding + 1)
    else (year, month, n - preceding + 1).

(** A [date] object; [date_new] is the only constructor the program reaches,
    so every date it holds passed [_check_date_fields]. *)
Record date : Type := mkdate { year : Z; month : Z; day : Z }.

(** [_check_date_fields] followed by construction: [date(year, month, day)]. *)
Definition date_new (y m d : Z) : result date :=
  if negb ((MINYEAR <=? y) && (y <=? MAXYEAR)) then
    Raise (ValueError "year must be in 1..9999")
  else if negb ((1 <=? m) && (m <=? 12)) then
    Raise (ValueError "month must be in 1..12")
  else if negb ((1 <=? d) && (d <=? _days_in_month y m)) then
    Raise (ValueError "day is out of range for month")
  else Ok (mkdate y m d).

(** [d.replace(year=y)] *)
Definition replace_year (d : date) (y : Z) : result date :=
  date_new y (month d) (day d).

(** [d.toordinal()] *)
Definition toordinal (d : date) : Z := _ymd2ord (year d) (month d) (day d).

(** [date.fromordinal(n)] *)
Definition fromordinal (n : Z) : date :=
  let '(y, m, d) := _ord2ymd n in mkdate y m d.

(** [a < b]: dates compare as the tuples [(year, month, day)]. *)
Definition date_lt (a b : date) : bool :=
  (year a <? year b)
  || ((year a =? year b)
      && ((month a <? month b)
          || ((month a =? month b) && (day a <? day b)))).

(** [d + timedelta(days=n)] *)
Definition add_days (d : date) (n : Z) : result date :=
  let o := toordinal d + n in
  if (0 <? o) && (o <=? _MAXORDINAL) then Ok (fromordinal o)
  else Raise (OverflowError "date value out of range").

(** [(a - b).days] *)
Definition sub_days (a b : date) : Z := toordinal a - toordinal b.

(** [d.weekday()]: Monday is 0. *)
Definition weekday (d : date) : Z := (toordinal d + 6) mod 7.

Definition day_names : list string :=
  ["Monday"; "Tuesday"; "Wednesday"; "Thursday"; "Friday"; "Saturday";
   "Sunday"].

(** [d.strftime("%A")] in the C locale. *)
Definition strftime_A (d : date) : string :=
  nth (Z.to_nat (weekday d)) day_names "".

End datetime.

(** ** [datetime.strptime(data_string, '%d.%m.%Y')]

    [_strptime] turns the format into a regular expression, one named group
    per directive, matches it at the start of the data and then requires that
    nothing is left. The expression is matched as [re] does: alternatives in
    order, backtracking into a group when what follows fails. *)

Module _strptime.

Inductive atom : Type :=
| Lit (c : ascii)              (* the character itself *)
| Range (lo hi : ascii)        (* [lo-hi] *)
| Dec.                         (* \d *)

Definition atom_match (a : atom) (c : ascii) : bool :=
  match a with
  | Lit c' => Str.ord c =? Str.ord c'
  | Range lo hi => (Str.ord lo <=? Str.ord c) && (Str.ord c <=? Str.ord hi)
  | Dec => Str.is_decimal c
  end.

(** A sequence of atoms against the start of the text: the text it consumed
    and what is left. *)
Fixpoint seq_match (atoms : list atom) (cs : list ascii)
  : option (list ascii * list ascii) :=
  match atoms with
  | [] => Some ([], cs)
  | a :: atoms' =>
      match cs with
      | c :: cs' =>
          if atom_match a c then
            match seq_match atoms' cs' with
            | Some (txt, rest) => Some (c :: txt, rest)
            | None => None
            end
          else None
      | [] => None
      end
  end.

(** An alternation [a1|a2|...] followed by the continuation [k]: the first
    alternative after which [k] succeeds. *)
Fixpoint try_alts {R} (alts : list (list atom)) (cs : list ascii)
    (k : list ascii -> list ascii -> option R) : option R :=
  match alts with
  | [] => None
  | a :: alts' =>
      match seq_match a cs with
      | Some (txt, rest) =>
          match k txt rest with
          | Some r => Some r
          | None => try_alts alts' cs k
          end
      | None => try_alts alts' cs k
      end
  end.

Inductive item : Type :=
| Group (alts : list (list atom))
| Literal (c : ascii).

(** [pattern.match(text)]: the texts of the groups, in order, and the
    unmatched rest ([text[found.end():]]). *)
Fixpoint re_match (p : list item) (cs : list ascii)
  : option (list (list ascii) * list ascii) :=
  match p with
  | [] => Some ([], cs)
  | Literal c :: p' =>
      match cs with
      | c' :: cs' =>
          if atom_match (Lit c) c' then re_match p' cs' else None
      | [] => None
      end
  | Group alts :: p' =>
      try_alts alts cs
        (fun txt rest =>
           match re_match p' rest with
           | Some (groups, rest') => Some (txt :: groups, rest')
           | None => None
           end)
  end.

(** ['d': r"(?P<d>3[0-1]|[1-2]\d|0[1-9]|[1-9]| [1-9])"] *)
Definition directive_d : list (list atom) :=
  [ [Lit "3"; Range "0" "1"];
    [Range "1" "2"; Dec];
    [Lit "0"; Range "1" "9"];
    [Range "1" "9"];
    [Lit " "; Range "1" "9"] ].

(** ['m': r"(?P<m>1[0-2]|0[1-9]|[1-9])"] *)
Definition directive_m : list (list atom) :=
  [ [Lit "1"; Range "0" "2"];
    [Lit "0"; Range "1" "9"];
    [Range "1" "9"] ].

(** ['Y': r"(?P<Y>\d\d\d\d)"] *)
Definition directive_Y : list (list atom) :=
  [ [Dec; Dec; Dec; Dec] ].

(** [TimeRE.pattern('%d.%m.%Y')]: the dots are escaped, each directive is
    replaced by its group. *)
Definition format_regex : list item :=
  [Group directive_d; Literal "."; Group directive_m; Literal ".";
   Group directive_Y].

Definition digit_value (c : ascii) : Z := Str.ord c - 48.

Fixpoint digits_value (acc : Z) (cs : list ascii) : Z :=
  match cs with
  | [] => acc
  | c :: cs' => digits_value (10 * acc + digit_value c) cs'
  end.

(** [int(text)] on the text of a group: surrounding whitespace is dropped,
    what remains must be decimal digits. *)
Definition int (txt : list ascii) : result Z :=
  match Str.rstrip_chars (Str.lstrip_chars txt) with
  | [] => Raise (ValueError "invalid literal for int() with base 10")
  | ds =>
      if forallb Str.is_decimal ds then Ok (digits_value 0 ds)
      else Raise (ValueError "invalid literal for int() with base 10")
  end.

(** [_strptime(data_string, '%d.%m.%Y')], as far as the year, month and day
    of its result; [datetime_date(year, month, day)] is built to compute the
    day of the year and raises when there is no such date. *)
Definition _strptime (data_string : string) : result datetime.date :=
  match re_match format_regex (Str.chars data_string) with
  | None => Raise (ValueError "time data does not match format")
  | Some (groups, rest) =>
      if negb (Nat.eqb (List.length rest) 0) then
        Raise (ValueError "unconverted data remains")
      else
        match groups with
        | [d; m; Y] =>
            (let? day := int d in
             let? month := int m in
             let? year := int Y in
             datetime.date_new year month day)%result
        | _ => Raise (ValueError "time data does not match format")
        end
  end.

End _strptime.

(** [datetime.strptime(value, '%d.%m.%Y').date()] *)
Definition strptime_date (v : string) : result datetime.date :=
  _strptime._strptime v.

(** [Birthday.__init__]: a [ValueError] of the parser is replaced by the
    one of the class, any other exception passes through. *)
Definition Birthday (v : string) : result Field :=
  match strptime_date v with
  | Ok _ => Ok (mkField v)
  | Raise (ValueError _) => Raise InvalidDate
  | Raise e => Raise e
  end.

(** ** The object store

    [Record] objects live in a store and are named by their location, so that
    the address book and its callers share them. The [Name], [Phone] and
    [Birthday] objects of a record are reachable through that record only and
    are kept inside it. [data] is the dictionary of the address book: an
    association list in insertion order, one entry per key. *)

(** An object of [class Record]. *)
Record RecordObj : Type := mkRecord {
  name : Field;
  phones : list Field;
  birthday : option Field
}.

Abbreviation loc := nat (only parsing).

Record store : Type := mkStore {
  heap : list RecordObj;
  data : list (string * loc)
}.

Definition empty_store : store := mkStore [] [].

(** Computations over the store that may raise. The store reached when the
    exception is raised is kept. *)
Definition M (A : Type) : Type := store -> result A * store.

Definition ret {A} (a : A) : M A := fun s => (Ok a, s).

Definition raise {A} (e : exn) : M A := fun s => (Raise e, s).

Definition bind {A B} (m : M A) (k : A -> M B) : M B :=
  fun s =>
    match m s with
    | (Ok a, s') => k a s'
    | (Raise e, s') => (Raise e, s')
    end.

Definition lift {A} (r : result A) : M A := fun s => (r, s).

Declare Scope store_scope.
Delimit Scope store_scope with M.
Notation "'let*' x ':=' m 'in' k" := (bind m (fun x => k))
  (at level 10, x pattern, m at level 100, k at level 200) : store_scope.
Local Open Scope store_scope.

(** A location the store does not hold is an internal error of the model: no
    Python reference dangles. *)
Definition Dangling : exn := ValueError "<dangling reference>".

Definition get_record (l : loc) : M RecordObj :=
  fun s =>
    match heap s !! l with
    | Some r => (Ok r, s)
    | None => (Raise Dangling, s)
    end.

Definition set_record (l : loc) (r : RecordObj) : M unit :=
  fun s => (Ok tt, mkStore (<[l := r]> (heap s)) (data s)).

Definition alloc (r : RecordObj) : M loc :=
  fun s => (Ok (List.length (heap s)), mkStore (heap s ++ [r]) (data s)).

Definition get_data : M (list (string * loc)) :=
  fun s => (Ok (data s), s).

Definition set_data (d : list (string * loc)) : M unit :=
  fun s => (Ok tt, mkStore (heap s) d).

(** ** Dictionaries in insertion order *)

Module dict.

Fixpoint get {V} (k : string) (d : list (string * V)) : option V :=
  match d with
  | [] => None
  | (k', v) :: d' => if String.eqb k' k then Some v else get k d'
  end.

(** [d[k] = v]: an existing key keeps its place, a new one goes last. *)
Fixpoint set {V} (k : string) (v : V) (d : list (string * V))
  : list (string * V) :=
  match d with
  | [] => [(k, v)]
  | (k', v') :: d' =>
      if String.eqb k' k then (k', v) :: d' else (k', v') :: set k v d'
  end.

(** [del d[k]] *)
Fixpoint del {V} (k : string) (d : list (string * V)) : list (string * V) :=
  match d with
  | [] => []
  | (k', v') :: d' => if String.eqb k' k then d' else (k', v') :: del k d'
  end.

(** [k in d] *)
Definition mem {V} (k : string) (d : list (string * V)) : bool :=
  match get k d with Some _ => true | None => false end.

Definition keys {V} (d : list (string * V)) : list string := map fst d.

Definition values {V} (d : list (string * V)) : list V := map snd d.

(** [d[k].append(x)] on a [defaultdict(list)]: a missing key is first given
    the empty list. *)
Definition append_at {A} (k : string) (x : A) (d : list (string * list A))
  : list (string * list A) :=
  match get k d with
  | Some xs => set k (xs ++ [x])%list d
  | None => set k ([] ++ [x])%list d
  end.

End dict.

(** ** [class Record] *)

Module Record_.

(** [Record.__init__]: the name is validated before the object gets any
    attribute. *)
Definition __init__ (name_ : string) : M loc :=
  let* n := lift (Name name_) in
  alloc (mkRecord n [] None).

(** [Record.add_phone] *)
Definition add_phone (self : loc) (phone : string) : M unit :=
  let* p := lift (Phone phone) in
  let* r := get_record self in
  set_record self (mkRecord (name r) (phones r ++ [p]) (birthday r)).

(** [Record.remove_phone] *)
Definition remove_phone (self : loc) (phone : string) : M unit :=
  let* r := get_record self in
  set_record self
    (mkRecord (name r)
       (List.filter (fun p => negb (String.eqb (value p) phone)) (phones r))
       (birthday r)).

(** [phone.value = new_phone] for the phone at index [i] of [self.phones]. *)
Definition set_phone_value (self : loc) (i : nat) (new_phone : string)
  : M unit :=
  let* r := get_record self in
  set_record self
    (mkRecord (name r) (<[i := mkField new_phone]> (phones r)) (birthday r)).

(** The [for] loop of [edit_phone] from index [i] on: the list iterator
    yields [self.phones[i]] until the index reaches the length of the list,
    which the body never changes; [n] bounds the remaining iterations. *)
Fixpoint edit_phone_loop (self : loc) (old_phone new_phone : string)
    (i n : nat) : M unit :=
  match n with
  | O => ret tt
  | S n' =>
      let* r := get_record self in
      match phones r !! i with
      | None => ret tt
      | Some phone =>
          let* _ :=
            if String.eqb (value phone) old_phone then
              if negb (Str.len new_phone =? 10) then raise InvalidPhone
              else set_phone_value self i new_phone
            else ret tt in
          edit_phone_loop self old_phone new_phone (S i) n'
      end
  end.

(** [Record.edit_phone] *)
Definition edit_phone (self : loc) (old_phone new_phone : string) : M unit :=
  let* r := get_record self in
  edit_phone_loop self old_phone new_phone 0 (List.length (phones r)).

(** [Record.add_birthday] *)
Definition add_birthday (self : loc) (birthday_ : string) : M unit :=
  let* b := lift (Birthday birthday_) in
  let* r := get_record self in
  set_record self (mkRecord (name r) (phones r) (Some b)).

(** [Record.__str__]; a [Birthday] object is always true. *)
Definition __str__ (r : RecordObj) : string :=
  let phones_str := Str.join "; " (map Field_str (phones r)) in
  let birthday_str :=
    match birthday r with
    | Some b => Field_str b
    | None => "No birthday"
    end in
  "Contact name: " +:+ value (name r) +:+ ", phones: " +:+ phones_str
  +:+ ", birthday: " +:+ birthday_str.

End Record_.

(** ** [class AddressBook] *)

Module AddressBook.

(** [AddressBook.add_record] *)
Definition add_record (record : loc) : M unit :=
  let* r := get_record record in
  let* d := get_data in
  set_data (dict.set (value (name r)) record d).

(** [AddressBook.find] *)
Definition find (name_ : string) : M (option loc) :=
  let* d := get_data in
  ret (dict.get name_ d).

(** [AddressBook.delete] *)
Definition delete (name_ : string) : M unit :=
  let* d := get_data in
  if dict.mem name_ d then set_data (dict.del name_ d) else ret tt.

Definition in_list (s : string) (l : list string) : bool :=
  existsb (String.eqb s) l.

(** The body of the loop of [get_birthdays_per_week] for one record. *)
Definition report_record (today : datetime.date)
    (birthdays_by_day : list (string * list string)) (record : RecordObj)
  : result (list (string * list string)) :=
  match birthday record with
  | None => Ok birthdays_by_day
  | Some b =>
      let name_ := value (name record) in
      (let? birthday_ := strptime_date (value b) in
       let? birthday_this_year :=
         datetime.replace_year birthday_ (datetime.year today) in
       let? birthday_this_year :=
         if datetime.date_lt birthday_this_year today then
           datetime.replace_year birthday_this_year (datetime.year today + 1)
         else Ok birthday_this_year in
       let delta_days := datetime.sub_days birthday_this_year today in
       if delta_days <? 7 then
         let? shifted := datetime.add_days today delta_days in
         let day_of_week := datetime.strftime_A shifted in
         let day_of_week :=
           if in_list day_of_week ["Saturday"; "Sunday"] then "Monday"
           else day_of_week in
         Ok (dict.append_at day_of_week name_ birthdays_by_day)
       else Ok birthdays_by_day)%result
  end.

(** [for record in self.data.values(): ...] *)
Fixpoint report_loop (today : datetime.date) (records : list loc)
    (birthdays_by_day : list (string * list string))
  : M (list (string * list string)) :=
  match records with
  | [] => ret birthdays_by_day
  | l :: records' =>
      let* record := get_record l in
      let* birthdays_by_day' :=
        lift (report_record today birthdays_by_day record) in
      report_loop today records' birthdays_by_day'
  end.

(** [AddressBook.get_birthdays_per_week]; [today] stands for the date that
    [datetime.today().date()] reads from the clock. *)
Definition get_birthdays_per_week (today : datetime.date)
  : M (list (string * list string)) :=
  let birthdays_by_day := [] in
  let* next_week := lift (datetime.add_days today 7) in
  let* d := get_data in
  report_loop today (dict.values d) birthdays_by_day.

End AddressBook.

(** ** The command layer

    The functions of the bot around the two classes: [parse_input], the
    decorator [input_error], the command handlers and the loop of [main].
    They raise, besides the exceptions of the classes, [KeyError],
    [IndexError] and, in [main], what [input] and [+] can raise. A handler
    returns a [str] or, by falling off its end, [None]: an [option string]. *)

Inductive pyexn : Type :=
| Core (e : exn)
| KeyError (msg : string)
| IndexError (msg : string)
| TypeError (msg : string)
| EOFError.

Inductive answer (A : Type) : Type :=
| Return (a : A)
| Throw (e : pyexn).
Arguments Return {A} a.
Arguments Throw {A} e.

Definition Cmd (A : Type) : Type := store -> answer A * store.

Definition cret {A} (a : A) : Cmd A := fun s => (Return a, s).

Definition cthrow {A} (e : pyexn) : Cmd A := fun s => (Throw e, s).

Definition cbind {A B} (m : Cmd A) (k : A -> Cmd B) : Cmd B :=
  fun s =>
    match m s with
    | (Return a, s') => k a s'
    | (Throw e, s') => (Throw e, s')
    end.

(** A method of the classes called from the command layer. *)
Definition of_M {A} (m : M A) : Cmd A :=
  fun s =>
    match m s with
    | (Ok a, s') => (Return a, s')
    | (Raise e, s') => (Throw (Core e), s')
    end.

Declare Scope cmd_scope.
Delimit Scope cmd_scope with Cmd.
Notation "'do*' x ':=' m 'in' k" := (cbind m (fun x => k))
  (at level 10, x pattern, m at level 100, k at level 200) : cmd_scope.

(** [s.lower()] on one character: below U+0100 the capitals are [A-Z] and
    U+00C0..U+00DE without the multiplication sign U+00D7. *)
Definition lower_char (c : ascii) : ascii :=
  let o := Str.ord c in
  if ((65 <=? o) && (o <=? 90))
     || ((192 <=? o) && (o <=? 222) && negb (o =? 215))
  then ascii_of_N (Z.to_N (o + 32))
  else c.

(** [s.lower()] *)
Definition str_lower (s : string) : string :=
  string_of_list_ascii (map lower_char (Str.chars s)).

(** The loop of [s.split()]: [cur] holds, last character first, the word
    being read. *)
Fixpoint split_chars (cur : list ascii) (cs : list ascii) : list string :=
  match cs with
  | [] =>
      match cur with
      | [] => []
      | _ => [string_of_list_ascii (rev cur)]
      end
  | c :: cs' =>
      if Str.is_space c then
        match cur with
        | [] => split_chars [] cs'
        | _ => string_of_list_ascii (rev cur) :: split_chars [] cs'
        end
      else split_chars (c :: cur) cs'
  end.

(** [s.split()]: the words between runs of whitespace. *)
Definition str_split (s : string) : list string :=
  split_chars [] (Str.chars s).

(** The character U+000A. *)
Definition newline : string := String (ascii_of_nat 10) EmptyString.

Module Bot.

Local Open Scope cmd_scope.

(** [parse_input] *)
Definition parse_input (user_input : string)
  : answer (string * list string) :=
  match str_split user_input with
  | cmd :: args => Return (str_lower (Str.strip cmd), args)
  | [] =>
      Throw (Core (ValueError
        "not enough values to unpack (expected at least 1, got 0)"))
  end.

Definition message_ValueError : string :=
  "Give me name and phone 10 digits please.If date Please use DD.MM.YYYY".

(** The function [inner] that the decorator [input_error] puts in the place
    of [func]. *)
Definition input_error (func : Cmd (option string)) : Cmd (option string) :=
  fun s =>
    match func s with
    | (Throw (Core (ValueError _)), s') => (Return (Some message_ValueError), s')
    | (Throw (KeyError _), s') => (Return (Some "Contact not found."), s')
    | (Throw (IndexError _), s') =>
        (Return (Some "Invalid command format."), s')
    | r => r
    end.

(** [try: body except ValueError as e: return str(e)] *)
Definition return_str_of_ValueError (body : Cmd (option string))
  : Cmd (option string) :=
  fun s =>
    match body s with
    | (Throw (Core (ValueError msg)), s') => (Return (Some msg), s')
    | r => r
    end.

(** [a, b = args] *)
Definition unpack2 (args : list string) : Cmd (string * string) :=
  match args with
  | [a; b] => cret (a, b)
  | _ :: _ :: _ :: _ =>
      cthrow (Core (ValueError "too many values to unpack (expected 2)"))
  | _ => cthrow (Core (ValueError "not enough values to unpack (expected 2)"))
  end.

(** [l[0]] *)
Definition index0 {A} (l : list A) : Cmd A :=
  match l with
  | x :: _ => cret x
  | [] => cthrow (IndexError "list index out of range")
  end.

(** [add_contact], decorated. *)
Definition add_contact (args : list string) : Cmd (option string) :=
  input_error
    (do* ab := unpack2 args in
     let (name_, phone) := ab in
     return_str_of_ValueError
       (do* record := of_M (Record_.__init__ name_) in
        do* _ := of_M (Record_.add_phone record phone) in
        do* _ := of_M (AddressBook.add_record record) in
        cret (Some "Contact added."))).

(** [change_contact], decorated; a [Record] object is always true, so
    [if record] asks whether the contact was found, and without a contact the
    function falls off its end. *)
Definition change_contact (args : list string) : Cmd (option string) :=
  input_error
    (do* ab := unpack2 args in
     let (name_, new_phone) := ab in
     do* record := of_M (AddressBook.find name_) in
     match record with
     | Some l =>
         return_str_of_ValueError
           (do* r := of_M (get_record l) in
            do* first := index0 (phones r) in
            do* _ := of_M (Record_.edit_phone l (value first) new_phone) in
            cret (Some "Contact updated."))
     | None => cret None
     end).

(** [show_phone], decorated. *)
Definition show_phone (args : list string) : Cmd (option string) :=
  input_error
    (do* name_ := index0 args in
     do* record := of_M (AddressBook.find name_) in
     match record with
     | Some l =>
         do* r := of_M (get_record l) in
         match phones r with
         | first :: _ => cret (Some (value first))
         | [] => cret (Some "No phone number set for this contact.")
         end
     | None => cthrow (KeyError "Contact not found.")
     end).

(** [str(record) for record in book.data.values()] *)
Fixpoint str_records (ls : list loc) : Cmd (list string) :=
  match ls with
  | [] => cret []
  | l :: ls' =>
      do* r := of_M (get_record l) in
      do* lines := str_records ls' in
      cret (Record_.__str__ r :: lines)
  end.

(** [show_all], decorated. *)
Definition show_all : Cmd (option string) :=
  input_error
    (do* d := of_M get_data in
     match d with
     | [] => cret (Some "Your address book is empty.")
     | _ =>
         do* lines := str_records (dict.values d) in
         cret (Some (Str.join newline lines))
     end).

(** [add_birthday], decorated. *)
Definition add_birthday (args : list string) : Cmd (option string) :=
  input_error
    (do* ab := unpack2 args in
     let (name_, birthday_) := ab in
     do* record := of_M (AddressBook.find name_) in
     match record with
     | Some l =>
         return_str_of_ValueError
           (do* _ := of_M (Record_.add_birthday l birthday_) in
            cret (Some "Birthday added."))
     | None => cthrow (KeyError "Contact not found.")
     end).

(** [show_birthday], decorated. *)
Definition show_birthday (args : list string) : Cmd (option string) :=
  input_error
    (do* name_ := index0 args in
     do* record := of_M (AddressBook.find name_) in
     match record with
     | Some l =>
         do* r := of_M (get_record l) in
         match birthday r with
         | Some b => cret (Some (value b))
         | None => cret (Some "No birthday set for this contact.")
         end
     | None => cthrow (KeyError "Contact not found.")
     end).

(** What the program writes: a line by [print], a prompt by [input]. *)
Inductive output : Type :=
| Printed (line : string)
| Prompted (prompt : string).

(** [print(x)] of what a handler returned; [None] is written as its name. *)
Definition print_value (x : option string) : output :=
  match x with
  | Some line => Printed line
  | None => Printed "None"
  end.

(** The loop over [birthdays.items()] of the command [birthdays]. *)
Definition print_birthdays (birthdays : list (string * list string))
  : list output :=
  flat_map
    (fun item : string * list string =>
       let (day_, names) := item in
       match names with
       | [] => []
       | _ => [Printed (day_ +:+ ": " +:+ Str.join ", " names)]
       end)
    birthdays.

(** One turn of the loop of [main] for a command other than [close] and
    [exit]: what it prints. [today] is the day on which the command is
    given. *)
Definition turn (command : string) (args : list string)
    (today : datetime.date) : Cmd (list output) :=
  if String.eqb command "hello" then cret [Printed "How can I help you?"]
  else if String.eqb command "add" then
    do* x := add_contact args in cret [print_value x]
  else if String.eqb command "change" then
    do* x := change_contact args in cret [print_value x]
  else if String.eqb command "phone" then
    do* result := show_phone args in
    match result with
    | Some line => cret [Printed line]
    | None =>
        cthrow (TypeError "can only concatenate str (not NoneType) to str")
    end
  else if String.eqb command "all" then
    do* x := show_all in cret [print_value x]
  else if String.eqb command "add-birthday" then
    do* x := add_birthday args in cret [print_value x]
  else if String.eqb command "show-birthday" then
    do* result := show_birthday args in
    match result with
    | Some line => cret [Printed line]
    | None => cret []
    end
  else if String.eqb command "birthdays" then
    do* birthdays := of_M (AddressBook.get_birthdays_per_week today) in
    cret (print_birthdays birthdays)
  else cret [Printed "Invalid command."].

(** How a run of [main] ends: by [break], or by an exception nothing
    catches. *)
Inductive ending : Type :=
| Goodbye
| Uncaught (e : pyexn).

(** The loop of [main] on the lines the user types, each with the day on
    which it is typed; [input] raises [EOFError] when no line is left. *)
Fixpoint main_loop (inputs : list (string * datetime.date)) (s : store)
  : list output * ending * store :=
  match inputs with
  | [] => ([Prompted "Enter a command: "], Uncaught EOFError, s)
  | (user_input, today) :: inputs' =>
      match parse_input user_input with
      | Throw e => ([Prompted "Enter a command: "], Uncaught e, s)
      | Return (command, args) =>
          if AddressBook.in_list command ["close"; "exit"] then
            ([Prompted "Enter a command: "; Printed "Goodbye!"], Goodbye, s)
          else
            match turn command args today s with
            | (Throw e, s') => ([Prompted "Enter a command: "], Uncaught e, s')
            | (Return outs, s') =>
                let '(outs', e, s'') := main_loop inputs' s' in
                (Prompted "Enter a command: " :: outs ++ outs', e, s'')
            end
      end
  end.

(** [main] *)
Definition main (inputs : list (string * datetime.date))
  : list output * ending * store :=
  let '(outs, e, s) := main_loop inputs empty_store in
  (Printed "Welcome to the address book bot!" :: outs, e, s).

End Bot.

(** ** Notions the properties are stated with *)

(** The store a computation leaves, whether it returns or raises. *)
Definition store_after {A} (m : M A) (s : store) : store := snd (m s).

(** Replacing the first entry equal to [old] only. *)
Fixpoint replace_first (old new : string) (l : list string) : list string :=
  match l with
  | [] => []
  | x :: l' =>
      if String.eqb x old then new :: l' else x :: replace_first old new l'
  end.

(** Replacing every entry equal to [old]. *)
Definition replace_all (old new : string) (l : list string) : list string :=
  map (fun x => if String.eqb x old then new else x) l.

Definition phone_values (r : RecordObj) : list string :=
  map value (phones r).

(** A record with the same phone twice. *)
Definition twice_store : store :=
  mkStore
    [mkRecord (mkField "Bo")
       [mkField "0123456789"; mkField "0123456789"] None]
    [("Bo", 0%nat)].

(** The dictionary of the address book holds each key once, and every key is
    the name of the record it leads to. *)
Definition store_wf (s : store) : Prop :=
  NoDup (dict.keys (data s))
  /\ forall k l, In (k, l) (data s) ->
       exists r, heap s !! l = Some r /\ value (name r) = k.

(** Every birthday of the store is a string the parser accepts. *)
Definition birthdays_parse (s : store) : Prop :=
  forall l r b, heap s !! l = Some r -> birthday r = Some b ->
    exists d, strptime_date (value b) = Ok d.

(** The calls a client of the two classes can make. *)
Inductive call : Type :=
| Call_Record (name_ : string)
| Call_add_phone (self : loc) (phone : string)
| Call_remove_phone (self : loc) (phone : string)
| Call_edit_phone (self : loc) (old_phone new_phone : string)
| Call_add_birthday (self : loc) (birthday_ : string)
| Call_add_record (record : loc)
| Call_find (name_ : string)
| Call_delete (name_ : string).

(** The store a call leaves, whether it returns or raises. *)
Definition exec (c : call) (s : store) : store :=
  match c with
  | Call_Record n => store_after (Record_.__init__ n) s
  | Call_add_phone l p => store_after (Record_.add_phone l p) s
  | Call_remove_phone l p => store_after (Record_.remove_phone l p) s
  | Call_edit_phone l o n => store_after (Record_.edit_phone l o n) s
  | Call_add_birthday l b => store_after (Record_.add_birthday l b) s
  | Call_add_record l => store_after (AddressBook.add_record l) s
  | Call_find n => store_after (AddressBook.find n) s
  | Call_delete n => store_after (AddressBook.delete n) s
  end.

(** The stores a program reaches from the empty address book. *)
Definition reachable (s : store) : Prop :=
  exists calls, s = fold_left (fun s' c => exec c s') calls empty_store.

(** The store in which the record at [l] is [r']. *)
Definition with_record (s : store) (l : loc) (r' : RecordObj) : store :=
  mkStore (<[l := r']> (heap s)) (data s).

(** What [edit_phone] does to one phone. *)
Definition edit_one (old_phone new_phone : string) (p : Field) : Field :=
  if String.eqb (value p) old_phone then mkField new_phone else p.

Definition is_ValueError (e : exn) : Prop := exists m, e = ValueError m.

(** *** The report, as the specification words it *)

(** A date object that passed the checks of its constructor. *)
Definition date_ok (d : datetime.date) : Prop :=
  datetime.date_new (datetime.year d) (datetime.month d) (datetime.day d)
  = Ok d.

(** The birthday moved to the year of [today], or to the next year when that
    day is strictly before [today]. *)
Definition anchored (today birthday_ : datetime.date) : datetime.date :=
  let this_year :=
    datetime.mkdate (datetime.year today) (datetime.month birthday_)
      (datetime.day birthday_) in
  if datetime.date_lt this_year today then
    datetime.mkdate (datetime.year today + 1) (datetime.month birthday_)
      (datetime.day birthday_)
  else this_year.

(** The difference in whole days between the anchored birthday and today. *)
Definition deltaDays (today birthday_ : datetime.date) : Z :=
  datetime.toordinal (anchored today birthday_) - datetime.toordinal today.

(** All the names of a report, bucket after bucket. *)
Definition reported_names (res : list (string * list string)) : list string :=
  concat (map snd res).

Definition reported (n : string) (res : list (string * list string)) : Prop :=
  In n (reported_names res).

(** The names under one weekday; none when the report has no such bucket. *)
Definition bucket (day_ : string) (res : list (string * list string))
  : list string :=
  match dict.get day_ res with
  | Some names => names
  | None => []
  end.

Definition Saturday : Z := 5.
Definition Sunday : Z := 6.

(** The weekday name the report files a date under. *)
Definition report_key (d : datetime.date) : string :=
  let day_of_week := datetime.strftime_A d in
  if AddressBook.in_list day_of_week ["Saturday"; "Sunday"] then "Monday"
  else day_of_week.

(** [es] lists, in order, the bucket and the name of each record of [ls]
    that the report files: a record without birthday and a record whose
    birthday is 7 days away or more are passed over. *)
Inductive filed (today : datetime.date) (s : store)
  : list loc -> list (string * string) -> Prop :=
| filed_nil : filed today s [] []
| filed_none l r ls es :
    heap s !! l = Some r ->
    birthday r = None ->
    filed today s ls es ->
    filed today s (l :: ls) es
| filed_late l r b bd ls es :
    heap s !! l = Some r ->
    birthday r = Some b ->
    strptime_date (value b) = Ok bd ->
    7 <= deltaDays today bd ->
    filed today s ls es ->
    filed today s (l :: ls) es
| filed_take l r b bd shifted ls es :
    heap s !! l = Some r ->
    birthday r = Some b ->
    strptime_date (value b) = Ok bd ->
    deltaDays today bd < 7 ->
    datetime.add_days today (deltaDays today bd) = Ok shifted ->
    filed today s ls es ->
    filed today s (l :: ls) ((report_key shifted, value (name r)) :: es).

(** The name of the record at [l]. *)
Definition name_at (s : store) (l : loc) : string :=
  match heap s !! l with
  | Some r => value (name r)
  | None => ""
  end.

Definition file_entry (acc : list (string * list string))
    (e : string * string) : list (string * list string) :=
  dict.append_at (fst e) (snd e) acc.

(** No birthday of the address book is a 29th of February. *)
Definition no_leap_day (s : store) : Prop :=
  forall k l r b bd,
    In (k, l) (data s) -> heap s !! l = Some r -> birthday r = Some b ->
    strptime_date (value b) = Ok bd ->
    ~ (datetime.month bd = 2 /\ datetime.day bd = 29).

Definition store_inv (s : store) : Prop := store_wf s /\ birthdays_parse s.

(** *** Scenarios *)

(** Three contacts with birthdays on 12, 16 and 17 June. *)
Definition june_calls : list call :=
  [Call_Record "Ann"; Call_add_birthday 0%nat "12.06.2024";
   Call_add_record 0%nat;
   Call_Record "Bo"; Call_add_birthday 1%nat "16.06.2024";
   Call_add_record 1%nat;
   Call_Record "Cy"; Call_add_birthday 2%nat "17.06.2024";
   Call_add_record 2%nat].

Definition june_store : store :=
  fold_left (fun s' c => exec c s') june_calls empty_store.

(** Monday 10 June 2024. *)
Definition june_10 : datetime.date := datetime.mkdate 2024 6 10.

(** One contact with a birthday on 2 January. *)
Definition january_store : store :=
  fold_left (fun s' c => exec c s')
    [Call_Record "Di"; Call_add_birthday 0%nat "02.01.2024";
     Call_add_record 0%nat]
    empty_store.

(** One contact born on a 29th of February. *)
Definition leap_store : store :=
  fold_left (fun s' c => exec c s')
    [Call_Record "Eve"; Call_add_birthday 0%nat "29.02.2020";
     Call_add_record 0%nat]
    empty_store.

(** Ann, born on a 12th of June, and Eve, born on a 29th of February. *)
Definition ann_eve_calls : list call :=
  [Call_Record "Ann"; Call_add_birthday 0%nat "12.06.2000";
   Call_add_record 0%nat;
   Call_Record "Eve"; Call_add_birthday 1%nat "29.02.2020";
   Call_add_record 1%nat].

Definition ann_eve_store : store :=
  fold_left (fun s' c => exec c s') ann_eve_calls empty_store.

(** Saturday 10 June 2023, in a year that is not a leap year. *)
Definition june_10_2023 : datetime.date := datetime.mkdate 2023 6 10.

(** Ten times the superscript two, U+00B2. *)
Definition superscript_twos : string :=
  string_of_list_ascii (repeat (ascii_of_nat 178) 10).

(** *** Dates as text, as the specification words them *)

Definition all_decimal (t : list ascii) : bool := forallb Str.is_decimal t.

(** The number the decimal digits of a text write. *)
Definition number (t : list ascii) : Z :=
  fold_left (fun n c => 10 * n + (Str.ord c - 48))
    (List.filter Str.is_decimal t) 0.

Definition leap_year (y : Z) : bool :=
  (y mod 4 =? 0) && (negb (y mod 100 =? 0) || (y mod 400 =? 0)).

Definition month_length (y m : Z) : Z :=
  if m =? 2 then (if leap_year y then 29 else 28)
  else if (m =? 4) || (m =? 6) || (m =? 9) || (m =? 11) then 30
  else 31.

(** A day that exists in the calendar, from year 1 on. *)
Definition real_calendar_date (y m d : Z) : bool :=
  (1 <=? y) && (1 <=? m) && (m <=? 12) && (1 <=? d)
  && (d <=? month_length y m).


(** The text of a day: one or two digits, or a space and a digit. *)
Definition day_text (t : list ascii) : Prop :=
  (all_decimal t = true
   /\ (List.length t = 1%nat \/ List.length t = 2%nat))
  \/ exists c, t = [" "%char; c] /\ Str.is_decimal c = true.

(** The text of a month: one or two digits. *)
Definition month_text (t : list ascii) : Prop :=
  all_decimal t = true /\ (List.length t = 1%nat \/ List.length t = 2%nat).

(** The text of a year: four digits. *)
Definition year_text (t : list ascii) : Prop :=
  all_decimal t = true /\ List.length t = 4%nat.

(** [D.M.YYYY]: a day, a dot, a month, a dot, a year, that write a real
    calendar date. *)
Definition lenient_date (s : string) : Prop :=
  exists dt mt yt,
    Str.chars s = (dt ++ "."%char :: mt ++ "."%char :: yt)%list
    /\ day_text dt /\ month_text mt /\ year_text yt
    /\ real_calendar_date (number yt) (number mt) (number dt) = true.

(** The texts an alternation matches in full. *)
Definition group_lang (alts : list (list _strptime.atom)) (t : list ascii)
  : Prop :=
  exists a, In a alts /\ _strptime.seq_match a t = Some (t, []).

(** *** Notions the further properties are stated with *)

(** A string of whitespace only, the empty string among them. *)
Definition blank (v : string) : Prop :=
  forall c, In c (Str.chars v) -> Str.is_space c = true.

(** The names of the days from Monday to Friday. *)
Definition working_days : list string :=
  ["Monday"; "Tuesday"; "Wednesday"; "Thursday"; "Friday"].

(** A record with a name that is not blank, phones of 10 characters and a
    birthday, if any, that the parser accepts. *)
Definition record_valid (r : RecordObj) : Prop :=
  ~ blank (value (name r))
  /\ (forall p, In p (phone_values r) -> String.length p = 10%nat)
  /\ (forall b, birthday r = Some b -> lenient_date (value b)).

Definition records_valid (s : store) : Prop :=
  forall l r, heap s !! l = Some r -> record_valid r.

(** What [remove_phone] keeps. *)
Definition keep_other (phone : string) (p : string) : bool :=
  negb (String.eqb p phone).

(** The entries of the report filed under the key [k]. *)
Definition filed_under (k : string) (e : string * string) : bool :=
  String.eqb (fst e) k.

(** The report so far: its keys are distinct and no bucket is empty. *)
Definition buckets_ok (acc : list (string * list string)) : Prop :=
  NoDup (dict.keys acc) /\ forall k ns, In (k, ns) acc -> ns <> [].

(** Every contact of the address book has one phone, of 10 characters. *)
Definition one_phone_each (s : store) : Prop :=
  forall k l, In (k, l) (data s) ->
    exists r p,
      heap s !! l = Some r /\ phone_values r = [p]
      /\ String.length p = 10%nat.

(** The store after a run of [main] on the lines [inputs]. *)
Definition store_of_run (inputs : list (string * datetime.date)) : store :=
  snd (Bot.main inputs).

(** A text without whitespace. *)
Definition no_space (cs : list ascii) : Prop :=
  forall c, In c cs -> Str.is_space c = false.

(** A word: not empty, no whitespace. *)
Definition word (w : string) : Prop :=
  w <> "" /\ no_space (Str.chars w).

(** The exceptions [input_error] answers. *)
Definition caught (e : pyexn) : Prop :=
  (exists m, e = Core (ValueError m)) \/ (exists m, e = KeyError m)
  \/ (exists m, e = IndexError m).

(** A function that throws nothing but what [input_error] answers. *)
Definition throws_caught {A} (m : Cmd A) : Prop :=
  forall s e s', m s = (Throw e, s') -> caught e.

(** A function that returns a [str], not [None]. *)
Definition returns_str (m : Cmd (option string)) : Prop :=
  forall s x s', m s = (Return x, s') -> x <> None.

(** The records of [s] are in [s'], where they were. *)
Definition records_kept (s s' : store) : Prop :=
  forall l r, heap s !! l = Some r -> heap s' !! l = Some r.

(** A line that [main] survives: not blank, and not the command
    [birthdays]. *)
Definition harmless (line : string) : Prop :=
  ~ blank line
  /\ forall args, Bot.parse_input line <> Return ("birthdays", args).

(** The line that the command [birthdays] prints for a bucket. *)
Definition birthday_line (item : string * list string) : Bot.output :=
  Bot.Printed (item.1 +:+ ": " +:+ Str.join ", " item.2).

(** The records of the address book, in the order of its keys. *)
Definition book_records (s : store) : list RecordObj :=
  omap (fun l => heap s !! l) (dict.values (data s)).

(** A separator of [split]: whitespace, at least one character. *)
Definition separator (sep : string) : Prop := sep <> "" /\ blank sep.

(** * Properties *)

(** ** Strings *)

Lemma chars_length (s : string) :
  List.length (Str.chars s) = String.length s.
Proof.
  unfold Str.chars. induction s as [|c s IH]; simpl; [reflexivity|].
  now rewrite IH.
Qed.

Lemma isdigit_true_iff (s : string) :
  Str.isdigit s = true <->
  Str.chars s <> [] /\ forall c, In c (Str.chars s) -> Str.isdigit_char c = true.
Proof.
  unfold Str.isdigit. destruct (Str.chars s) as [|c cs] eqn:E.
  - split; [discriminate | intros [H _]; now elim H].
  - rewrite forallb_forall. split.
    + intros H. split; [discriminate | exact H].
    + intros [_ H]. exact H.
Qed.

Lemma len_eq_10 (s : string) :
  (Str.len s =? 10) = true <-> String.length s = 10%nat.
Proof. unfold Str.len. rewrite Z.eqb_eq. lia. Qed.

(** ** Fields *)

(** C1, as the code has it. [Phone(s)] raises the invalid-phone error when
    [s] is not 10 characters long or holds a character that [str.isdigit]
    does not count as a digit, and for a string of 10 characters that
    [str.isdigit] counts as digits it returns a field whose value is [s].
    The decimal digits are among these digits: every string of 10 decimal
    digits is accepted. *)
Theorem Phone_validates (s : string) :
  ((String.length s <> 10%nat
    \/ exists c, In c (Str.chars s) /\ Str.isdigit_char c = false) ->
   Phone s = Raise InvalidPhone)
  /\ (String.length s = 10%nat ->
      (forall c, In c (Str.chars s) -> Str.isdigit_char c = true) ->
      exists p, Phone s = Ok p /\ value p = s)
  /\ (String.length s = 10%nat ->
      (forall c, In c (Str.chars s) -> Str.is_decimal c = true) ->
      Phone s = Ok (mkField s)).
Proof.
  assert (Hok : String.length s = 10%nat ->
                (forall c, In c (Str.chars s) -> Str.isdigit_char c = true) ->
                Phone s = Ok (mkField s)).
  { intros Hlen Hall. unfold Phone.
    assert (Hd : Str.isdigit s = true).
    { apply isdigit_true_iff. split; [|exact Hall].
      intros E. pose proof (chars_length s) as L. rewrite E, Hlen in L.
      discriminate. }
    apply len_eq_10 in Hlen. now rewrite Hd, Hlen. }
  split; [|split].
  2:{ intros Hlen Hall. exists (mkField s).
      split; [now apply Hok|reflexivity]. }
  2:{ intros Hlen Hall. apply Hok; [exact Hlen|].
      intros c Hc. unfold Str.isdigit_char. now rewrite (Hall c Hc). }
  intros H. unfold Phone.
  destruct (Str.isdigit s) eqn:Hd; simpl; [|reflexivity].
  destruct (Str.len s =? 10) eqn:Hl; simpl; [|reflexivity].
  apply isdigit_true_iff in Hd. apply len_eq_10 in Hl.
  destruct H as [H | (c & Hin & Hc)]; [contradiction|].
  destruct Hd as [_ Hd]. rewrite (Hd c Hin) in Hc. discriminate.
Qed.

(** C1 with the decimal digits for digits fails on ten superscript twos:
    the string is 10 characters long, none of them a decimal digit, and
    [Phone] accepts it, for [str.isdigit] counts the superscript digits as
    digits. So it is not true that every string with a character that is
    not a decimal digit is refused. *)
Lemma superscript_twos_accepted :
  String.length superscript_twos = 10%nat
  /\ (forall c, In c (Str.chars superscript_twos) -> Str.is_decimal c = false)
  /\ Phone superscript_twos = Ok (mkField superscript_twos)
  /\ ~ (forall s,
          (String.length s <> 10%nat
           \/ exists c, In c (Str.chars s) /\ Str.is_decimal c = false) ->
          Phone s = Raise InvalidPhone).
Proof.
  assert (Hc : forall c, In c (Str.chars superscript_twos) ->
                         Str.is_decimal c = false).
  { intros c Hc. cbn in Hc.
    repeat (destruct Hc as [<- | Hc]; [reflexivity|]). contradiction. }
  assert (Hp : Phone superscript_twos = Ok (mkField superscript_twos))
    by (vm_compute; reflexivity).
  split; [reflexivity|]. split; [exact Hc|]. split; [exact Hp|].
  intros H. specialize (H superscript_twos). rewrite Hp in H.
  assert (E : Ok (mkField superscript_twos) = Raise InvalidPhone).
  { apply H. right. exists (ascii_of_nat 178).
    split; [now left|reflexivity]. }
  discriminate.
Qed.

Lemma Phone_validates_witness :
  Phone "12345" = Raise InvalidPhone
  /\ (exists p, Phone "0501234567" = Ok p /\ value p = "0501234567")
  /\ Phone "0501234567" = Ok (mkField "0501234567").
Proof.
  split; [|split].
  - apply (proj1 (Phone_validates "12345")). left. simpl. lia.
  - apply (proj1 (proj2 (Phone_validates "0501234567"))); [reflexivity|].
    intros c Hc. simpl in Hc.
    repeat (destruct Hc as [<- | Hc]; [reflexivity|]). contradiction.
  - apply (proj2 (proj2 (Phone_validates "0501234567"))); [reflexivity|].
    intros c Hc. simpl in Hc.
    repeat (destruct Hc as [<- | Hc]; [reflexivity|]). contradiction.
Defined.

(** ** Records *)

Lemma record_eta (r : RecordObj) :
  mkRecord (name r) (phones r) (birthday r) = r.
Proof. now destruct r. Qed.

Lemma store_eta (s : store) : mkStore (heap s) (data s) = s.
Proof. now destruct s. Qed.

Lemma get_record_Some (s : store) (l : loc) (r : RecordObj) :
  heap s !! l = Some r -> get_record l s = (Ok r, s).
Proof. intros H. unfold get_record. now rewrite H. Qed.

Lemma with_record_lookup (s : store) (l : loc) (r r' : RecordObj) :
  heap s !! l = Some r -> heap (with_record s l r') !! l = Some r'.
Proof.
  intros H. simpl. apply list_lookup_insert_eq.
  now apply lookup_lt_Some in H.
Qed.

Lemma with_record_twice (s : store) (l : loc) (r1 r2 : RecordObj) :
  with_record (with_record s l r1) l r2 = with_record s l r2.
Proof. unfold with_record. simpl. now rewrite list_insert_insert_eq. Qed.

Lemma with_record_same (s : store) (l : loc) (r : RecordObj) :
  heap s !! l = Some r -> with_record s l r = s.
Proof.
  intros H. unfold with_record. rewrite (list_insert_id _ _ _ H).
  apply store_eta.
Qed.

Section EditPhone.

Variables (self : loc) (old_phone new_phone : string).

(** With a new phone of 10 characters the loop from index [i] rewrites the
    matching phones from [i] on and leaves the ones before [i] alone. *)
Lemma edit_phone_loop_ok (n i : nat) (s : store) (r : RecordObj) :
  Str.len new_phone = 10 ->
  heap s !! self = Some r ->
  (i + n)%nat = List.length (phones r) ->
  Record_.edit_phone_loop self old_phone new_phone i n s
  = (Ok tt,
     with_record s self
       (mkRecord (name r)
          (take i (phones r)
           ++ map (edit_one old_phone new_phone) (drop i (phones r)))
          (birthday r))).
Proof.
  intros Hlen. revert i s r.
  induction n as [|n IH]; intros i s r Hr Hin.
  - simpl. unfold ret.
    rewrite drop_ge, take_ge by lia. simpl. rewrite app_nil_r, record_eta.
    now rewrite with_record_same.
  - cbn [Record_.edit_phone_loop]. unfold bind at 1.
    rewrite (get_record_Some _ _ _ Hr).
    destruct (phones r !! i) as [p|] eqn:Hp.
    2:{ apply lookup_ge_None in Hp. lia. }
    rewrite (drop_S _ _ _ Hp). cbn [map].
    unfold bind at 1. unfold edit_one at 1.
    destruct (String.eqb (value p) old_phone) eqn:Hv.
    + rewrite Hlen. cbn [Z.eqb Pos.eqb negb].
      unfold Record_.set_phone_value, bind at 1.
      rewrite (get_record_Some _ _ _ Hr). unfold set_record.
      fold (with_record s self
              (mkRecord (name r) (<[i:=mkField new_phone]> (phones r))
                 (birthday r))).
      erewrite IH; [| eapply with_record_lookup; eassumption
                    | cbn [phones]; rewrite length_insert; lia].
      rewrite with_record_twice. cbn [name phones birthday].
      rewrite take_insert_lt, drop_insert_lt by lia.
      rewrite (take_S_r _ _ _ Hp).
      rewrite insert_app_r_alt by (rewrite length_take; lia).
      rewrite length_take.
      replace (i - i `min` List.length (phones r))%nat with 0%nat by lia.
      cbn [insert list_insert]. now rewrite <- app_assoc.
    + unfold ret. erewrite IH; [| eassumption | lia].
      rewrite (take_S_r _ _ _ Hp). now rewrite <- app_assoc.
Qed.

(** Without a matching phone from index [i] on, the loop neither writes nor
    raises, whatever the new phone is. *)
Lemma edit_phone_loop_absent (n i : nat) (s : store) (r : RecordObj) :
  heap s !! self = Some r ->
  (forall j p, (i <= j)%nat -> phones r !! j = Some p ->
               value p <> old_phone) ->
  Record_.edit_phone_loop self old_phone new_phone i n s = (Ok tt, s).
Proof.
  revert i. induction n as [|n IH]; intros i Hr Hno; [reflexivity|].
  cbn [Record_.edit_phone_loop]. unfold bind at 1.
  rewrite (get_record_Some _ _ _ Hr).
  destruct (phones r !! i) as [p|] eqn:Hp; [|reflexivity].
  unfold bind at 1.
  destruct (String.eqb_spec (value p) old_phone) as [E|_].
  - exfalso. eapply Hno; [|exact Hp|exact E]. lia.
  - unfold ret. apply IH; [exact Hr|].
    intros j q Hj. apply Hno. lia.
Qed.

(** With a matching phone at or after index [i] and a new phone that is not
    10 characters long, the loop raises before it has written anything. *)
Lemma edit_phone_loop_raises (n i : nat) (s : store) (r : RecordObj) :
  Str.len new_phone <> 10 ->
  heap s !! self = Some r ->
  (i + n)%nat = List.length (phones r) ->
  (exists j p, (i <= j)%nat /\ phones r !! j = Some p
               /\ value p = old_phone) ->
  Record_.edit_phone_loop self old_phone new_phone i n s
  = (Raise InvalidPhone, s).
Proof.
  intros Hlen Hr. revert i.
  induction n as [|n IH]; intros i Hin (j & p & Hij & Hp & Hv).
  - apply lookup_lt_Some in Hp. lia.
  - cbn [Record_.edit_phone_loop]. unfold bind at 1.
    rewrite (get_record_Some _ _ _ Hr).
    destruct (phones r !! i) as [q|] eqn:Hq.
    2:{ apply lookup_ge_None in Hq. lia. }
    unfold bind at 1.
    destruct (String.eqb_spec (value q) old_phone) as [E|NE].
    + apply Z.eqb_neq in Hlen. rewrite Hlen. reflexivity.
    + unfold ret. apply IH; [lia|].
      exists j, p. repeat split; try assumption.
      destruct (Nat.eq_dec i j) as [->|]; [|lia].
      rewrite Hq in Hp. now inversion Hp; subst.
Qed.

End EditPhone.

Lemma In_phone_values_lookup (r : RecordObj) (v : string) :
  In v (phone_values r) <->
  exists j p, phones r !! j = Some p /\ value p = v.
Proof.
  unfold phone_values. rewrite in_map_iff. split.
  - intros (p & Hv & Hin). apply list_elem_of_In, list_elem_of_lookup in Hin.
    destruct Hin as [j Hj]. eauto.
  - intros (j & p & Hj & Hv). exists p. split; [exact Hv|].
    apply list_elem_of_In. eapply list_elem_of_lookup_2; eassumption.
Qed.

Lemma phone_values_edit_one (old_phone new_phone : string) (ps : list Field) :
  map value (map (edit_one old_phone new_phone) ps)
  = replace_all old_phone new_phone (map value ps).
Proof.
  unfold replace_all. rewrite !map_map. apply map_ext. intros p.
  unfold edit_one. now destruct (String.eqb (value p) old_phone).
Qed.

(** C5, as the code has it. On a record holding [old_phone], [edit_phone]
    with a new phone of 10 characters, digits or not, replaces in place every
    phone equal to [old_phone] and leaves the other phones, the other
    attributes, the other records and the address book as they were; with a
    new phone of another length it raises the invalid-phone error and changes
    nothing. *)
Theorem edit_phone_replaces_every_match
    (s : store) (self : loc) (r : RecordObj) (old_phone new_phone : string) :
  heap s !! self = Some r ->
  In old_phone (phone_values r) ->
  (String.length new_phone = 10%nat ->
   exists r',
     Record_.edit_phone self old_phone new_phone s
     = (Ok tt, with_record s self r')
     /\ phone_values r' = replace_all old_phone new_phone (phone_values r)
     /\ name r' = name r /\ birthday r' = birthday r)
  /\ (String.length new_phone <> 10%nat ->
      Record_.edit_phone self old_phone new_phone s = (Raise InvalidPhone, s)).
Proof.
  intros Hr Hin. unfold Record_.edit_phone, bind.
  rewrite (get_record_Some _ _ _ Hr). split; intros Hlen.
  - eexists. split.
    + apply edit_phone_loop_ok; [unfold Str.len; lia | exact Hr | reflexivity].
    + unfold phone_values. cbn [phones name birthday].
      rewrite drop_0, take_0. cbn [app].
      now rewrite phone_values_edit_one.
  - apply edit_phone_loop_raises with (r := r);
      [unfold Str.len; lia | exact Hr | reflexivity |].
    apply In_phone_values_lookup in Hin. destruct Hin as (j & p & Hj & Hv).
    exists j, p. repeat split; [lia | exact Hj | exact Hv].
Qed.

Lemma edit_phone_replaces_every_match_witness :
  (exists r',
     Record_.edit_phone 0%nat "0123456789" "abcdefghij" twice_store
     = (Ok tt, with_record twice_store 0%nat r')
     /\ phone_values r' = ["abcdefghij"; "abcdefghij"]
     /\ name r' = mkField "Bo" /\ birthday r' = None)
  /\ Record_.edit_phone 0%nat "0123456789" "123" twice_store
     = (Raise InvalidPhone, twice_store).
Proof.
  pose proof (edit_phone_replaces_every_match twice_store 0%nat _
                "0123456789" "abcdefghij" eq_refl (or_introl eq_refl)) as H1.
  pose proof (edit_phone_replaces_every_match twice_store 0%nat _
                "0123456789" "123" eq_refl (or_introl eq_refl)) as H2.
  split.
  - exact (proj1 H1 eq_refl).
  - apply (proj2 H2). simpl. lia.
Defined.

(** Two calls of [add_phone] with the same number lead to the record with
    that phone twice. *)
Lemma twice_store_reachable : reachable twice_store.
Proof.
  exists [Call_Record "Bo"; Call_add_phone 0%nat "0123456789";
          Call_add_phone 0%nat "0123456789"; Call_add_record 0%nat].
  vm_compute. reflexivity.
Qed.

(** C5 with the first match alone fails on a record with two equal phones:
    the second one is replaced as well. *)
Lemma edit_phone_not_first_only :
  In "0123456789"
    (phone_values
       (mkRecord (mkField "Bo")
          [mkField "0123456789"; mkField "0123456789"] None))
  /\ exists r',
       heap (store_after
               (Record_.edit_phone 0%nat "0123456789" "0987654321")
               twice_store) !! 0%nat = Some r'
       /\ phone_values r' = ["0987654321"; "0987654321"]
       /\ phone_values r'
          <> replace_first "0123456789" "0987654321"
               ["0123456789"; "0123456789"].
Proof.
  split; [left; reflexivity|].
  eexists. split; [reflexivity|]. split; [reflexivity|].
  simpl. discriminate.
Qed.

(** C6. When no phone of the record equals [old_phone], [edit_phone] returns
    without an exception and leaves the store, hence the phone list, as it
    was, whatever the length of [new_phone]. *)
Theorem edit_phone_absent_is_noop
    (s : store) (self : loc) (r : RecordObj) (old_phone new_phone : string) :
  heap s !! self = Some r ->
  ~ In old_phone (phone_values r) ->
  Record_.edit_phone self old_phone new_phone s = (Ok tt, s).
Proof.
  intros Hr Hno. unfold Record_.edit_phone, bind.
  rewrite (get_record_Some _ _ _ Hr).
  apply edit_phone_loop_absent with (r := r); [exact Hr|].
  intros j p _ Hj Hv. apply Hno. apply In_phone_values_lookup. eauto.
Qed.

Lemma edit_phone_absent_is_noop_witness :
  Record_.edit_phone 0%nat "0000000000" "12" twice_store = (Ok tt, twice_store).
Proof.
  apply (edit_phone_absent_is_noop twice_store 0%nat
           (mkRecord (mkField "Bo")
              [mkField "0123456789"; mkField "0123456789"] None));
    [reflexivity|].
  simpl. intros [H|[H|[]]]; discriminate.
Defined.

Lemma int_raises (t : list ascii) (e : exn) :
  _strptime.int t = Raise e -> is_ValueError e.
Proof.
  unfold _strptime.int.
  destruct (Str.rstrip_chars _); [intros [= <-]; eexists; reflexivity|].
  destruct (forallb _ _); [discriminate|].
  intros [= <-]; eexists; reflexivity.
Qed.

Lemma date_new_raises (y m d : Z) (e : exn) :
  datetime.date_new y m d = Raise e -> is_ValueError e.
Proof.
  unfold datetime.date_new.
  repeat (destruct (negb _); [intros [= <-]; eexists; reflexivity|]).
  discriminate.
Qed.

(** The parser raises nothing but [ValueError]. *)
Lemma strptime_date_raises (v : string) (e : exn) :
  strptime_date v = Raise e -> is_ValueError e.
Proof.
  unfold strptime_date, _strptime._strptime.
  destruct (_strptime.re_match _ _) as [[groups rest]|];
    [|intros [= <-]; eexists; reflexivity].
  destruct (negb _); [intros [= <-]; eexists; reflexivity|].
  destruct groups as [|d [|mo [|y [|]]]];
    try (intros [= <-]; eexists; reflexivity).
  unfold rbind.
  destruct (_strptime.int d) eqn:Ed; [|intros [= <-]; eapply int_raises, Ed].
  destruct (_strptime.int mo) eqn:Em; [|intros [= <-]; eapply int_raises, Em].
  destruct (_strptime.int y) eqn:Ey; [|intros [= <-]; eapply int_raises, Ey].
  apply date_new_raises.
Qed.

Lemma Birthday_raises (v : string) (e : exn) :
  Birthday v = Raise e -> e = InvalidDate.
Proof.
  unfold Birthday. destruct (strptime_date v) as [d|e'] eqn:E; [discriminate|].
  apply strptime_date_raises in E. destruct E as [m ->].
  now intros [= <-].
Qed.

(** C8. [Record(name)], [add_phone] and [add_birthday] validate before they
    write: on an invalid name, phone or date they raise the error of the
    field and the store, its records and the address book, is the one before
    the call. *)
Theorem validation_precedes_mutation
    (s : store) (self : loc) (v : string) (e : exn) :
  (Name v = Raise e -> Record_.__init__ v s = (Raise InvalidName, s))
  /\ (Phone v = Raise e ->
      Record_.add_phone self v s = (Raise InvalidPhone, s))
  /\ (Birthday v = Raise e ->
      Record_.add_birthday self v s = (Raise InvalidDate, s)).
Proof.
  repeat split; intros H.
  - unfold Record_.__init__, bind, lift. rewrite H.
    unfold Name in H. destruct (negb _); inversion H; reflexivity.
  - unfold Record_.add_phone, bind, lift. rewrite H.
    unfold Phone in H. destruct (_ || _); inversion H; reflexivity.
  - unfold Record_.add_birthday, bind, lift. rewrite H.
    now rewrite (Birthday_raises _ _ H).
Qed.

Lemma validation_precedes_mutation_witness :
  Record_.__init__ "   " twice_store = (Raise InvalidName, twice_store)
  /\ Record_.add_phone 0%nat "12345" twice_store
     = (Raise InvalidPhone, twice_store)
  /\ Record_.add_birthday 0%nat "30.02.2021" twice_store
     = (Raise InvalidDate, twice_store).
Proof.
  pose proof (validation_precedes_mutation twice_store 0%nat "   "
                InvalidName) as (H1 & _ & _).
  pose proof (validation_precedes_mutation twice_store 0%nat "12345"
                InvalidPhone) as (_ & H2 & _).
  pose proof (validation_precedes_mutation twice_store 0%nat "30.02.2021"
                InvalidDate) as (_ & _ & H3).
  split; [apply H1; reflexivity|].
  split; [apply H2; reflexivity | apply H3; reflexivity].
Defined.

(** C9. A record named [x] without phones and without a birthday is rendered
    as [Contact name: x, phones: , birthday: No birthday]. *)
Theorem str_of_bare_record (x : string) :
  Record_.__str__ (mkRecord (mkField x) [] None)
  = "Contact name: " +:+ x +:+ ", phones: , birthday: No birthday".
Proof.
  reflexivity.
Qed.

(** ** Dictionaries *)

Section Dict.

Context {V : Type}.
Implicit Types (d : list (string * V)) (k : string) (v : V).

Lemma dict_get_set_eq d k v : dict.get k (dict.set k v d) = Some v.
Proof.
  induction d as [|[k' v'] d IH]; simpl.
  - now rewrite String.eqb_refl.
  - destruct (String.eqb k' k) eqn:E; simpl; rewrite E; [reflexivity|exact IH].
Qed.

Lemma dict_get_set_ne d k k' v :
  k' <> k -> dict.get k' (dict.set k v d) = dict.get k' d.
Proof.
  intros Hne. induction d as [|[k0 v0] d IH]; simpl.
  - destruct (String.eqb_spec k k'); [congruence|reflexivity].
  - destruct (String.eqb_spec k0 k) as [->|]; simpl.
    + destruct (String.eqb_spec k k'); [congruence|reflexivity].
    + destruct (String.eqb k0 k'); [reflexivity|exact IH].
Qed.

Lemma dict_get_None d k : dict.get k d = None <-> ~ In k (dict.keys d).
Proof.
  induction d as [|[k' v'] d IH]; simpl; [tauto|].
  destruct (String.eqb_spec k' k) as [->|Hne].
  - split; [discriminate | intros H; elim H; now left].
  - rewrite IH. split; [intros H [E|Hin]; [congruence|tauto] | tauto].
Qed.

Lemma dict_get_In d k v : dict.get k d = Some v -> In (k, v) d.
Proof.
  induction d as [|[k' v'] d IH]; simpl; [discriminate|].
  destruct (String.eqb_spec k' k) as [->|Hne].
  - intros [= ->]. now left.
  - intros H. right. now apply IH.
Qed.

Lemma dict_In_get d k v :
  NoDup (dict.keys d) -> In (k, v) d -> dict.get k d = Some v.
Proof.
  induction d as [|[k' v'] d IH]; simpl; [tauto|].
  intros Hnd [E|Hin].
  - inversion E; subst. now rewrite String.eqb_refl.
  - apply NoDup_cons in Hnd. destruct Hnd as [Hk Hnd].
    destruct (String.eqb_spec k' k) as [->|Hne]; [|now apply IH].
    exfalso. apply Hk. apply list_elem_of_In.
    change k with (fst (k, v)). now apply in_map.
Qed.

Lemma dict_keys_set d k v :
  dict.keys (dict.set k v d)
  = if dict.mem k d then dict.keys d else (dict.keys d ++ [k])%list.
Proof.
  unfold dict.mem, dict.keys. induction d as [|[k' v'] d IH]; [reflexivity|].
  cbn [dict.set dict.get].
  destruct (String.eqb k' k) eqn:E; cbn [map fst]; [reflexivity|].
  rewrite IH. now destruct (dict.get k d).
Qed.

Lemma dict_keys_del_subset d k x :
  In x (dict.keys (dict.del k d)) -> In x (dict.keys d).
Proof.
  induction d as [|[k' v'] d IH]; simpl; [tauto|].
  destruct (String.eqb k' k); simpl; [tauto|].
  intros [E|Hin]; [now left | right; now apply IH].
Qed.

Lemma dict_In_del d k x v : In (x, v) (dict.del k d) -> In (x, v) d.
Proof.
  induction d as [|[k' v'] d IH]; simpl; [tauto|].
  destruct (String.eqb k' k); simpl; [tauto|].
  intros [E|Hin]; [now left | right; now apply IH].
Qed.

Lemma dict_In_set d k v x w :
  NoDup (dict.keys d) ->
  In (x, w) (dict.set k v d) -> (x = k /\ w = v) \/ (x <> k /\ In (x, w) d).
Proof.
  induction d as [|[k' v'] d IH]; simpl.
  - intros _ [[= <- <-]|[]]. now left.
  - intros Hnd. apply NoDup_cons in Hnd. destruct Hnd as [Hk Hnd].
    destruct (String.eqb_spec k' k) as [->|Hne]; simpl.
    + intros [[= <- <-]|Hin]; [now left|].
      right. split; [|tauto].
      intros ->. apply Hk. apply list_elem_of_In.
      change k with (fst (k, w)). now apply in_map.
    + intros [[= <- <-]|Hin]; [right; split; [congruence|now left]|].
      destruct (IH Hnd Hin) as [?|[? ?]]; [now left | right; tauto].
Qed.

End Dict.

Lemma dict_NoDup_set {V} (d : list (string * V)) k v :
  NoDup (dict.keys d) -> NoDup (dict.keys (dict.set k v d)).
Proof.
  intros Hnd. rewrite dict_keys_set. unfold dict.mem.
  destruct (dict.get k d) eqn:E; [exact Hnd|].
  apply NoDup_app. split; [exact Hnd|]. split; [|apply NoDup_singleton].
  intros x Hx Hk. apply list_elem_of_singleton in Hk. subst x.
  apply dict_get_None in E. apply E. now apply list_elem_of_In.
Qed.

Lemma dict_NoDup_del {V} (d : list (string * V)) k :
  NoDup (dict.keys d) -> NoDup (dict.keys (dict.del k d)).
Proof.
  induction d as [|[k' v'] d IH]; simpl; [tauto|].
  intros Hnd. apply NoDup_cons in Hnd. destruct Hnd as [Hk Hnd].
  destruct (String.eqb k' k); [exact Hnd|].
  simpl. apply NoDup_cons. split; [|now apply IH].
  intros Hin. apply Hk. apply list_elem_of_In.
  apply list_elem_of_In in Hin. eapply dict_keys_del_subset, Hin.
Qed.

Lemma dict_get_del_eq {V} (d : list (string * V)) k :
  NoDup (dict.keys d) -> dict.get k (dict.del k d) = None.
Proof.
  induction d as [|[k' v'] d IH]; simpl; [reflexivity|].
  intros Hnd. apply NoDup_cons in Hnd. destruct Hnd as [Hk Hnd].
  destruct (String.eqb_spec k' k) as [->|Hne].
  - apply dict_get_None. intros Hin. apply Hk. now apply list_elem_of_In.
  - simpl. destruct (String.eqb_spec k' k); [contradiction|]. now apply IH.
Qed.

(** ** The address book *)

Lemma add_record_run (s : store) (c : loc) (r : RecordObj) :
  heap s !! c = Some r ->
  AddressBook.add_record c s
  = (Ok tt, mkStore (heap s) (dict.set (value (name r)) c (data s))).
Proof.
  intros H. unfold AddressBook.add_record, bind.
  now rewrite (get_record_Some _ _ _ H).
Qed.

(** C7. In an address book whose dictionary holds each key once:
    [add_record(c)] followed by [find] of the name of [c] returns [c], a
    record of that name; [delete(n)] followed by [find(n)] returns [None];
    and adding a second record of the same name takes the place of the first
    one, so that [find] returns the second and no key is added. *)
Theorem add_find_delete (s : store) :
  NoDup (dict.keys (data s)) ->
  (forall c r, heap s !! c = Some r ->
     exists s1,
       AddressBook.add_record c s = (Ok tt, s1)
       /\ AddressBook.find (value (name r)) s1 = (Ok (Some c), s1)
       /\ heap s1 !! c = Some r)
  /\ (forall n,
        exists s1,
          AddressBook.delete n s = (Ok tt, s1)
          /\ AddressBook.find n s1 = (Ok None, s1))
  /\ (forall c1 c2 r1 r2,
        heap s !! c1 = Some r1 -> heap s !! c2 = Some r2 ->
        value (name r1) = value (name r2) ->
        exists s1 s2,
          AddressBook.add_record c1 s = (Ok tt, s1)
          /\ AddressBook.add_record c2 s1 = (Ok tt, s2)
          /\ AddressBook.find (value (name r1)) s2 = (Ok (Some c2), s2)
          /\ dict.keys (data s2) = dict.keys (data s1)).
Proof.
  intros Hnd. split; [|split].
  - intros c r Hr. eexists. split; [apply add_record_run, Hr|].
    split; [|exact Hr].
    unfold AddressBook.find, bind, get_data, ret. cbn [data].
    now rewrite dict_get_set_eq.
  - intros n. unfold AddressBook.delete, bind, get_data.
    destruct (dict.mem n (data s)) eqn:E.
    + eexists. split; [reflexivity|].
      unfold AddressBook.find, bind, get_data, ret. cbn [data].
      now rewrite dict_get_del_eq.
    + eexists. split; [reflexivity|].
      unfold AddressBook.find, bind, get_data, ret.
      unfold dict.mem in E. now destruct (dict.get n (data s)).
  - intros c1 c2 r1 r2 H1 H2 Hn. eexists. eexists.
    split; [apply add_record_run, H1|].
    split; [apply add_record_run; exact H2|].
    cbn [data]. rewrite <- Hn. split.
    + unfold AddressBook.find, bind, get_data, ret. cbn [data].
      now rewrite dict_get_set_eq.
    + rewrite (dict_keys_set (dict.set _ _ _)). unfold dict.mem.
      now rewrite dict_get_set_eq.
Qed.

(** ** Dates *)

Section Dates.

Import datetime.

Ltac bool_to_prop :=
  repeat match goal with
  | H : (_ =? _) = true |- _ => apply Z.eqb_eq in H
  | H : (_ =? _) = false |- _ => apply Z.eqb_neq in H
  | H : (_ <? _) = true |- _ => apply Z.ltb_lt in H
  | H : (_ <? _) = false |- _ => apply Z.ltb_ge in H
  | H : (_ <=? _) = true |- _ => apply Z.leb_le in H
  | H : (_ <=? _) = false |- _ => apply Z.leb_gt in H
  end.

Ltac split_ifs :=
  repeat match goal with
  | |- context [?a =? ?b] => destruct (a =? b) eqn:?; cbn [andb orb negb]
  | |- context [?a <? ?b] => destruct (a <? b) eqn:?; cbn [andb orb negb]
  | |- context [?a <=? ?b] => destruct (a <=? b) eqn:?; cbn [andb orb negb]
  end.

Ltac eval_lit :=
  repeat match goal with
  | |- context [table ?t (Z.pos ?p)] =>
      let v := eval cbv in (table t (Z.pos p)) in
      change (table t (Z.pos p)) with v
  | |- context [table ?t 0] =>
      let v := eval cbv in (table t 0) in change (table t 0) with v
  | |- context [Z.pos ?p - 1] =>
      let v := eval cbv in (Z.pos p - 1) in change (Z.pos p - 1) with v
  | |- context [Z.pos ?p <? Z.pos ?q] =>
      let v := eval cbv in (Z.pos p <? Z.pos q) in
      change (Z.pos p <? Z.pos q) with v
  | |- context [Z.pos ?p =? Z.pos ?q] =>
      let v := eval cbv in (Z.pos p =? Z.pos q) in
      change (Z.pos p =? Z.pos q) with v
  | |- context [0 =? Z.pos ?q] => change (0 =? Z.pos q) with false
  | |- context [0 <? Z.pos ?q] => change (0 <? Z.pos q) with true
  | |- context [Z.pos ?q <? 0] => change (Z.pos q <? 0) with false
  end; cbn [andb orb negb].

(** Going from an ordinal to a date and back gives the ordinal. *)
Lemma toordinal_fromordinal (n : Z) :
  1 <= n -> toordinal (fromordinal n) = n.
Proof.
  intros Hn. unfold fromordinal, _ord2ymd, toordinal, _ymd2ord.
  unfold _DI400Y, _DI100Y, _DI4Y.
  set (n0 := n - 1).
  set (n400 := n0 / 146097). set (r := n0 mod 146097).
  set (n100 := r / 36524). set (r1 := r mod 36524).
  set (n4 := r1 / 1461). set (r2 := r1 mod 1461).
  set (n1 := r2 / 365). set (r3 := r2 mod 365).
  assert (H0 : 0 <= n0) by (unfold n0; lia).
  assert (Hn0 : n = n0 + 1) by (unfold n0; lia).
  assert (Hr : 0 <= r < 146097) by (apply Z.mod_pos_bound; lia).
  assert (Hn400 : n0 = 146097 * n400 + r) by (apply Z.div_mod; lia).
  assert (Hr1 : 0 <= r1 < 36524) by (apply Z.mod_pos_bound; lia).
  assert (Hn100 : r = 36524 * n100 + r1) by (apply Z.div_mod; lia).
  assert (Hr2 : 0 <= r2 < 1461) by (apply Z.mod_pos_bound; lia).
  assert (Hn4 : r1 = 1461 * n4 + r2) by (apply Z.div_mod; lia).
  assert (Hr3 : 0 <= r3 < 365) by (apply Z.mod_pos_bound; lia).
  assert (Hn1 : r2 = 365 * n1 + r3) by (apply Z.div_mod; lia).
  assert (B400 : 0 <= n400) by lia.
  assert (B100 : 0 <= n100 <= 4) by lia.
  assert (B4 : 0 <= n4 <= 24) by lia.
  assert (B1 : 0 <= n1 <= 4) by lia.
  clearbody n400 r n100 r1 n4 r2 n1 r3. clearbody n0.
  rewrite Z.shiftr_div_pow2 by lia. change (2 ^ 5) with 32.
  set (m := (r3 + 50) / 32).
  assert (Hm : 32 * m <= r3 + 50 < 32 * m + 32).
  { unfold m. Z.to_euclidean_division_equations. lia. }
  clearbody m.
  set (leapyear := (n1 =? 3) && (negb (n4 =? 24) || (n100 =? 3))).
  destruct ((n1 =? 4) || (n100 =? 4)) eqn:Especial.
  - cbn [year month day]. unfold _days_before_month, _days_before_year, _is_leap.
    eval_lit.
    apply orb_true_iff in Especial. rewrite !Z.eqb_eq in Especial.
    split_ifs; bool_to_prop; Z.to_euclidean_division_equations; lia.
  - apply orb_false_iff in Especial. rewrite !Z.eqb_neq in Especial.
    set (Y := n400 * 400 + 1 + n100 * 100 + n4 * 4 + n1).
    assert (Hleap : _is_leap Y = leapyear).
    { unfold _is_leap, leapyear, Y.
      split_ifs; bool_to_prop; try reflexivity;
      exfalso; Z.to_euclidean_division_equations; lia. }
    assert (Hdby : _days_before_year Y = n0 - r3).
    { unfold _days_before_year, Y. Z.to_euclidean_division_equations; lia. }
    clearbody Y leapyear.
    assert (Hcases : m = 1 \/ m = 2 \/ m = 3 \/ m = 4 \/ m = 5 \/ m = 6
                     \/ m = 7 \/ m = 8 \/ m = 9 \/ m = 10 \/ m = 11
                     \/ m = 12) by lia.
    unfold _days_before_month. 
    repeat (destruct Hcases as [->|Hcases]); try subst m;
      eval_lit; destruct leapyear; cbn [andb];
      split_ifs; cbn [year month day] in *; rewrite ?Hleap, Hdby; eval_lit;
      bool_to_prop; lia.
Qed.

Lemma date_new_Ok (y m d : Z) (x : date) :
  date_new y m d = Ok x ->
  x = mkdate y m d
  /\ 1 <= y <= 9999 /\ 1 <= m <= 12 /\ 1 <= d <= _days_in_month y m.
Proof.
  unfold date_new, MINYEAR, MAXYEAR.
  destruct (negb _) eqn:E1; [discriminate|].
  destruct (negb ((1 <=? m) && _)) eqn:E2; [discriminate|].
  destruct (negb ((1 <=? d) && _)) eqn:E3; [discriminate|].
  intros [= <-].
  apply negb_false_iff, andb_true_iff in E1, E2, E3.
  rewrite !Z.leb_le in E1, E2, E3. tauto.
Qed.

Lemma date_new_valid (y m d : Z) :
  1 <= y <= 9999 -> 1 <= m <= 12 -> 1 <= d <= _days_in_month y m ->
  date_new y m d = Ok (mkdate y m d).
Proof.
  intros Hy Hm Hd. unfold date_new, MINYEAR, MAXYEAR.
  replace ((1 <=? y) && (y <=? 9999)) with true
    by (symmetry; apply andb_true_iff; rewrite !Z.leb_le; lia).
  replace ((1 <=? m) && (m <=? 12)) with true
    by (symmetry; apply andb_true_iff; rewrite !Z.leb_le; lia).
  replace ((1 <=? d) && (d <=? _days_in_month y m)) with true
    by (symmetry; apply andb_true_iff; rewrite !Z.leb_le; lia).
  reflexivity.
Qed.

Lemma replace_year_Ok (d x : date) (y : Z) :
  replace_year d y = Ok x -> x = mkdate y (month d) (day d) /\ date_ok x.
Proof.
  unfold replace_year. intros H. pose proof (date_new_Ok _ _ _ _ H) as [-> _].
  split; [reflexivity | exact H].
Qed.

Lemma days_before_year_succ (y : Z) :
  _days_before_year (y + 1)
  = _days_before_year y + 365 + (if _is_leap y then 1 else 0).
Proof.
  unfold _days_before_year, _is_leap.
  replace (y + 1 - 1) with y by lia.
  split_ifs; bool_to_prop; Z.to_euclidean_division_equations; lia.
Qed.

Lemma days_before_year_mono (y y' : Z) :
  y <= y' -> _days_before_year y <= _days_before_year y'.
Proof.
  unfold _days_before_year. intros H.
  Z.to_euclidean_division_equations. lia.
Qed.

(** A date lies within its year. *)
Lemma toordinal_within_year (d : date) :
  date_ok d ->
  _days_before_year (year d) < toordinal d
  <= _days_before_year (year d + 1).
Proof.
  unfold date_ok. intros H. apply date_new_Ok in H.
  destruct H as (_ & Hy & Hm & Hd).
  unfold toordinal, _ymd2ord. rewrite days_before_year_succ.
  revert Hd. unfold _days_before_month, _days_in_month.
  assert (Hc : month d = 1 \/ month d = 2 \/ month d = 3 \/ month d = 4
               \/ month d = 5 \/ month d = 6 \/ month d = 7 \/ month d = 8
               \/ month d = 9 \/ month d = 10 \/ month d = 11
               \/ month d = 12) by lia.
  repeat (destruct Hc as [->|Hc]); try rewrite Hc;
    eval_lit; destruct (_is_leap (year d)); cbn [andb]; eval_lit; lia.
Qed.

(** The ordinal of a date that passed the constructor is in range. *)
Lemma toordinal_range (d : date) :
  date_ok d -> 1 <= toordinal d <= _MAXORDINAL.
Proof.
  intros H. pose proof (toordinal_within_year d H) as Hw.
  apply date_new_Ok in H. destruct H as (_ & Hy & _).
  pose proof (days_before_year_mono 1 (year d) ltac:(lia)) as H1.
  pose proof (days_before_year_mono (year d + 1) 10000 ltac:(lia)) as H2.
  change (_days_before_year 1) with 0 in H1.
  change (_days_before_year 10000) with 3652059 in H2.
  unfold _MAXORDINAL. lia.
Qed.

(** A day of the month other than the 29th of February exists in every
    year. *)
Lemma days_in_month_any_year (y0 y m d : Z) :
  1 <= m <= 12 -> d <= _days_in_month y0 m -> ~ (m = 2 /\ d = 29) ->
  d <= _days_in_month y m.
Proof.
  unfold _days_in_month. intros Hm Hd Hno.
  destruct (m =? 2) eqn:E; cbn [andb]; [|exact Hd].
  apply Z.eqb_eq in E. subst m. revert Hd. eval_lit.
  destruct (_is_leap y0), (_is_leap y); lia.
Qed.

Lemma replace_year_returns (d : date) (y : Z) :
  date_ok d -> 1 <= y <= 9999 -> ~ (month d = 2 /\ day d = 29) ->
  replace_year d y = Ok (mkdate y (month d) (day d)).
Proof.
  intros Hd Hy Hno. apply date_new_Ok in Hd.
  destruct Hd as (_ & _ & Hm & Hday).
  apply date_new_valid; [exact Hy | exact Hm |].
  split; [lia|]. eapply days_in_month_any_year; [exact Hm | apply Hday | exact Hno].
Qed.

Lemma add_days_returns (d : date) (n : Z) :
  1 <= toordinal d + n <= _MAXORDINAL ->
  add_days d n = Ok (fromordinal (toordinal d + n)).
Proof.
  intros H. unfold add_days.
  replace ((0 <? toordinal d + n) && (toordinal d + n <=? _MAXORDINAL))
    with true; [reflexivity|].
  symmetry. apply andb_true_iff. rewrite Z.ltb_lt, Z.leb_le. lia.
Qed.

Lemma add_days_Ok (d x : date) (n : Z) :
  add_days d n = Ok x ->
  x = fromordinal (toordinal d + n) /\ 1 <= toordinal d + n.
Proof.
  unfold add_days.
  destruct ((0 <? toordinal d + n) && _) eqn:E; [|discriminate].
  intros [= <-]. apply andb_true_iff in E. rewrite Z.ltb_lt in E.
  split; [reflexivity | lia].
Qed.

(** The weekday of [today + (d - today)] is the weekday of [d]. *)
Lemma weekday_add_sub (today d x : date) :
  add_days today (toordinal d - toordinal today) = Ok x ->
  weekday x = weekday d.
Proof.
  intros H. apply add_days_Ok in H. destruct H as [-> H].
  unfold weekday. rewrite toordinal_fromordinal by exact H.
  f_equal. lia.
Qed.

End Dates.

(** ** The report *)

Section Report.

Import datetime.

Variable today : date.

Lemma anchored_replace (bd x : date) :
  (let? birthday_this_year := replace_year bd (year today) in
   if date_lt birthday_this_year today then
     replace_year birthday_this_year (year today + 1)
   else Ok birthday_this_year)%result = Ok x ->
  x = anchored today bd /\ date_ok x.
Proof.
  unfold rbind. destruct (replace_year bd (year today)) as [x1|] eqn:E1;
    [|discriminate].
  apply replace_year_Ok in E1. destruct E1 as [-> Hok1].
  unfold anchored.
  destruct (date_lt _ today).
  - intros H. apply replace_year_Ok in H. exact H.
  - intros [= <-]. split; [reflexivity|exact Hok1].
Qed.

(** What the body of the loop does with one record, when it does not
    raise. *)
Lemma report_record_Ok (acc acc' : list (string * list string))
    (r : RecordObj) :
  AddressBook.report_record today acc r = Ok acc' ->
  (birthday r = None /\ acc' = acc)
  \/ (exists b bd,
        birthday r = Some b /\ strptime_date (value b) = Ok bd
        /\ 7 <= deltaDays today bd /\ acc' = acc)
  \/ (exists b bd shifted,
        birthday r = Some b /\ strptime_date (value b) = Ok bd
        /\ deltaDays today bd < 7
        /\ add_days today (deltaDays today bd) = Ok shifted
        /\ acc' = file_entry acc (report_key shifted, value (name r))).
Proof.
  unfold AddressBook.report_record.
  destruct (birthday r) as [b|]; [|intros [= <-]; now left].
  destruct (strptime_date (value b)) as [bd|] eqn:Ebd; [|discriminate].
  cbn [rbind].
  match goal with
  | |- rbind ?m _ = _ -> _ => destruct m as [x1|] eqn:E1; [|discriminate]
  end.
  cbn [rbind].
  match goal with
  | |- rbind ?m _ = _ -> _ => destruct m as [x|] eqn:E2; [|discriminate]
  end.
  assert (Hx : x = anchored today bd).
  { apply anchored_replace. unfold rbind. rewrite E1. exact E2. }
  subst x. cbn [rbind].
  change (sub_days (anchored today bd) today) with (deltaDays today bd).
  destruct (deltaDays today bd <? 7) eqn:Ed.
  - apply Z.ltb_lt in Ed.
    destruct (add_days today (deltaDays today bd)) as [shifted|] eqn:Es;
      cbn [rbind]; [|discriminate].
    intros [= <-]. right. right.
    exists b, bd, shifted. repeat split; assumption.
  - apply Z.ltb_ge in Ed. intros [= <-]. right. left.
    exists b, bd. repeat split; assumption.
Qed.

Lemma report_loop_Ok (ls : list loc) (acc res : list (string * list string))
    (s s' : store) :
  AddressBook.report_loop today ls acc s = (Ok res, s') ->
  s' = s /\ exists es, filed today s ls es /\ res = fold_left file_entry es acc.
Proof.
  revert acc. induction ls as [|l ls IH]; intros acc.
  - cbn [AddressBook.report_loop]. unfold ret. intros [= <- <-].
    split; [reflexivity|]. exists []. split; [constructor|reflexivity].
  - cbn [AddressBook.report_loop]. unfold bind at 1. unfold get_record.
    destruct (heap s !! l) as [r|] eqn:Hr; [|discriminate].
    unfold bind at 1. unfold lift.
    destruct (AddressBook.report_record today acc r) as [acc1|] eqn:E;
      [|discriminate].
    intros H. apply IH in H. destruct H as (-> & es & Hes & ->).
    split; [reflexivity|].
    apply report_record_Ok in E.
    destruct E as [[Hb ->] | [(b & bd & Hb & Hp & Hd & ->)
                             | (b & bd & sh & Hb & Hp & Hd & Hs & ->)]].
    + exists es. split; [eapply filed_none; eassumption | reflexivity].
    + exists es. split; [eapply filed_late; eassumption | reflexivity].
    + eexists. split; [eapply filed_take; eassumption | reflexivity].
Qed.

Lemma get_birthdays_per_week_Ok (res : list (string * list string))
    (s s' : store) :
  AddressBook.get_birthdays_per_week today s = (Ok res, s') ->
  s' = s
  /\ exists es,
       filed today s (dict.values (data s)) es
       /\ res = fold_left file_entry es [].
Proof.
  unfold AddressBook.get_birthdays_per_week, bind, lift, get_data.
  destruct (add_days today 7); [|discriminate].
  apply report_loop_Ok.
Qed.

End Report.

(** *** Filing entries into the buckets *)

Lemma names_set_Some (k : string) (xs ys : list string)
    (acc : list (string * list string)) :
  dict.get k acc = Some xs ->
  Permutation (reported_names (dict.set k (xs ++ ys)%list acc))
    (ys ++ reported_names acc).
Proof.
  unfold reported_names.
  induction acc as [|[k' v'] acc IH]; cbn [dict.get dict.set]; [discriminate|].
  destruct (String.eqb k' k).
  - intros [= ->]. cbn [map snd concat]. rewrite <- app_assoc.
    rewrite (app_assoc ys). rewrite (Permutation_app_comm ys xs).
    now rewrite <- app_assoc.
  - intros H. cbn [map snd concat]. rewrite (IH H).
    rewrite !app_assoc. now rewrite (Permutation_app_comm v' ys).
Qed.

Lemma names_set_None (k : string) (v : list string)
    (acc : list (string * list string)) :
  dict.get k acc = None ->
  reported_names (dict.set k v acc) = (reported_names acc ++ v)%list.
Proof.
  unfold reported_names.
  induction acc as [|[k' v'] acc IH]; cbn [dict.get dict.set].
  - intros _. cbn. now rewrite app_nil_r.
  - destruct (String.eqb k' k); [discriminate|].
    intros H. cbn [map snd concat]. rewrite (IH H). now rewrite app_assoc.
Qed.

Lemma names_file_entry (acc : list (string * list string))
    (e : string * string) :
  Permutation (reported_names (file_entry acc e)) (snd e :: reported_names acc).
Proof.
  unfold file_entry, dict.append_at.
  destruct (dict.get (fst e) acc) as [xs|] eqn:E.
  - now rewrite (names_set_Some _ _ _ _ E).
  - rewrite (names_set_None _ _ _ E). cbn [app].
    now rewrite Permutation_app_comm.
Qed.

Lemma names_fold_file (es : list (string * string))
    (acc : list (string * list string)) :
  Permutation (reported_names (fold_left file_entry es acc))
    (map snd es ++ reported_names acc).
Proof.
  revert acc. induction es as [|e es IH]; intros acc; [reflexivity|].
  cbn [fold_left map]. rewrite IH, names_file_entry.
  symmetry. apply Permutation_middle.
Qed.

Lemma keys_file_entry (acc : list (string * list string))
    (e : string * string) (k : string) :
  In k (dict.keys (file_entry acc e)) -> k = fst e \/ In k (dict.keys acc).
Proof.
  unfold file_entry, dict.append_at.
  destruct (dict.get (fst e) acc) as [xs|] eqn:E;
    rewrite dict_keys_set; unfold dict.mem; rewrite E; [tauto|].
  rewrite in_app_iff. cbn. intuition.
Qed.

Lemma keys_fold_file (es : list (string * string))
    (acc : list (string * list string)) (k : string) :
  In k (dict.keys (fold_left file_entry es acc)) ->
  In k (map fst es) \/ In k (dict.keys acc).
Proof.
  revert acc. induction es as [|e es IH]; intros acc; [now right|].
  cbn [fold_left map]. intros H. apply IH in H. destruct H as [H|H].
  - left. now right.
  - apply keys_file_entry in H. destruct H as [->|H]; [left; now left|].
    now right.
Qed.

Lemma bucket_file_entry_eq (acc : list (string * list string))
    (k x : string) :
  bucket k (file_entry acc (k, x)) = (bucket k acc ++ [x])%list.
Proof.
  unfold bucket, file_entry, dict.append_at. cbn [fst snd].
  destruct (dict.get k acc) as [xs|]; now rewrite dict_get_set_eq.
Qed.

Lemma bucket_file_entry_ne (acc : list (string * list string))
    (k k' x : string) :
  k' <> k -> bucket k' (file_entry acc (k, x)) = bucket k' acc.
Proof.
  intros Hne. unfold bucket, file_entry, dict.append_at. cbn [fst snd].
  destruct (dict.get k acc) as [xs|]; now rewrite dict_get_set_ne.
Qed.

Lemma bucket_file_entry_mono (acc : list (string * list string))
    (e : string * string) (k n : string) :
  In n (bucket k acc) -> In n (bucket k (file_entry acc e)).
Proof.
  destruct e as [k' x]. destruct (string_dec k k') as [->|Hne].
  - rewrite bucket_file_entry_eq, in_app_iff. tauto.
  - now rewrite bucket_file_entry_ne.
Qed.

Lemma bucket_fold_file_mono (es : list (string * string))
    (acc : list (string * list string)) (k n : string) :
  In n (bucket k acc) -> In n (bucket k (fold_left file_entry es acc)).
Proof.
  revert acc. induction es as [|e es IH]; intros acc H; [exact H|].
  cbn [fold_left]. apply IH. now apply bucket_file_entry_mono.
Qed.

Lemma bucket_fold_file (es : list (string * string))
    (acc : list (string * list string)) (k n : string) :
  In (k, n) es -> In n (bucket k (fold_left file_entry es acc)).
Proof.
  revert acc. induction es as [|e es IH]; intros acc; [intros []|].
  intros [->|Hin]; cbn [fold_left].
  - apply bucket_fold_file_mono. rewrite bucket_file_entry_eq, in_app_iff.
    right. now left.
  - now apply IH.
Qed.

(** *** What the report files *)

Section Filed.

Import datetime.

Variables (today : date) (s : store).

Lemma filed_sound (ls : list loc) (es : list (string * string))
    (k n : string) :
  filed today s ls es -> In (k, n) es ->
  exists l r b bd shifted,
    In l ls /\ heap s !! l = Some r /\ value (name r) = n
    /\ birthday r = Some b /\ strptime_date (value b) = Ok bd
    /\ deltaDays today bd < 7
    /\ add_days today (deltaDays today bd) = Ok shifted
    /\ k = report_key shifted.
Proof.
  induction 1 as [| l r ls es Hr Hb _ IH | l r b bd ls es Hr Hb Hp Hd _ IH
                 | l r b bd sh ls es Hr Hb Hp Hd Hs _ IH]; intros Hin.
  - destruct Hin.
  - destruct (IH Hin) as (l' & r' & b' & bd' & sh' & Hl & H).
    exists l', r', b', bd', sh'. split; [now right | exact H].
  - destruct (IH Hin) as (l' & r' & b' & bd' & sh' & Hl & H).
    exists l', r', b', bd', sh'. split; [now right | exact H].
  - destruct Hin as [[= <- <-]|Hin].
    + exists l, r, b, bd, sh. repeat split; try assumption. now left.
    + destruct (IH Hin) as (l' & r' & b' & bd' & sh' & Hl & H).
      exists l', r', b', bd', sh'. split; [now right | exact H].
Qed.

Lemma filed_complete (ls : list loc) (es : list (string * string))
    (l : loc) (r : RecordObj) (b : Field) :
  filed today s ls es -> In l ls ->
  heap s !! l = Some r -> birthday r = Some b ->
  exists bd,
    strptime_date (value b) = Ok bd
    /\ (deltaDays today bd < 7 ->
        exists shifted,
          add_days today (deltaDays today bd) = Ok shifted
          /\ In (report_key shifted, value (name r)) es).
Proof.
  intros Hf Hin Hr Hb.
  induction Hf as [| l0 r0 ls es Hr0 Hb0 _ IH
                   | l0 r0 b0 bd0 ls es Hr0 Hb0 Hp0 Hd0 _ IH
                   | l0 r0 b0 bd0 sh0 ls es Hr0 Hb0 Hp0 Hd0 Hs0 _ IH].
  - destruct Hin.
  - destruct Hin as [->|Hin]; [congruence | now apply IH].
  - destruct Hin as [->|Hin]; [|now apply IH].
    assert (r0 = r) by congruence. subst r0.
    assert (b0 = b) by congruence. subst b0.
    exists bd0. split; [exact Hp0 | lia].
  - destruct Hin as [->|Hin].
    + assert (r0 = r) by congruence. subst r0.
      assert (b0 = b) by congruence. subst b0.
      exists bd0. split; [exact Hp0|]. intros _. exists sh0.
      split; [exact Hs0 | now left].
    + destruct (IH Hin) as (bd & Hp & H). exists bd. split; [exact Hp|].
      intros Hd. destruct (H Hd) as (sh & Hs & Hi). exists sh.
      split; [exact Hs | now right].
Qed.

Lemma filed_sublist (ls : list loc) (es : list (string * string)) :
  filed today s ls es -> sublist (map snd es) (map (name_at s) ls).
Proof.
  induction 1 as [| l r ls es Hr Hb _ IH | l r b bd ls es Hr Hb Hp Hd _ IH
                 | l r b bd sh ls es Hr Hb Hp Hd Hs _ IH]; cbn [map].
  - constructor.
  - now apply sublist_cons.
  - now apply sublist_cons.
  - cbn [snd]. unfold name_at at 1. rewrite Hr. now apply sublist_skip.
Qed.

Lemma wf_names :
  store_wf s ->
  map (name_at s) (dict.values (data s)) = dict.keys (data s).
Proof.
  intros [_ Hwf]. unfold dict.values, dict.keys.
  induction (data s) as [|[k l] d IH]; [reflexivity|].
  cbn [map fst snd]. f_equal.
  - destruct (Hwf k l (or_introl eq_refl)) as (r & Hr & Hn).
    unfold name_at. now rewrite Hr.
  - apply IH. intros k' l' Hin. apply Hwf. now right.
Qed.

Lemma wf_same_record (k : string) (l l' : loc) (r r' : RecordObj) :
  store_wf s ->
  In (k, l) (data s) -> heap s !! l = Some r ->
  In l' (dict.values (data s)) -> heap s !! l' = Some r' ->
  value (name r') = value (name r) ->
  l' = l /\ r' = r.
Proof.
  intros [Hnd Hwf] Hin Hr Hin' Hr' Hn.
  unfold dict.values in Hin'. apply in_map_iff in Hin'.
  destruct Hin' as ([k' l''] & Hl & Hin'). cbn in Hl. subst l''.
  destruct (Hwf _ _ Hin) as (r0 & Hr0 & Hk).
  destruct (Hwf _ _ Hin') as (r0' & Hr0' & Hk').
  assert (k' = k) by congruence. subst k'.
  pose proof (dict_In_get _ _ _ Hnd Hin) as G.
  pose proof (dict_In_get _ _ _ Hnd Hin') as G'.
  assert (l' = l) by congruence. subst l'. split; [reflexivity|congruence].
Qed.

End Filed.

(** A date the parser returns passed the constructor of [date]. *)
Lemma strptime_date_ok (v : string) (bd : datetime.date) :
  strptime_date v = Ok bd -> date_ok bd.
Proof.
  unfold strptime_date, _strptime._strptime.
  destruct (_strptime.re_match _ _) as [[groups rest]|]; [|discriminate].
  destruct (negb _); [discriminate|].
  destruct groups as [|d [|mo [|y [|]]]]; try discriminate.
  unfold rbind.
  destruct (_strptime.int d); [|discriminate].
  destruct (_strptime.int mo); [|discriminate].
  destruct (_strptime.int y); [|discriminate].
  intros H. unfold date_ok.
  pose proof (date_new_Ok _ _ _ _ H) as [-> _]. exact H.
Qed.

Section ReportReturns.

Import datetime.

Variables (today : date) (s : store).
Hypothesis today_ok : date_ok today.
Hypothesis today_year : year today < 9999.

Lemma today_year_pos : 1 <= year today.
Proof using today_ok.
  apply date_new_Ok in today_ok. lia.
Qed.

Lemma anchored_ok (bd : date) :
  date_ok bd -> ~ (month bd = 2 /\ day bd = 29) ->
  date_ok (anchored today bd)
  /\ (let? birthday_this_year := replace_year bd (year today) in
      if date_lt birthday_this_year today then
        replace_year birthday_this_year (year today + 1)
      else Ok birthday_this_year)%result = Ok (anchored today bd).
Proof using today_ok today_year.
  intros Hbd Hno. pose proof today_year_pos as Hy.
  assert (H1 : replace_year bd (year today)
               = Ok (mkdate (year today) (month bd) (day bd)))
    by (apply replace_year_returns; [exact Hbd | lia | exact Hno]).
  rewrite H1. cbn [rbind]. unfold anchored.
  destruct (date_lt _ today).
  - assert (H2 : replace_year (mkdate (year today) (month bd) (day bd))
                   (year today + 1)
                 = Ok (mkdate (year today + 1) (month bd) (day bd))).
    { apply (replace_year_returns
               (mkdate (year today) (month bd) (day bd)) (year today + 1));
        [|lia|exact Hno].
      apply replace_year_Ok in H1. tauto. }
    split; [|exact H2]. apply replace_year_Ok in H2. tauto.
  - split; [|reflexivity]. apply replace_year_Ok in H1. tauto.
Qed.

Lemma report_record_returns (acc : list (string * list string))
    (r : RecordObj) :
  (forall b, birthday r = Some b ->
     exists bd, strptime_date (value b) = Ok bd
                /\ ~ (month bd = 2 /\ day bd = 29)) ->
  exists acc', AddressBook.report_record today acc r = Ok acc'.
Proof using today_ok today_year.
  intros H. unfold AddressBook.report_record.
  destruct (birthday r) as [b|]; [|eauto].
  destruct (H b eq_refl) as (bd & Hp & Hno). rewrite Hp. cbn [rbind].
  destruct (anchored_ok bd (strptime_date_ok _ _ Hp) Hno) as [Hok Ha].
  unfold rbind in Ha.
  destruct (replace_year bd (year today)) as [x1|]; [|discriminate].
  cbn [rbind]. rewrite Ha. cbn [rbind].
  destruct (_ <? 7); [|eauto].
  rewrite add_days_returns; [cbn [rbind]; eauto|].
  unfold sub_days.
  replace (toordinal today + (toordinal (anchored today bd) - toordinal today))
    with (toordinal (anchored today bd)) by lia.
  now apply toordinal_range.
Qed.

Lemma report_loop_returns (ls : list loc) (acc : list (string * list string)) :
  (forall l, In l ls ->
     exists r, heap s !! l = Some r
       /\ forall b, birthday r = Some b ->
            exists bd, strptime_date (value b) = Ok bd
                       /\ ~ (month bd = 2 /\ day bd = 29)) ->
  exists res, AddressBook.report_loop today ls acc s = (Ok res, s).
Proof using today_ok today_year.
  revert acc. induction ls as [|l ls IH]; intros acc H.
  - exists acc. reflexivity.
  - destruct (H l (or_introl eq_refl)) as (r & Hr & Hb).
    cbn [AddressBook.report_loop]. unfold bind at 1.
    rewrite (get_record_Some _ _ _ Hr). unfold bind at 1. unfold lift.
    destruct (report_record_returns acc r Hb) as [acc' ->].
    apply IH. intros l' Hl'. apply H. now right.
Qed.

(** Before the year 9999 and without a birthday on the 29th of February in
    the address book, the report returns. *)
Lemma get_birthdays_per_week_returns :
  store_wf s -> birthdays_parse s -> no_leap_day s ->
  exists res, AddressBook.get_birthdays_per_week today s = (Ok res, s).
Proof using today_ok today_year.
  intros [_ Hwf] Hparse Hno.
  unfold AddressBook.get_birthdays_per_week, bind at 1. unfold lift.
  rewrite add_days_returns.
  2:{ pose proof (toordinal_within_year today today_ok) as Hw.
      pose proof (toordinal_range today today_ok) as Hr.
      pose proof (days_before_year_mono (year today + 1) 9999 ltac:(lia)) as Hm.
      change (_days_before_year 9999) with 3651694 in Hm.
      unfold _MAXORDINAL in *. lia. }
  unfold bind, get_data. apply report_loop_returns.
  intros l Hl. unfold dict.values in Hl. apply in_map_iff in Hl.
  destruct Hl as ([k l'] & El & Hin). cbn in El. subst l'.
  destruct (Hwf k l Hin) as (r & Hr & Hn). exists r. split; [exact Hr|].
  intros b Hb. destruct (Hparse l r b Hr Hb) as [bd Hp]. exists bd.
  split; [exact Hp|]. exact (Hno k l r b bd Hin Hr Hb Hp).
Qed.

End ReportReturns.

(** ** Stores a program reaches *)

Lemma store_inv_with_record (s : store) (l : loc) (r r' : RecordObj) :
  store_inv s -> heap s !! l = Some r ->
  name r' = name r ->
  (forall b, birthday r' = Some b -> exists d, strptime_date (value b) = Ok d) ->
  store_inv (with_record s l r').
Proof.
  intros [[Hnd Hwf] Hp] Hr Hn Hb. split; [split|].
  - exact Hnd.
  - intros k l0 Hin. cbn [with_record data] in Hin.
    destruct (Hwf k l0 Hin) as (r0 & Hr0 & Hk).
    destruct (Nat.eq_dec l l0) as [<-|Hne].
    + exists r'. split; [eapply with_record_lookup; eassumption|].
      rewrite Hn. congruence.
    + exists r0. split; [|exact Hk]. cbn [with_record heap].
      now rewrite list_lookup_insert_ne.
  - intros l0 r0 b. cbn [with_record heap].
    destruct (Nat.eq_dec l l0) as [<-|Hne].
    + rewrite list_lookup_insert_eq by (now apply lookup_lt_Some in Hr).
      intros [= <-]. apply Hb.
    + rewrite list_lookup_insert_ne by exact Hne. apply Hp.
Qed.

Lemma store_inv_alloc (s : store) (r : RecordObj) :
  store_inv s -> birthday r = None ->
  store_inv (mkStore (heap s ++ [r]) (data s)).
Proof.
  intros [[Hnd Hwf] Hp] Hb. split; [split|].
  - exact Hnd.
  - intros k l Hin. destruct (Hwf k l Hin) as (r0 & Hr0 & Hk).
    exists r0. split; [|exact Hk]. cbn [heap].
    now apply lookup_app_l_Some.
  - intros l r0 b. cbn [heap]. rewrite lookup_app.
    destruct (heap s !! l) as [r1|] eqn:E.
    + intros [= <-]. now apply (Hp l).
    + destruct (l - List.length (heap s))%nat as [|n]; cbn.
      * intros [= <-]. congruence.
      * discriminate.
Qed.

Lemma store_inv_edit_phone_loop (self : loc) (old_phone new_phone : string)
    (n i : nat) (s : store) :
  store_inv s ->
  store_inv
    (store_after (Record_.edit_phone_loop self old_phone new_phone i n) s).
Proof.
  revert i s. induction n as [|n IH]; intros i s Hs; [exact Hs|].
  unfold store_after in *. cbn [Record_.edit_phone_loop].
  unfold bind at 1. unfold get_record at 1.
  destruct (heap s !! self) as [r|] eqn:Hr; [|exact Hs].
  destruct (phones r !! i) as [p|]; [|exact Hs].
  unfold bind at 1.
  destruct (String.eqb (value p) old_phone).
  - destruct (negb (Str.len new_phone =? 10)); [exact Hs|].
    unfold Record_.set_phone_value, bind at 1.
    rewrite (get_record_Some _ _ _ Hr). unfold set_record.
    apply IH. eapply (store_inv_with_record s self r); [exact Hs|exact Hr| |].
    + reflexivity.
    + cbn [birthday]. intros b Hb. destruct Hs as [_ Hp]. eapply Hp; eassumption.
  - apply IH. exact Hs.
Qed.

Lemma store_inv_exec (c : call) (s : store) :
  store_inv s -> store_inv (exec c s).
Proof.
  intros Hs. pose proof Hs as [[Hnd Hwf] Hp].
  destruct c as [n | l p | l p | l o n | l b | l | n | n];
    unfold exec, store_after.
  - unfold Record_.__init__, bind, lift.
    destruct (Name n) as [f|]; [|exact Hs].
    unfold alloc. cbn [snd]. now apply store_inv_alloc.
  - unfold Record_.add_phone, bind, lift.
    destruct (Phone p) as [f|]; [|exact Hs].
    unfold get_record. destruct (heap s !! l) as [r|] eqn:Hr; [|exact Hs].
    unfold set_record. cbn [snd].
    eapply (store_inv_with_record s l r); [exact Hs|exact Hr|reflexivity|].
    cbn [birthday]. intros b Hb. eapply Hp; eassumption.
  - unfold Record_.remove_phone, bind, get_record.
    destruct (heap s !! l) as [r|] eqn:Hr; [|exact Hs].
    unfold set_record. cbn [snd].
    eapply (store_inv_with_record s l r); [exact Hs|exact Hr|reflexivity|].
    cbn [birthday]. intros b Hb. eapply Hp; eassumption.
  - unfold Record_.edit_phone, bind, get_record.
    destruct (heap s !! l) as [r|] eqn:Hr; [|exact Hs].
    now apply store_inv_edit_phone_loop.
  - unfold Record_.add_birthday, bind, lift.
    destruct (Birthday b) as [f|] eqn:Eb; [|exact Hs].
    unfold get_record. destruct (heap s !! l) as [r|] eqn:Hr; [|exact Hs].
    unfold set_record. cbn [snd].
    eapply (store_inv_with_record s l r); [exact Hs|exact Hr|reflexivity|].
    cbn [birthday]. intros b' [= <-]. unfold Birthday in Eb.
    destruct (strptime_date b) as [d|[m|m]] eqn:Ed; try discriminate.
    inversion Eb; subst. cbn [value]. eauto.
  - unfold AddressBook.add_record, bind, get_record.
    destruct (heap s !! l) as [r|] eqn:Hr; [|exact Hs].
    unfold get_data, set_data. cbn [snd]. split; [split|exact Hp]; cbn [data heap].
    + now apply dict_NoDup_set.
    + intros k l0 Hin. apply dict_In_set in Hin; [|exact Hnd].
      destruct Hin as [[-> ->]|[_ Hin]]; [eauto | now apply Hwf].
  - exact Hs.
  - unfold AddressBook.delete, bind, get_data.
    destruct (dict.mem n (data s)); [|exact Hs].
    unfold set_data. cbn [snd]. split; [split|exact Hp]; cbn [data heap].
    + now apply dict_NoDup_del.
    + intros k l Hin. apply dict_In_del in Hin. now apply Hwf.
Qed.

(** In every store a program reaches, each key of the address book is there
    once and is the name of its record, and every birthday parses. *)
Lemma reachable_inv (s : store) : reachable s -> store_inv s.
Proof.
  intros [calls ->].
  assert (H0 : store_inv empty_store).
  { split; [split|].
    - constructor.
    - intros k l [].
    - intros l r b H. cbn in H. rewrite lookup_nil in H. discriminate. }
  revert H0. generalize empty_store.
  induction calls as [|c calls IH]; intros s0 H0; [exact H0|].
  cbn [fold_left]. apply IH. now apply store_inv_exec.
Qed.

Lemma june_store_reachable : reachable june_store.
Proof. exists june_calls. reflexivity. Qed.

(** ** The birthdays of the week *)

Section Week.

Import datetime.

(** X26. In an address book that holds each key once, under the name of its
    record: when the report returns, a contact with a birthday is in it
    exactly when the whole-day difference [deltaDays] between the birthday
    anchored to this year, or to the next year if it is then strictly before
    today, and today is below 7; a birthday 7 days away is left out. And
    the report does return when today is before the year 9999 and no birthday
    of the book is a 29th of February. *)
Theorem report_window (today : date) (s : store) :
  store_wf s ->
  (forall res s',
     AddressBook.get_birthdays_per_week today s = (Ok res, s') ->
     forall k l r b,
       In (k, l) (data s) -> heap s !! l = Some r -> birthday r = Some b ->
       exists bd,
         strptime_date (value b) = Ok bd
         /\ (reported (value (name r)) res <-> deltaDays today bd < 7)
         /\ (deltaDays today bd = 7 -> ~ reported (value (name r)) res))
  /\ (date_ok today -> year today < 9999 ->
      birthdays_parse s -> no_leap_day s ->
      exists res, AddressBook.get_birthdays_per_week today s = (Ok res, s)).
Proof.
  intros Hwf. split.
  - intros res s' Hrun k l r b Hin Hr Hb.
    apply get_birthdays_per_week_Ok in Hrun.
    destruct Hrun as (_ & es & Hf & ->).
    assert (Hl : In l (dict.values (data s))).
    { unfold dict.values. change l with (snd (k, l)). now apply in_map. }
    destruct (filed_complete today s _ _ l r b Hf Hl Hr Hb) as (bd & Hp & Hc).
    exists bd. split; [exact Hp|].
    assert (Hiff : reported (value (name r)) (fold_left file_entry es [])
                   <-> deltaDays today bd < 7).
    { unfold reported. split.
      - intros Hrep.
        apply (Permutation_in _ (names_fold_file es [])) in Hrep.
        cbn [reported_names map concat] in Hrep. rewrite app_nil_r in Hrep.
        apply in_map_iff in Hrep. destruct Hrep as ([k0 n0] & Hn & Hin0).
        cbn [snd] in Hn. subst n0.
        destruct (filed_sound today s _ _ _ _ Hf Hin0)
          as (l' & r' & b' & bd' & sh & Hl' & Hr' & Hn' & Hb' & Hp' & Hd' & _).
        destruct (wf_same_record s k l l' r r' Hwf Hin Hr Hl' Hr' Hn')
          as [-> ->].
        assert (b' = b) by congruence. subst b'.
        assert (bd' = bd) by congruence. now subst bd'.
      - intros Hd. destruct (Hc Hd) as (sh & _ & Hin0).
        apply (Permutation_in _ (Permutation_sym (names_fold_file es []))).
        apply in_or_app. left.
        change (value (name r)) with (snd (report_key sh, value (name r))).
        now apply in_map. }
    split; [exact Hiff|]. intros H7 Hrep. apply Hiff in Hrep. lia.
  - intros Hok Hy Hp Hno.
    now apply (get_birthdays_per_week_returns today s Hok Hy).
Qed.

(** C3. When the report returns, a contact in the window whose anchored
    birthday is a Saturday or a Sunday is in the bucket of Monday, and no
    bucket is named Saturday or Sunday. *)
Theorem weekend_filed_under_Monday (today : date) (s s' : store)
    (res : list (string * list string)) :
  AddressBook.get_birthdays_per_week today s = (Ok res, s') ->
  (forall k l r b bd,
     In (k, l) (data s) -> heap s !! l = Some r -> birthday r = Some b ->
     strptime_date (value b) = Ok bd ->
     deltaDays today bd < 7 ->
     weekday (anchored today bd) = Saturday
     \/ weekday (anchored today bd) = Sunday ->
     In (value (name r)) (bucket "Monday" res))
  /\ (forall day_ names,
        In (day_, names) res -> day_ <> "Saturday" /\ day_ <> "Sunday").
Proof.
  intros Hrun. apply get_birthdays_per_week_Ok in Hrun.
  destruct Hrun as (_ & es & Hf & ->). split.
  - intros k l r b bd Hin Hr Hb Hp Hd Hw.
    assert (Hl : In l (dict.values (data s))).
    { unfold dict.values. change l with (snd (k, l)). now apply in_map. }
    destruct (filed_complete today s _ _ l r b Hf Hl Hr Hb) as (bd' & Hp' & Hc).
    assert (bd' = bd) by congruence. subst bd'.
    destruct (Hc Hd) as (sh & Hs & Hin0).
    assert (Hkey : report_key sh = "Monday").
    { unfold report_key, strftime_A.
      rewrite (weekday_add_sub today (anchored today bd) sh Hs).
      unfold Saturday, Sunday in Hw. destruct Hw as [-> | ->]; reflexivity. }
    rewrite Hkey in Hin0. now apply bucket_fold_file.
  - intros day_ names Hin.
    assert (Hk : In day_ (dict.keys (fold_left file_entry es []))).
    { unfold dict.keys. change day_ with (fst (day_, names)). now apply in_map. }
    apply keys_fold_file in Hk. destruct Hk as [Hk|[]].
    apply in_map_iff in Hk. destruct Hk as ([k0 n0] & Hk & Hin0).
    cbn [fst] in Hk. subst k0.
    destruct (filed_sound today s _ _ _ _ Hf Hin0)
      as (_ & _ & _ & _ & sh & _ & _ & _ & _ & _ & _ & _ & ->).
    unfold report_key, AddressBook.in_list. cbn [existsb].
    destruct (String.eqb_spec (strftime_A sh) "Saturday") as [E1|N1];
      [cbn [orb]; split; discriminate|].
    destruct (String.eqb_spec (strftime_A sh) "Sunday") as [E2|N2];
      [cbn [orb]; split; discriminate|].
    cbn [orb]. split; assumption.
Qed.

(** C10. In an address book that holds each key once, under the name of its
    record, no name is twice in a report, be it in one bucket or in two. *)
Theorem names_reported_once (today : date) (s s' : store)
    (res : list (string * list string)) :
  store_wf s ->
  AddressBook.get_birthdays_per_week today s = (Ok res, s') ->
  NoDup (reported_names res).
Proof.
  intros Hwf Hrun. apply get_birthdays_per_week_Ok in Hrun.
  destruct Hrun as (_ & es & Hf & ->).
  rewrite names_fold_file. cbn [reported_names map concat].
  rewrite app_nil_r.
  apply (sublist_NoDup _ (map (name_at s) (dict.values (data s)))).
  - rewrite (wf_names s Hwf). apply Hwf.
  - now apply (filed_sublist today).
Qed.

End Week.

(** ** Scenarios *)

Lemma june_store_wf : store_wf june_store.
Proof. apply reachable_inv, june_store_reachable. Qed.

(** Today is Monday 10 June 2024: Ann (12 June) is filed under Wednesday, Bo
    (Sunday 16 June) under Monday, Cy (17 June, 7 days away) is left out. *)
Example report_on_june_10 :
  AddressBook.get_birthdays_per_week june_10 june_store
  = (Ok [("Wednesday", ["Ann"]); ("Monday", ["Bo"])], june_store).
Proof. vm_compute. reflexivity. Qed.

(** Today is 31 December 2024: the birthday of 2 January has passed this
    year and is anchored to 2025, 2 days away, a Thursday. *)
Example report_on_december_31 :
  AddressBook.get_birthdays_per_week (datetime.mkdate 2024 12 31) january_store
  = (Ok [("Thursday", ["Di"])], january_store).
Proof. vm_compute. reflexivity. Qed.

(** A birthday on the 29th of February cannot be moved to a year that is not
    a leap year: the report raises. *)
Example report_with_leap_day :
  exists msg,
    AddressBook.get_birthdays_per_week (datetime.mkdate 2023 6 10) leap_store
    = (Raise (ValueError msg), leap_store).
Proof. eexists. vm_compute. reflexivity. Qed.

(** C2, where the code breaks it. The book of Ann, born on a 12th of June,
    and Eve, born on a 29th of February, is one that calls to the classes
    make. On 10 June 2023 the birthday of Ann, anchored to 12 June 2023, is
    2 days away, below 7: C2 has her in the report. The code raises
    [ValueError] when it moves the birthday of Eve to 2023, a year without a
    29th of February; it returns no report, so Ann is in none. Typed into
    [main], the same book and the command [birthdays] end the program with
    that [ValueError]. *)
Theorem report_lost_to_a_leap_day :
  reachable ann_eve_store
  /\ In ("Ann", 0%nat) (data ann_eve_store)
  /\ heap ann_eve_store !! 0%nat
     = Some (mkRecord (mkField "Ann") [] (Some (mkField "12.06.2000")))
  /\ strptime_date "12.06.2000" = Ok (datetime.mkdate 2000 6 12)
  /\ anchored june_10_2023 (datetime.mkdate 2000 6 12)
     = datetime.mkdate 2023 6 12
  /\ deltaDays june_10_2023 (datetime.mkdate 2000 6 12) = 2
  /\ (exists msg,
        AddressBook.get_birthdays_per_week june_10_2023 ann_eve_store
        = (Raise (ValueError msg), ann_eve_store))
  /\ (forall res s',
        AddressBook.get_birthdays_per_week june_10_2023 ann_eve_store
        <> (Ok res, s'))
  /\ (exists msg,
        (Bot.main [("add Ann 0123456789", june_10_2023);
                   ("add-birthday Ann 12.06.2000", june_10_2023);
                   ("add Eve 0123456780", june_10_2023);
                   ("add-birthday Eve 29.02.2020", june_10_2023);
                   ("birthdays", june_10_2023)]).1.2
        = Bot.Uncaught (Core (ValueError msg))).
Proof.
  assert (Hrun : exists msg,
             AddressBook.get_birthdays_per_week june_10_2023 ann_eve_store
             = (Raise (ValueError msg), ann_eve_store))
    by (eexists; vm_compute; reflexivity).
  split; [exists ann_eve_calls; reflexivity|].
  split; [left; reflexivity|].
  split; [reflexivity|].
  split; [vm_compute; reflexivity|].
  split; [vm_compute; reflexivity|].
  split; [vm_compute; reflexivity|].
  split; [exact Hrun|].
  split; [|eexists; vm_compute; reflexivity].
  intros res s' E. destruct Hrun as [msg Hrun]. rewrite Hrun in E.
  discriminate.
Qed.

Lemma add_find_delete_witness :
  (exists s1,
     AddressBook.add_record 0%nat twice_store = (Ok tt, s1)
     /\ AddressBook.find "Bo" s1 = (Ok (Some 0%nat), s1)
     /\ heap s1 !! 0%nat
        = Some (mkRecord (mkField "Bo")
                  [mkField "0123456789"; mkField "0123456789"] None))
  /\ exists s1,
       AddressBook.delete "Bo" twice_store = (Ok tt, s1)
       /\ AddressBook.find "Bo" s1 = (Ok None, s1).
Proof.
  destruct (add_find_delete twice_store (NoDup_singleton "Bo")) as (A & B & _).
  split; [exact (A 0%nat _ eq_refl) | exact (B "Bo")].
Defined.

Lemma report_window_witness :
  (exists res,
     AddressBook.get_birthdays_per_week june_10 june_store
     = (Ok res, june_store)
     /\ reported "Bo" res /\ ~ reported "Cy" res)
  /\ exists res,
       AddressBook.get_birthdays_per_week june_10 june_store
       = (Ok res, june_store).
Proof.
  destruct (report_window june_10 june_store june_store_wf) as [A B].
  split.
  - eexists. split; [exact report_on_june_10|].
    split.
    + destruct (A _ _ report_on_june_10 "Bo" 1%nat _ _
                  (or_intror (or_introl eq_refl)) eq_refl eq_refl)
        as (bd & Hp & Hiff & _).
      vm_compute in Hp. injection Hp as <-. apply Hiff. reflexivity.
    + destruct (A _ _ report_on_june_10 "Cy" 2%nat _ _
                  (or_intror (or_intror (or_introl eq_refl))) eq_refl eq_refl)
        as (bd & Hp & _ & H7).
      vm_compute in Hp. injection Hp as <-. apply H7. reflexivity.
  - apply B.
    + reflexivity.
    + reflexivity.
    + apply reachable_inv, june_store_reachable.
    + intros k l r b bd Hin Hr Hb Hp [Hm _].
      cbn in Hin. destruct Hin as [H|[H|[H|[]]]]; inversion H; subst;
        vm_compute in Hr; inversion Hr; subst;
        vm_compute in Hb; inversion Hb; subst;
        vm_compute in Hp; inversion Hp; subst; discriminate.
Defined.

Lemma weekend_filed_under_Monday_witness :
  In "Bo"
    (bucket "Monday" [("Wednesday", ["Ann"]); ("Monday", ["Bo"])])
  /\ forall day_ names,
       In (day_, names) [("Wednesday", ["Ann"]); ("Monday", ["Bo"])] ->
       day_ <> "Saturday" /\ day_ <> "Sunday".
Proof.
  destruct (weekend_filed_under_Monday june_10 june_store june_store _
              report_on_june_10) as [A B].
  split; [|exact B].
  apply (A "Bo" 1%nat _ _ (datetime.mkdate 2024 6 16)
           (or_intror (or_introl eq_refl)) eq_refl eq_refl eq_refl).
  - reflexivity.
  - right. reflexivity.
Defined.

Lemma names_reported_once_witness :
  NoDup (reported_names [("Wednesday", ["Ann"]); ("Monday", ["Bo"])]).
Proof.
  exact (names_reported_once june_10 june_store june_store _
           june_store_wf report_on_june_10).
Defined.

(** ** The parser of birthdays *)

Section Parser.

Import _strptime.

Lemma ord_inj (c c' : ascii) : Str.ord c = Str.ord c' -> c = c'.
Proof.
  unfold Str.ord. intros H. apply N2Z.inj in H.
  rewrite <- (ascii_N_embedding c), <- (ascii_N_embedding c'). now rewrite H.
Qed.

Lemma ord_range (c : ascii) : 0 <= Str.ord c < 256.
Proof.
  unfold Str.ord. pose proof (N_ascii_bounded c). lia.
Qed.

(** Replaces the code point of a literal character by its number. *)
Ltac ord_lit :=
  repeat match goal with
  | |- context [Str.ord (Ascii ?a ?b ?c ?d ?e ?f ?g ?h)] =>
      let v := eval vm_compute in (Str.ord (Ascii a b c d e f g h)) in
      change (Str.ord (Ascii a b c d e f g h)) with v
  | H : context [Str.ord (Ascii ?a ?b ?c ?d ?e ?f ?g ?h)] |- _ =>
      let v := eval vm_compute in (Str.ord (Ascii a b c d e f g h)) in
      change (Str.ord (Ascii a b c d e f g h)) with v in H
  end.

(** Turns the tests on characters among the hypotheses into arithmetic. *)
Ltac char_facts :=
  unfold all_decimal in *; cbn [forallb atom_match] in *;
  unfold Str.is_decimal in *; ord_lit;
  repeat match goal with
  | H : _ && _ = true |- _ => apply andb_true_iff in H; destruct H
  | H : _ || _ = true |- _ => apply orb_true_iff in H
  | H : (_ <=? _) = true |- _ => apply Z.leb_le in H
  | H : (_ <=? _) = false |- _ => apply Z.leb_gt in H
  | H : (_ =? _) = true |- _ => apply Z.eqb_eq in H
  | H : (_ =? _) = false |- _ => apply Z.eqb_neq in H
  end.

(** Decides the tests on characters of the goal, one after the other. *)
Ltac char_tests :=
  repeat (cbn [re_match try_alts seq_match atom_match andb orb negb
                 forallb]; unfold Str.is_decimal; ord_lit;
          match goal with
          | |- context [?a <=? ?b] =>
              destruct (Z.leb_spec a b); try lia
          | |- context [?a =? ?b] =>
              destruct (Z.eqb_spec a b); try lia
          end).

Lemma seq_match_sound (a : list atom) (cs txt rest : list ascii) :
  seq_match a cs = Some (txt, rest) ->
  cs = (txt ++ rest)%list /\ seq_match a txt = Some (txt, []).
Proof.
  revert cs txt. induction a as [|x a IH]; intros cs txt; cbn [seq_match].
  - intros [= <- <-]. split; reflexivity.
  - destruct cs as [|c cs]; [discriminate|].
    destruct (atom_match x c) eqn:E; [|discriminate].
    destruct (seq_match a cs) as [[t r]|] eqn:E'; [|discriminate].
    intros [= <- <-]. destruct (IH _ _ E') as [-> H].
    split; [reflexivity|]. cbn [seq_match]. now rewrite E, H.
Qed.

Lemma seq_match_complete (a : list atom) (txt rest : list ascii) :
  seq_match a txt = Some (txt, []) ->
  seq_match a (txt ++ rest) = Some (txt, rest).
Proof.
  revert txt. induction a as [|x a IH]; intros txt; cbn [seq_match].
  - intros H. injection H as <- _. reflexivity.
  - destruct txt as [|c txt]; [discriminate|]. cbn [app].
    destruct (atom_match x c); [|discriminate].
    destruct (seq_match a txt) as [[t r]|] eqn:E; [|discriminate].
    intros [= -> ->]. now rewrite (IH _ E).
Qed.

Lemma try_alts_sound {R} (alts : list (list atom)) (cs : list ascii)
    (k : list ascii -> list ascii -> option R) (r : R) :
  try_alts alts cs k = Some r ->
  exists a txt rest,
    In a alts /\ seq_match a cs = Some (txt, rest) /\ k txt rest = Some r.
Proof.
  induction alts as [|a alts IH]; cbn [try_alts]; [discriminate|].
  destruct (seq_match a cs) as [[txt rest]|] eqn:E.
  - destruct (k txt rest) as [r'|] eqn:Ek.
    + intros [= <-]. exists a, txt, rest.
      split; [now left|]. split; assumption.
    + intros H. destruct (IH H) as (a' & t' & r'' & Hin & H').
      exists a', t', r''. split; [now right|exact H'].
  - intros H. destruct (IH H) as (a' & t' & r'' & Hin & H').
    exists a', t', r''. split; [now right|exact H'].
Qed.

(** What the regular expression of the format matches. *)
Lemma format_regex_sound (cs : list ascii) (gs : list (list ascii))
    (rest : list ascii) :
  re_match format_regex cs = Some (gs, rest) ->
  exists dt mt yt,
    gs = [dt; mt; yt]
    /\ cs = (dt ++ "."%char :: mt ++ "."%char :: yt ++ rest)%list
    /\ group_lang directive_d dt /\ group_lang directive_m mt
    /\ group_lang directive_Y yt.
Proof.
  unfold format_regex. cbn [re_match]. intros H.
  apply try_alts_sound in H. destruct H as (a1 & dt & r1 & Hin1 & Hm1 & H).
  apply seq_match_sound in Hm1. destruct Hm1 as [-> Hd].
  destruct r1 as [|c1 r1]; [discriminate|].
  destruct (atom_match (Lit ".") c1) eqn:Ec1; [|discriminate].
  destruct (try_alts directive_m r1 _) as [[g2 rest2]|] eqn:H2; [|discriminate].
  injection H as <- <-.
  apply try_alts_sound in H2. destruct H2 as (a2 & mt & r2 & Hin2 & Hm2 & H).
  apply seq_match_sound in Hm2. destruct Hm2 as [-> Hm].
  destruct r2 as [|c2 r2]; [discriminate|].
  destruct (atom_match (Lit ".") c2) eqn:Ec2; [|discriminate].
  destruct (try_alts directive_Y r2 _) as [[g3 rest3]|] eqn:H3; [|discriminate].
  injection H as <- <-.
  apply try_alts_sound in H3. destruct H3 as (a3 & yt & r3 & Hin3 & Hm3 & H).
  apply seq_match_sound in Hm3. destruct Hm3 as [-> Hy].
  injection H as <- <-.
  cbn [atom_match] in Ec1, Ec2. apply Z.eqb_eq, ord_inj in Ec1, Ec2. subst.
  exists dt, mt, yt. repeat split; try reflexivity;
    eexists; split; eassumption.
Qed.

Lemma number_1 (c : ascii) :
  Str.is_decimal c = true -> number [c] = Str.ord c - 48.
Proof. intros H. unfold number. cbn [List.filter]. rewrite H. cbn. lia. Qed.

Lemma number_2 (c1 c2 : ascii) :
  Str.is_decimal c1 = true -> Str.is_decimal c2 = true ->
  number [c1; c2] = 10 * (Str.ord c1 - 48) + (Str.ord c2 - 48).
Proof.
  intros H1 H2. unfold number. cbn [List.filter]. rewrite H1, H2. cbn. lia.
Qed.

Lemma number_space (c : ascii) :
  Str.is_decimal c = true -> number [" "%char; c] = Str.ord c - 48.
Proof.
  intros H. unfold number. cbn [List.filter]. rewrite H.
  change (Str.is_decimal " ") with false. cbn. lia.
Qed.

Lemma number_4 (c1 c2 c3 c4 : ascii) :
  all_decimal [c1; c2; c3; c4] = true ->
  number [c1; c2; c3; c4]
  = 1000 * (Str.ord c1 - 48) + 100 * (Str.ord c2 - 48)
    + 10 * (Str.ord c3 - 48) + (Str.ord c4 - 48).
Proof.
  intros H. unfold number. unfold all_decimal in H. cbn [forallb] in H.
  repeat (apply andb_true_iff in H; destruct H as [?H H]).
  cbn [List.filter]. rewrite H0, H1, H2, H3. cbn. lia.
Qed.

Lemma is_decimal_range (c : ascii) :
  Str.is_decimal c = true <-> 48 <= Str.ord c <= 57.
Proof.
  unfold Str.is_decimal. rewrite andb_true_iff, !Z.leb_le. tauto.
Qed.

(** The texts [%d] matches are the day texts that write 1 to 31. *)
Lemma directive_d_lang (dt : list ascii) :
  group_lang directive_d dt <-> day_text dt /\ 1 <= number dt <= 31.
Proof.
  split.
  - intros (a & Hin & Hm). unfold directive_d in Hin. cbn [In] in Hin.
    repeat (destruct Hin as [<-|Hin]); try contradiction;
      destruct dt as [|c1 [|c2 [|c3 dt]]]; cbn [seq_match] in Hm;
      repeat match type of Hm with
             | context [if ?b then _ else _] =>
                 destruct b eqn:?; [|discriminate]
             end; try discriminate.
    + assert (D1 : Str.is_decimal c1 = true)
        by (apply is_decimal_range; char_facts; lia).
      assert (D2 : Str.is_decimal c2 = true)
        by (apply is_decimal_range; char_facts; lia).
      split.
      * left. unfold all_decimal. cbn [forallb]. rewrite D1, D2. auto.
      * rewrite number_2 by assumption. char_facts. lia.
    + assert (D1 : Str.is_decimal c1 = true)
        by (apply is_decimal_range; char_facts; lia).
      assert (D2 : Str.is_decimal c2 = true)
        by (apply is_decimal_range; char_facts; lia).
      split.
      * left. unfold all_decimal. cbn [forallb]. rewrite D1, D2. auto.
      * rewrite number_2 by assumption. char_facts. lia.
    + assert (D1 : Str.is_decimal c1 = true)
        by (apply is_decimal_range; char_facts; lia).
      assert (D2 : Str.is_decimal c2 = true)
        by (apply is_decimal_range; char_facts; lia).
      split.
      * left. unfold all_decimal. cbn [forallb]. rewrite D1, D2. auto.
      * rewrite number_2 by assumption. char_facts. lia.
    + assert (D1 : Str.is_decimal c1 = true)
        by (apply is_decimal_range; char_facts; lia).
      split.
      * left. unfold all_decimal. cbn [forallb]. rewrite D1. auto.
      * rewrite number_1 by assumption. char_facts. lia.
    + assert (D2 : Str.is_decimal c2 = true)
        by (apply is_decimal_range; char_facts; lia).
      assert (c1 = " "%char) by (apply ord_inj; char_facts; ord_lit; lia).
      subst c1. split.
      * right. exists c2. split; [reflexivity|exact D2].
      * rewrite number_space by assumption. char_facts. lia.
  - intros [[[Hd Hl] | (c & -> & Hc)] Hn].
    + destruct dt as [|c1 [|c2 [|c3 dt]]]; cbn [List.length] in Hl;
        try (exfalso; lia).
      * assert (D1 : Str.is_decimal c1 = true)
          by (char_facts; apply is_decimal_range; lia).
        rewrite number_1 in Hn by assumption. apply is_decimal_range in D1.
        exists [Range "1" "9"]. split; [cbn; tauto|].
        char_tests. reflexivity.
      * unfold all_decimal in Hd. cbn [forallb] in Hd.
        apply andb_true_iff in Hd. destruct Hd as [D1 Hd].
        apply andb_true_iff in Hd. destruct Hd as [D2 _].
        rewrite number_2 in Hn by assumption.
        apply is_decimal_range in D1, D2.
        destruct (Z.eq_dec (Str.ord c1) 51) as [E3|N3];
          [|destruct (Z.eq_dec (Str.ord c1) 48) as [E0|N0]].
        -- exists [Lit "3"; Range "0" "1"]. split; [cbn; tauto|].
           char_tests. reflexivity.
        -- exists [Lit "0"; Range "1" "9"]. split; [cbn; tauto|].
           char_tests. reflexivity.
        -- exists [Range "1" "2"; Dec]. split; [cbn; tauto|].
           char_tests. reflexivity.
    + rewrite number_space in Hn by assumption. apply is_decimal_range in Hc.
      exists [Lit " "; Range "1" "9"]. split; [cbn; tauto|].
      char_tests. reflexivity.
Qed.

(** The texts [%m] matches are the month texts that write 1 to 12. *)
Lemma directive_m_lang (mt : list ascii) :
  group_lang directive_m mt <-> month_text mt /\ 1 <= number mt <= 12.
Proof.
  split.
  - intros (a & Hin & Hm). unfold directive_m in Hin. cbn [In] in Hin.
    repeat (destruct Hin as [<-|Hin]); try contradiction;
      destruct mt as [|c1 [|c2 [|c3 mt]]]; cbn [seq_match] in Hm;
      repeat match type of Hm with
             | context [if ?b then _ else _] =>
                 destruct b eqn:?; [|discriminate]
             end; try discriminate.
    + assert (D1 : Str.is_decimal c1 = true)
        by (apply is_decimal_range; char_facts; lia).
      assert (D2 : Str.is_decimal c2 = true)
        by (apply is_decimal_range; char_facts; lia).
      split.
      * split; [|now right]. unfold all_decimal. cbn [forallb]. now rewrite D1, D2.
      * rewrite number_2 by assumption. char_facts. lia.
    + assert (D1 : Str.is_decimal c1 = true)
        by (apply is_decimal_range; char_facts; lia).
      assert (D2 : Str.is_decimal c2 = true)
        by (apply is_decimal_range; char_facts; lia).
      split.
      * split; [|now right]. unfold all_decimal. cbn [forallb]. now rewrite D1, D2.
      * rewrite number_2 by assumption. char_facts. lia.
    + assert (D1 : Str.is_decimal c1 = true)
        by (apply is_decimal_range; char_facts; lia).
      split.
      * split; [|now left]. unfold all_decimal. cbn [forallb]. now rewrite D1.
      * rewrite number_1 by assumption. char_facts. lia.
  - intros [[Hd Hl] Hn].
    destruct mt as [|c1 [|c2 [|c3 mt]]]; cbn [List.length] in Hl;
      try (exfalso; lia).
    + assert (D1 : Str.is_decimal c1 = true)
        by (char_facts; apply is_decimal_range; lia).
      rewrite number_1 in Hn by assumption. apply is_decimal_range in D1.
      exists [Range "1" "9"]. split; [cbn; tauto|].
      char_tests. reflexivity.
    + unfold all_decimal in Hd. cbn [forallb] in Hd.
      apply andb_true_iff in Hd. destruct Hd as [D1 Hd].
      apply andb_true_iff in Hd. destruct Hd as [D2 _].
      rewrite number_2 in Hn by assumption.
      apply is_decimal_range in D1, D2.
      destruct (Z.eq_dec (Str.ord c1) 49) as [E1|N1].
      * exists [Lit "1"; Range "0" "2"]. split; [cbn; tauto|].
        char_tests. reflexivity.
      * exists [Lit "0"; Range "1" "9"]. split; [cbn; tauto|].
        char_tests. reflexivity.
Qed.

(** The texts [%Y] matches are the year texts. *)
Lemma directive_Y_lang (yt : list ascii) :
  group_lang directive_Y yt <-> year_text yt.
Proof.
  split.
  - intros (a & Hin & Hm). unfold directive_Y in Hin. cbn [In] in Hin.
    destruct Hin as [<-|[]].
    destruct yt as [|c1 [|c2 [|c3 [|c4 [|c5 yt]]]]]; cbn [seq_match] in Hm;
      repeat match type of Hm with
             | context [if ?b then _ else _] =>
                 destruct b eqn:?; [|discriminate]
             end; try discriminate.
    cbn [atom_match] in *. split; [|reflexivity].
    unfold all_decimal. cbn [forallb].
    repeat match goal with H : Str.is_decimal _ = true |- _ => rewrite H; clear H end.
    reflexivity.
  - intros [Hd Hl].
    destruct yt as [|c1 [|c2 [|c3 [|c4 [|c5 yt]]]]]; try discriminate.
    unfold all_decimal in Hd. cbn [forallb] in Hd.
    repeat (apply andb_true_iff in Hd; destruct Hd as [?D Hd]).
    exists [Dec; Dec; Dec; Dec]. split; [cbn; tauto|].
    cbn [seq_match atom_match]. now rewrite D, D0, D1, D2.
Qed.

Section Dispatch.

Context {R : Type} (k : list ascii -> list ascii -> option R).

(** The continuation wants a dot first. *)
Hypothesis k_dot : forall t c r, Str.ord c <> 46 -> k t (c :: r) = None.

Ltac dispatch :=
  repeat (cbn [try_alts seq_match atom_match andb app];
          unfold Str.is_decimal; ord_lit;
          first
            [ rewrite k_dot by lia
            | match goal with
              | |- context [?a <=? ?b] => destruct (Z.leb_spec a b); try lia
              | |- context [?a =? ?b] => destruct (Z.eqb_spec a b); try lia
              end
            | match goal with
              | |- context [match k ?t ?r with _ => _ end] =>
                  destruct (k t r)
              end ]);
  try reflexivity.

Lemma try_alts_d (dt r : list ascii) :
  group_lang directive_d dt ->
  try_alts directive_d (dt ++ "."%char :: r) k = k dt ("."%char :: r).
Proof using k_dot.
  intros Hd. apply directive_d_lang in Hd.
  destruct Hd as [[[Hd Hl] | (c & -> & Hc)] Hn].
  - destruct dt as [|d1 [|d2 [|d3 dt]]]; cbn [List.length] in Hl;
      try (exfalso; lia); unfold all_decimal in Hd; cbn [forallb] in Hd;
      repeat (apply andb_true_iff in Hd; destruct Hd as [?D Hd]).
    + rewrite number_1 in Hn by assumption. apply is_decimal_range in D.
      unfold directive_d. dispatch.
    + rewrite number_2 in Hn by assumption. apply is_decimal_range in D, D0.
      unfold directive_d. dispatch.
  - rewrite number_space in Hn by assumption. apply is_decimal_range in Hc.
    unfold directive_d. dispatch.
Qed.

Lemma try_alts_m (mt r : list ascii) :
  group_lang directive_m mt ->
  try_alts directive_m (mt ++ "."%char :: r) k = k mt ("."%char :: r).
Proof using k_dot.
  intros Hm. apply directive_m_lang in Hm. destruct Hm as [[Hm Hl] Hn].
  destruct mt as [|m1 [|m2 [|m3 mt]]]; cbn [List.length] in Hl;
    try (exfalso; lia); unfold all_decimal in Hm; cbn [forallb] in Hm;
    repeat (apply andb_true_iff in Hm; destruct Hm as [?D Hm]).
  - rewrite number_1 in Hn by assumption. apply is_decimal_range in D.
    unfold directive_m. dispatch.
  - rewrite number_2 in Hn by assumption. apply is_decimal_range in D, D0.
    unfold directive_m. dispatch.
Qed.

End Dispatch.

Lemma try_alts_Y {R} (k : list ascii -> list ascii -> option R)
    (yt r : list ascii) :
  group_lang directive_Y yt ->
  try_alts directive_Y (yt ++ r) k = k yt r.
Proof.
  intros (a & Hin & Hm). destruct Hin as [<-|[]].
  unfold directive_Y. cbn [try_alts].
  rewrite (seq_match_complete _ _ r Hm). now destruct (k yt r).
Qed.

(** The regular expression of the format matches a day, a dot, a month, a
    dot and a year, and stops there. *)
Lemma format_regex_complete (dt mt yt rest : list ascii) :
  group_lang directive_d dt -> group_lang directive_m mt ->
  group_lang directive_Y yt ->
  re_match format_regex (dt ++ "."%char :: mt ++ "."%char :: yt ++ rest)
  = Some ([dt; mt; yt], rest).
Proof.
  intros Hd Hm Hy. unfold format_regex. cbn [re_match].
  rewrite try_alts_d; [|intros t c r Hc|exact Hd].
  2:{ cbn [atom_match].
      destruct (Z.eqb_spec (Str.ord c) (Str.ord ".")) as [E|_];
        [|reflexivity].
      exfalso. apply Hc. exact E. }
  cbn [atom_match]. change (Str.ord "." =? Str.ord ".") with true. cbn iota.
  rewrite try_alts_m; [|intros t c r Hc|exact Hm].
  2:{ cbn [atom_match].
      destruct (Z.eqb_spec (Str.ord c) (Str.ord ".")) as [E|_];
        [|reflexivity].
      exfalso. apply Hc. exact E. }
  cbn [atom_match]. change (Str.ord "." =? Str.ord ".") with true. cbn iota.
  rewrite try_alts_Y by exact Hy. reflexivity.
Qed.

Lemma decimal_not_space (c : ascii) :
  Str.is_decimal c = true -> Str.is_space c = false.
Proof.
  intros H. apply is_decimal_range in H. unfold Str.is_space.
  repeat match goal with
         | |- context [?a <=? ?b] => destruct (Z.leb_spec a b); try lia
         | |- context [?a =? ?b] => destruct (Z.eqb_spec a b); try lia
         end; reflexivity.
Qed.

Lemma lstrip_decimal (t : list ascii) :
  all_decimal t = true -> Str.lstrip_chars t = t.
Proof.
  destruct t as [|c t]; [reflexivity|]. unfold all_decimal. cbn [forallb].
  intros H. apply andb_true_iff in H. destruct H as [H _].
  cbn [Str.lstrip_chars]. now rewrite (decimal_not_space _ H).
Qed.

Lemma strip_decimal (t : list ascii) :
  all_decimal t = true -> Str.rstrip_chars (Str.lstrip_chars t) = t.
Proof.
  intros H. rewrite (lstrip_decimal _ H). unfold Str.rstrip_chars.
  rewrite lstrip_decimal; [apply rev_involutive|].
  unfold all_decimal in *. rewrite forallb_forall in *.
  intros c Hc. apply H. now apply in_rev.
Qed.

Lemma digits_value_fold (t : list ascii) (acc : Z) :
  digits_value acc t
  = fold_left (fun n c => 10 * n + (Str.ord c - 48)) t acc.
Proof.
  revert acc. induction t as [|c t IH]; intros acc; [reflexivity|].
  cbn [digits_value fold_left]. now rewrite IH.
Qed.

Lemma filter_decimal (t : list ascii) :
  all_decimal t = true -> List.filter Str.is_decimal t = t.
Proof.
  unfold all_decimal. induction t as [|c t IH]; [reflexivity|].
  cbn [forallb List.filter]. intros H. apply andb_true_iff in H.
  destruct H as [Hc Ht]. rewrite Hc. now rewrite IH.
Qed.

(** [int] reads a text of digits as the number it writes. *)
Lemma int_decimal (t : list ascii) :
  all_decimal t = true -> t <> [] -> _strptime.int t = Ok (number t).
Proof.
  intros H Hne. unfold _strptime.int. rewrite (strip_decimal _ H).
  destruct t as [|c t]; [contradiction|].
  fold (all_decimal (c :: t)). rewrite H.
  unfold number. now rewrite digits_value_fold, filter_decimal.
Qed.

Lemma int_space_digit (c : ascii) :
  Str.is_decimal c = true ->
  _strptime.int [" "%char; c] = Ok (number [" "%char; c]).
Proof.
  intros H. unfold _strptime.int. cbn [Str.lstrip_chars].
  change (Str.is_space " ") with true. cbn iota.
  rewrite (decimal_not_space _ H). unfold Str.rstrip_chars.
  cbn [rev app Str.lstrip_chars]. rewrite (decimal_not_space _ H).
  cbn [rev app forallb]. rewrite H. cbn [andb].
  now rewrite number_space, digits_value_fold.
Qed.

Lemma int_day_text (t : list ascii) :
  day_text t -> _strptime.int t = Ok (number t).
Proof.
  intros [[Hd Hl] | (c & -> & Hc)].
  - apply int_decimal; [exact Hd|]. intros ->. cbn in Hl. lia.
  - now apply int_space_digit.
Qed.

Lemma month_length_days_in_month (y m : Z) :
  1 <= m <= 12 -> month_length y m = datetime._days_in_month y m.
Proof.
  intros Hm. unfold month_length, datetime._days_in_month.
  change (leap_year y) with (datetime._is_leap y).
  assert (Hc : m = 1 \/ m = 2 \/ m = 3 \/ m = 4 \/ m = 5 \/ m = 6 \/ m = 7
               \/ m = 8 \/ m = 9 \/ m = 10 \/ m = 11 \/ m = 12) by lia.
  repeat (destruct Hc as [->|Hc]); try subst m;
    destruct (datetime._is_leap y); reflexivity.
Qed.

Lemma month_length_le_31 (y m : Z) : month_length y m <= 31.
Proof.
  unfold month_length.
  destruct (m =? 2); [destruct (leap_year y); lia|].
  destruct (_ || _); lia.
Qed.

Lemma year_text_range (t : list ascii) :
  year_text t -> 0 <= number t <= 9999.
Proof.
  intros [Hd Hl].
  destruct t as [|c1 [|c2 [|c3 [|c4 [|c5 t]]]]]; try discriminate.
  rewrite (number_4 _ _ _ _ Hd).
  unfold all_decimal in Hd. cbn [forallb] in Hd.
  repeat (apply andb_true_iff in Hd; destruct Hd as [?D Hd]).
  apply is_decimal_range in D, D0, D1, D2. lia.
Qed.

Lemma real_calendar_date_new (y m d : Z) :
  y <= 9999 ->
  real_calendar_date y m d = true <->
  datetime.date_new y m d = Ok (datetime.mkdate y m d).
Proof.
  intros Hy. unfold real_calendar_date. split.
  - intros H. repeat (apply andb_true_iff in H; destruct H as [H ?]).
    rewrite !Z.leb_le in *.
    apply date_new_valid; [lia|lia|].
    rewrite <- month_length_days_in_month by lia. lia.
  - intros H. apply date_new_Ok in H. destruct H as (_ & H1 & H2 & H3).
    rewrite <- month_length_days_in_month in H3 by lia.
    repeat (apply andb_true_iff; split); apply Z.leb_le; lia.
Qed.

(** The strings the parser accepts. *)
Lemma strptime_date_accepts (s : string) :
  (exists bd, strptime_date s = Ok bd) <-> lenient_date s.
Proof.
  unfold strptime_date, _strptime._strptime. split.
  - intros [bd H].
    destruct (re_match format_regex (Str.chars s)) as [[gs rest]|] eqn:E;
      [|discriminate].
    destruct rest as [|c rest]; [|discriminate]. cbn [List.length Nat.eqb negb] in H.
    apply format_regex_sound in E.
    destruct E as (dt & mt & yt & -> & Hs & Hd & Hm & Hy).
    rewrite app_nil_r in Hs.
    apply directive_d_lang in Hd. destruct Hd as [Hd Hdn].
    apply directive_m_lang in Hm. destruct Hm as [Hm Hmn].
    apply directive_Y_lang in Hy.
    rewrite (int_day_text _ Hd) in H.
    rewrite (int_decimal mt) in H;
      [|apply Hm|intros ->; destruct Hm as [_ [?|?]]; discriminate].
    rewrite (int_decimal yt) in H;
      [|apply Hy|intros ->; destruct Hy as [_ ?]; discriminate].
    cbn [rbind] in H.
    exists dt, mt, yt. repeat split; try assumption; try apply Hm; try apply Hy.
    apply real_calendar_date_new; [apply year_text_range, Hy|].
    pose proof (date_new_Ok _ _ _ _ H) as [-> _]. exact H.
  - intros (dt & mt & yt & Hs & Hd & Hm & Hy & Hreal).
    assert (Hb : 1 <= number yt /\ 1 <= number mt <= 12
                 /\ 1 <= number dt <= 31).
    { unfold real_calendar_date in Hreal.
      repeat (apply andb_true_iff in Hreal; destruct Hreal as [Hreal ?]).
      rewrite !Z.leb_le in *.
      pose proof (month_length_le_31 (number yt) (number mt)). lia. }
    rewrite Hs.
    replace (dt ++ "."%char :: mt ++ "."%char :: yt)%list
      with (dt ++ "."%char :: mt ++ "."%char :: yt ++ [])%list
      by (now rewrite app_nil_r).
    rewrite format_regex_complete;
      [|apply directive_d_lang; split; [exact Hd|lia]
       |apply directive_m_lang; split; [exact Hm|lia]
       |apply directive_Y_lang; exact Hy].
    cbn [List.length Nat.eqb negb].
    rewrite (int_day_text _ Hd).
    rewrite (int_decimal mt);
      [|apply Hm|intros ->; destruct Hm as [_ [?|?]]; discriminate].
    rewrite (int_decimal yt);
      [|apply Hy|intros ->; destruct Hy as [_ ?]; discriminate].
    cbn [rbind]. eexists.
    apply real_calendar_date_new; [apply year_text_range, Hy|exact Hreal].
Qed.

End Parser.




(** * Further properties *)

(** ** Names *)

Lemma lstrip_chars_nil (cs : list ascii) :
  Str.lstrip_chars cs = [] <-> forall c, In c cs -> Str.is_space c = true.
Proof.
  induction cs as [|c cs IH]; cbn [Str.lstrip_chars].
  - split; [intros _ c []|reflexivity].
  - destruct (Str.is_space c) eqn:E.
    + rewrite IH. split.
      * intros H c' [<-|Hin]; [exact E|now apply H].
      * intros H c' Hin. apply H. now right.
    + split; [discriminate|]. intros H.
      rewrite (H c (or_introl eq_refl)) in E. discriminate.
Qed.

Lemma lstrip_chars_head (cs : list ascii) (c : ascii) (t : list ascii) :
  Str.lstrip_chars cs = c :: t -> Str.is_space c = false.
Proof.
  induction cs as [|c0 cs IH]; cbn [Str.lstrip_chars]; [discriminate|].
  destruct (Str.is_space c0) eqn:E; [exact IH|].
  now intros [= <- _].
Qed.

Lemma strip_empty_iff (v : string) : Str.strip v = "" <-> blank v.
Proof.
  unfold Str.strip, blank. rewrite <- lstrip_chars_nil.
  destruct (Str.lstrip_chars (Str.chars v)) as [|c t] eqn:E.
  - split; intros _; reflexivity.
  - split; [|discriminate]. intros H. exfalso.
    assert (Hr : Str.rstrip_chars (c :: t) = []).
    { destruct (Str.rstrip_chars (c :: t)); [reflexivity|].
      cbn in H. discriminate. }
    unfold Str.rstrip_chars in Hr.
    apply (f_equal (@rev ascii)) in Hr. rewrite rev_involutive in Hr.
    cbn [rev] in Hr. apply lstrip_chars_nil with (c := c) in Hr.
    + rewrite (lstrip_chars_head _ _ _ E) in Hr. discriminate.
    + apply in_or_app. right. now left.
Qed.

(** X1. [Name(v)] raises when [v] is empty or made of whitespace only, and
    otherwise keeps [v] as it is, with the whitespace around it. *)
Theorem Name_rejects_blank (v : string) :
  (blank v -> Name v = Raise InvalidName)
  /\ (~ blank v -> Name v = Ok (mkField v)).
Proof.
  unfold Name, Str.truthy.
  destruct (String.eqb_spec (Str.strip v) "") as [E|N]; cbn [negb].
  - apply strip_empty_iff in E. split; [reflexivity|contradiction].
  - split; [|reflexivity]. intros H. apply strip_empty_iff in H. contradiction.
Qed.

Lemma Name_rejects_blank_witness :
  Name "   " = Raise InvalidName /\ Name " Bo " = Ok (mkField " Bo ").
Proof.
  split.
  - apply (proj1 (Name_rejects_blank "   ")).
    intros c Hc. cbn in Hc.
    repeat (destruct Hc as [<-|Hc]; [reflexivity|]). contradiction.
  - apply (proj2 (Name_rejects_blank " Bo ")).
    intros H. specialize (H "B"%char). cbn in H.
    assert (E : Str.is_space "B" = true) by (apply H; tauto).
    discriminate.
Defined.

(** ** Phones of a record *)

Lemma phone_values_filter (phone : string) (ps : list Field) :
  map value (List.filter (fun p => negb (String.eqb (value p) phone)) ps)
  = List.filter (keep_other phone) (map value ps).
Proof.
  induction ps as [|p ps IH]; [reflexivity|]. cbn [List.filter map].
  unfold keep_other at 1. destruct (negb _); cbn [map]; now rewrite IH.
Qed.

Lemma filter_keep_all (phone : string) (l : list string) :
  ~ In phone l -> List.filter (keep_other phone) l = l.
Proof.
  induction l as [|x l IH]; [reflexivity|]. intros H. cbn [List.filter].
  unfold keep_other at 1.
  destruct (String.eqb_spec x phone) as [->|_]; cbn [negb].
  - elim H. now left.
  - rewrite IH; [reflexivity|]. intros Hin. apply H. now right.
Qed.

Lemma filter_field_keep_all (phone : string) (ps : list Field) :
  ~ In phone (map value ps) ->
  List.filter (fun p => negb (String.eqb (value p) phone)) ps = ps.
Proof.
  induction ps as [|p ps IH]; [reflexivity|]. intros H. cbn [List.filter].
  destruct (String.eqb_spec (value p) phone) as [E|_]; cbn [negb].
  - elim H. now left.
  - rewrite IH; [reflexivity|]. intros Hin. apply H. now right.
Qed.

(** X2. [remove_phone] never raises: it takes every entry equal to [phone]
    out of the list, keeps the others in their order, and leaves the name,
    the birthday, the other records and the address book alone; when no
    entry is equal to [phone] the store is the one before the call. *)
Theorem remove_phone_removes_every_match
    (s : store) (self : loc) (r : RecordObj) (phone : string) :
  heap s !! self = Some r ->
  exists r',
    Record_.remove_phone self phone s = (Ok tt, with_record s self r')
    /\ phone_values r' = List.filter (keep_other phone) (phone_values r)
    /\ ~ In phone (phone_values r')
    /\ name r' = name r /\ birthday r' = birthday r
    /\ (~ In phone (phone_values r) -> with_record s self r' = s).
Proof.
  intros Hr. eexists. split.
  - unfold Record_.remove_phone, bind. rewrite (get_record_Some _ _ _ Hr).
    reflexivity.
  - unfold phone_values. cbn [phones name birthday].
    rewrite phone_values_filter. split; [reflexivity|].
    split.
    + intros Hin. apply filter_In in Hin. destruct Hin as [_ Hk].
      unfold keep_other in Hk. rewrite String.eqb_refl in Hk. discriminate.
    + split; [reflexivity|]. split; [reflexivity|].
      intros Hno. rewrite filter_field_keep_all by exact Hno.
      rewrite record_eta. now apply with_record_same.
Qed.

Lemma Phone_Ok (phone : string) :
  Str.isdigit phone = true -> String.length phone = 10%nat ->
  Phone phone = Ok (mkField phone).
Proof.
  intros Hd Hl. unfold Phone. rewrite Hd.
  apply len_eq_10 in Hl. now rewrite Hl.
Qed.

(** X3. [add_phone] with 10 digits puts the phone at the end of the list,
    also when the list holds it already; and when it did not, [remove_phone]
    of the same phone right after gives back the store from before. *)
Theorem add_phone_appends_and_remove_undoes
    (s : store) (self : loc) (r : RecordObj) (phone : string) :
  heap s !! self = Some r ->
  Str.isdigit phone = true -> String.length phone = 10%nat ->
  (exists r1,
     Record_.add_phone self phone s = (Ok tt, with_record s self r1)
     /\ phone_values r1 = (phone_values r ++ [phone])%list
     /\ name r1 = name r /\ birthday r1 = birthday r)
  /\ (~ In phone (phone_values r) ->
      bind (Record_.add_phone self phone)
        (fun _ => Record_.remove_phone self phone) s
      = (Ok tt, s)).
Proof.
  intros Hr Hd Hl.
  assert (Hadd : Record_.add_phone self phone s
                 = (Ok tt,
                    with_record s self
                      (mkRecord (name r) (phones r ++ [mkField phone])
                         (birthday r)))).
  { unfold Record_.add_phone, bind, lift. rewrite (Phone_Ok _ Hd Hl).
    now rewrite (get_record_Some _ _ _ Hr). }
  split.
  - eexists. split; [exact Hadd|]. unfold phone_values.
    cbn [phones name birthday]. rewrite map_app. auto.
  - intros Hno. unfold bind. rewrite Hadd.
    unfold Record_.remove_phone, bind.
    rewrite (get_record_Some _ _ _ (with_record_lookup _ _ _ _ Hr)).
    unfold set_record. cbn [phones name birthday].
    fold (with_record (with_record s self
            (mkRecord (name r) (phones r ++ [mkField phone]) (birthday r)))
            self
            (mkRecord (name r)
               (List.filter (fun p => negb (String.eqb (value p) phone))
                  (phones r ++ [mkField phone]))
               (birthday r))).
    rewrite with_record_twice. rewrite List.filter_app.
    rewrite filter_field_keep_all by exact Hno.
    cbn [List.filter value]. rewrite String.eqb_refl. cbn [negb].
    rewrite app_nil_r, record_eta. now rewrite with_record_same.
Qed.

Lemma add_phone_appends_and_remove_undoes_witness :
  (exists r1,
     Record_.add_phone 0%nat "0501234567" twice_store
     = (Ok tt, with_record twice_store 0%nat r1)
     /\ phone_values r1 = ["0123456789"; "0123456789"; "0501234567"]
     /\ name r1 = mkField "Bo" /\ birthday r1 = None)
  /\ bind (Record_.add_phone 0%nat "0501234567")
       (fun _ => Record_.remove_phone 0%nat "0501234567") twice_store
     = (Ok tt, twice_store).
Proof.
  destruct (add_phone_appends_and_remove_undoes twice_store 0%nat _
              "0501234567" eq_refl eq_refl eq_refl) as [A B].
  split; [exact A|]. apply B.
  cbn. intros [H|[H|[]]]; discriminate.
Defined.

Lemma remove_phone_removes_every_match_witness :
  exists r',
    Record_.remove_phone 0%nat "0123456789" twice_store
    = (Ok tt, with_record twice_store 0%nat r')
    /\ phone_values r' = []
    /\ ~ In "0123456789" (phone_values r')
    /\ name r' = mkField "Bo" /\ birthday r' = None
    /\ (~ In "0123456789" ["0123456789"; "0123456789"] ->
        with_record twice_store 0%nat r' = twice_store).
Proof.
  exact (remove_phone_removes_every_match twice_store 0%nat _ "0123456789"
           eq_refl).
Defined.

(** ** The address book *)

Lemma dict_get_del_ne {V} (d : list (string * V)) (k k' : string) :
  k' <> k -> dict.get k' (dict.del k d) = dict.get k' d.
Proof.
  intros Hne. induction d as [|[k0 v0] d IH]; [reflexivity|].
  cbn [dict.del dict.get].
  destruct (String.eqb_spec k0 k) as [->|N].
  - destruct (String.eqb_spec k k'); [congruence|reflexivity].
  - cbn [dict.get]. now rewrite IH.
Qed.

Lemma dict_keys_del {V} (d : list (string * V)) (k : string) :
  NoDup (dict.keys d) ->
  dict.keys (dict.del k d) = List.filter (keep_other k) (dict.keys d).
Proof.
  unfold dict.keys. induction d as [|[k0 v0] d IH]; [reflexivity|].
  cbn [map fst dict.del List.filter]. intros Hnd.
  apply NoDup_cons in Hnd. destruct Hnd as [Hk Hnd].
  unfold keep_other at 1.
  destruct (String.eqb_spec k0 k) as [->|N]; cbn [negb].
  - symmetry. apply filter_keep_all. intros Hin. apply Hk.
    now apply list_elem_of_In.
  - cbn [map fst]. now rewrite IH.
Qed.

Lemma dict_del_absent {V} (d : list (string * V)) (k : string) :
  dict.get k d = None -> dict.del k d = d.
Proof.
  induction d as [|[k0 v0] d IH]; [reflexivity|]. cbn [dict.get dict.del].
  destruct (String.eqb k0 k); [discriminate|]. intros H. now rewrite IH.
Qed.

(** X4. [add_record] keeps the records and every other entry of the address
    book: a new name goes to the end of the keys, a name already there keeps
    its place, and [find] of any other name answers as before. *)
Theorem add_record_keeps_the_rest (s : store) (c : loc) (r : RecordObj) :
  heap s !! c = Some r ->
  exists s1,
    AddressBook.add_record c s = (Ok tt, s1)
    /\ heap s1 = heap s
    /\ dict.keys (data s1)
       = (if dict.mem (value (name r)) (data s) then dict.keys (data s)
          else dict.keys (data s) ++ [value (name r)])%list
    /\ forall n, n <> value (name r) ->
         fst (AddressBook.find n s1) = fst (AddressBook.find n s).
Proof.
  intros Hr. eexists. split; [apply add_record_run, Hr|].
  cbn [heap data]. split; [reflexivity|]. split; [apply dict_keys_set|].
  intros n Hn. unfold AddressBook.find, bind, get_data, ret. cbn [fst data].
  now rewrite dict_get_set_ne.
Qed.

(** X5. [delete] never raises and keeps the records: in an address book
    that holds each key once it takes out the key [n] and nothing else,
    keeps the order of the other keys, [find] of any other name answers as
    before, and when [n] is not a key the store is the one before the
    call. *)
Theorem delete_takes_out_one_key (s : store) (n : string) :
  NoDup (dict.keys (data s)) ->
  exists s1,
    AddressBook.delete n s = (Ok tt, s1)
    /\ heap s1 = heap s
    /\ dict.keys (data s1) = List.filter (keep_other n) (dict.keys (data s))
    /\ (forall n', n' <> n ->
          fst (AddressBook.find n' s1) = fst (AddressBook.find n' s))
    /\ (fst (AddressBook.find n s) = Ok None -> s1 = s).
Proof.
  intros Hnd. unfold AddressBook.delete, bind, get_data, dict.mem.
  destruct (dict.get n (data s)) as [l|] eqn:E.
  - eexists. split; [reflexivity|]. cbn [heap data].
    split; [reflexivity|]. split; [now apply dict_keys_del|]. split.
    + intros n' Hn'. unfold AddressBook.find, bind, get_data, ret.
      cbn [fst data]. now rewrite dict_get_del_ne.
    + unfold AddressBook.find, bind, get_data, ret. cbn [fst].
      rewrite E. discriminate.
  - exists s. split; [reflexivity|]. split; [reflexivity|]. split.
    + rewrite <- (dict_del_absent _ _ E) at 1. now apply dict_keys_del.
    + split; [reflexivity|reflexivity].
Qed.

Lemma add_record_keeps_the_rest_witness :
  exists s1,
    AddressBook.add_record 1%nat june_store = (Ok tt, s1)
    /\ heap s1 = heap june_store
    /\ dict.keys (data s1) = ["Ann"; "Bo"; "Cy"]
    /\ forall n, n <> "Bo" ->
         fst (AddressBook.find n s1) = fst (AddressBook.find n june_store).
Proof.
  exact (add_record_keeps_the_rest june_store 1%nat _ eq_refl).
Defined.

Lemma delete_takes_out_one_key_witness :
  exists s1,
    AddressBook.delete "Bo" june_store = (Ok tt, s1)
    /\ heap s1 = heap june_store
    /\ dict.keys (data s1) = ["Ann"; "Cy"]
    /\ (forall n', n' <> "Bo" ->
          fst (AddressBook.find n' s1) = fst (AddressBook.find n' june_store))
    /\ (fst (AddressBook.find "Bo" june_store) = Ok None -> s1 = june_store).
Proof.
  apply (delete_takes_out_one_key june_store "Bo").
  apply june_store_wf.
Defined.

(** ** What every record of a reachable store satisfies *)

Lemma Name_Ok_not_blank (v : string) (f : Field) :
  Name v = Ok f -> f = mkField v /\ ~ blank v.
Proof.
  unfold Name, Str.truthy.
  destruct (String.eqb_spec (Str.strip v) "") as [E|N]; cbn [negb];
    [discriminate|].
  intros [= <-]. split; [reflexivity|].
  intros H. apply strip_empty_iff in H. contradiction.
Qed.

Lemma Phone_Ok_length (v : string) (f : Field) :
  Phone v = Ok f -> f = mkField v /\ String.length v = 10%nat.
Proof.
  unfold Phone. destruct (negb (Str.isdigit v)); [discriminate|].
  cbn [orb]. destruct (Str.len v =? 10) eqn:E; [|discriminate].
  intros [= <-]. split; [reflexivity|]. now apply len_eq_10.
Qed.

Lemma Birthday_Ok_lenient (v : string) (f : Field) :
  Birthday v = Ok f -> f = mkField v /\ lenient_date v.
Proof.
  unfold Birthday. destruct (strptime_date v) as [d|[m|m]] eqn:E;
    try discriminate.
  intros [= <-]. split; [reflexivity|]. apply strptime_date_accepts. eauto.
Qed.

Lemma records_valid_with_record (s : store) (l : loc) (r' : RecordObj) :
  records_valid s -> record_valid r' -> records_valid (with_record s l r').
Proof.
  intros Hs Hr' l0 r0. cbn [with_record heap].
  intros H. apply list_lookup_insert_Some in H.
  destruct H as [(_ & <- & _)|[_ H]]; [exact Hr'|eapply Hs, H].
Qed.

Lemma records_valid_edit_phone_loop (self : loc) (old_phone new_phone : string)
    (n i : nat) (s : store) :
  records_valid s ->
  records_valid
    (store_after (Record_.edit_phone_loop self old_phone new_phone i n) s).
Proof.
  revert i s. induction n as [|n IH]; intros i s Hs; [exact Hs|].
  unfold store_after in *. cbn [Record_.edit_phone_loop].
  unfold bind at 1. unfold get_record at 1.
  destruct (heap s !! self) as [r|] eqn:Hr; [|exact Hs].
  destruct (phones r !! i) as [p|] eqn:Hp; [|exact Hs].
  unfold bind at 1.
  destruct (String.eqb (value p) old_phone).
  - destruct (Str.len new_phone =? 10) eqn:El; cbn [negb]; [|exact Hs].
    unfold Record_.set_phone_value, bind at 1.
    rewrite (get_record_Some _ _ _ Hr). unfold set_record.
    apply IH. apply (records_valid_with_record s self); [exact Hs|].
    destruct (Hs _ _ Hr) as (Hn & Hph & Hb).
    split; [exact Hn|]. split; [|exact Hb].
    unfold phone_values. cbn [phones]. intros q Hq.
    apply in_map_iff in Hq. destruct Hq as (f & <- & Hf).
    apply list_elem_of_In, list_elem_of_lookup in Hf. destruct Hf as [j Hj].
    apply list_lookup_insert_Some in Hj.
    destruct Hj as [(_ & <- & _)|[_ Hj]].
    + cbn [value]. now apply len_eq_10.
    + apply Hph. unfold phone_values. apply in_map.
      apply list_elem_of_In. eapply list_elem_of_lookup_2, Hj.
  - apply IH. exact Hs.
Qed.

Lemma records_valid_exec (c : call) (s : store) :
  records_valid s -> records_valid (exec c s).
Proof.
  intros Hs.
  destruct c as [n | l p | l p | l o n | l b | l | n | n];
    unfold exec, store_after.
  - unfold Record_.__init__, bind, lift.
    destruct (Name n) as [f|] eqn:E; [|exact Hs].
    apply Name_Ok_not_blank in E. destruct E as [-> Hn].
    unfold alloc. cbn [snd]. intros l r. cbn [heap].
    rewrite lookup_app. destruct (heap s !! l) as [r1|] eqn:E1.
    + intros [= <-]. eapply Hs, E1.
    + destruct (l - List.length (heap s))%nat as [|k]; cbn; [|discriminate].
      intros [= <-]. split; [exact Hn|]. split; [intros p []|discriminate].
  - unfold Record_.add_phone, bind, lift.
    destruct (Phone p) as [f|] eqn:E; [|exact Hs].
    apply Phone_Ok_length in E. destruct E as [-> Hl].
    unfold get_record. destruct (heap s !! l) as [r|] eqn:Hr; [|exact Hs].
    unfold set_record. cbn [snd].
    apply (records_valid_with_record s l); [exact Hs|].
    destruct (Hs _ _ Hr) as (Hn & Hph & Hb).
    split; [exact Hn|]. split; [|exact Hb].
    unfold phone_values. cbn [phones]. rewrite map_app. intros q Hq.
    apply in_app_or in Hq. destruct Hq as [Hq|[<-|[]]]; [now apply Hph|exact Hl].
  - unfold Record_.remove_phone, bind, get_record.
    destruct (heap s !! l) as [r|] eqn:Hr; [|exact Hs].
    unfold set_record. cbn [snd].
    apply (records_valid_with_record s l); [exact Hs|].
    destruct (Hs _ _ Hr) as (Hn & Hph & Hb).
    split; [exact Hn|]. split; [|exact Hb].
    unfold phone_values. cbn [phones]. intros q Hq.
    apply in_map_iff in Hq. destruct Hq as (f & <- & Hf).
    apply filter_In in Hf. destruct Hf as [Hf _].
    apply Hph. unfold phone_values. now apply in_map.
  - unfold Record_.edit_phone, bind, get_record.
    destruct (heap s !! l) as [r|] eqn:Hr; [|exact Hs].
    now apply records_valid_edit_phone_loop.
  - unfold Record_.add_birthday, bind, lift.
    destruct (Birthday b) as [f|] eqn:E; [|exact Hs].
    apply Birthday_Ok_lenient in E. destruct E as [-> Hl].
    unfold get_record. destruct (heap s !! l) as [r|] eqn:Hr; [|exact Hs].
    unfold set_record. cbn [snd].
    apply (records_valid_with_record s l); [exact Hs|].
    destruct (Hs _ _ Hr) as (Hn & Hph & Hb).
    split; [exact Hn|]. split; [exact Hph|].
    cbn [birthday]. now intros b' [= <-].
  - unfold AddressBook.add_record, bind, get_record.
    destruct (heap s !! l) as [r|] eqn:Hr; exact Hs.
  - exact Hs.
  - unfold AddressBook.delete, bind, get_data.
    destruct (dict.mem n (data s)); exact Hs.
Qed.

(** X10. Whatever calls a program makes to the two classes, every record
    has a name that is not blank, phones of 10 characters and a birthday, if
    it has one, that the parser accepts; each name is in the address book
    once, and each key of the address book is the name of its record. *)
Theorem reachable_records_are_valid (s : store) :
  reachable s -> records_valid s /\ store_wf s.
Proof.
  intros Hreach. split; [|apply reachable_inv, Hreach].
  destruct Hreach as [calls ->].
  assert (H0 : records_valid empty_store).
  { intros l r H. cbn in H. rewrite lookup_nil in H. discriminate. }
  revert H0. generalize empty_store.
  induction calls as [|c calls IH]; intros s0 H0; [exact H0|].
  cbn [fold_left]. apply IH. now apply records_valid_exec.
Qed.

Lemma reachable_records_are_valid_witness :
  records_valid june_store /\ store_wf june_store.
Proof.
  apply (reachable_records_are_valid june_store).
  exists june_calls. reflexivity.
Defined.

Section Report.

Import datetime.

(** ** More on the report *)

Lemma weekday_range (d : date) : 0 <= weekday d < 7.
Proof. unfold weekday. apply Z.mod_pos_bound. lia. Qed.

Lemma report_key_weekday (d d' : date) :
  weekday d = weekday d' -> report_key d = report_key d'.
Proof. unfold report_key, strftime_A. now intros ->. Qed.

Lemma report_key_working (d : date) : In (report_key d) working_days.
Proof.
  pose proof (weekday_range d) as H. unfold report_key, strftime_A.
  assert (Hc : weekday d = 0 \/ weekday d = 1 \/ weekday d = 2
               \/ weekday d = 3 \/ weekday d = 4 \/ weekday d = 5
               \/ weekday d = 6) by lia.
  repeat (destruct Hc as [->|Hc]); try rewrite Hc; cbn; tauto.
Qed.

Lemma buckets_ok_file_entry (acc : list (string * list string))
    (e : string * string) :
  buckets_ok acc -> buckets_ok (file_entry acc e).
Proof.
  intros [Hnd Hne]. unfold file_entry, dict.append_at.
  destruct (dict.get (fst e) acc) as [xs|] eqn:E; split.
  - now apply dict_NoDup_set.
  - intros k ns Hin. apply dict_In_set in Hin; [|exact Hnd].
    destruct Hin as [[_ ->]|[_ Hin]]; [|eapply Hne, Hin].
    intros H. apply app_eq_nil in H. destruct H as [_ H]. discriminate.
  - now apply dict_NoDup_set.
  - intros k ns Hin. apply dict_In_set in Hin; [|exact Hnd].
    destruct Hin as [[_ ->]|[_ Hin]]; [discriminate|eapply Hne, Hin].
Qed.

Lemma buckets_ok_fold (es : list (string * string))
    (acc : list (string * list string)) :
  buckets_ok acc -> buckets_ok (fold_left file_entry es acc).
Proof.
  revert acc. induction es as [|e es IH]; intros acc H; [exact H|].
  cbn [fold_left]. apply IH. now apply buckets_ok_file_entry.
Qed.

(** The report reads the store and leaves it as it is, whatever its
    outcome. *)
Lemma report_loop_reads (today : date) (ls : list loc)
    (acc : list (string * list string)) (s : store) :
  snd (AddressBook.report_loop today ls acc s) = s.
Proof.
  revert acc. induction ls as [|l ls IH]; intros acc; [reflexivity|].
  cbn [AddressBook.report_loop]. unfold bind at 1. unfold get_record.
  destruct (heap s !! l); [|reflexivity].
  unfold bind at 1. unfold lift.
  destruct (AddressBook.report_record today acc r); [apply IH|reflexivity].
Qed.

Lemma get_birthdays_per_week_reads (today : date) (s : store) :
  snd (AddressBook.get_birthdays_per_week today s) = s.
Proof.
  unfold AddressBook.get_birthdays_per_week, bind at 1. unfold lift.
  destruct (add_days today 7); [|reflexivity].
  unfold bind, get_data. apply report_loop_reads.
Qed.

(** X6. [get_birthdays_per_week] never changes the store, whether it returns
    or raises; when it returns, the keys of the report are names of days
    from Monday to Friday, each of them once, and no bucket is empty. *)
Theorem report_has_working_days_only (today : date) (s : store) :
  snd (AddressBook.get_birthdays_per_week today s) = s
  /\ forall res,
       fst (AddressBook.get_birthdays_per_week today s) = Ok res ->
       NoDup (dict.keys res)
       /\ forall day_ names,
            In (day_, names) res -> In day_ working_days /\ names <> [].
Proof.
  split; [apply get_birthdays_per_week_reads|].
  intros res Hrun.
  destruct (AddressBook.get_birthdays_per_week today s) as [x s'] eqn:E.
  cbn [fst] in Hrun. subst x. apply get_birthdays_per_week_Ok in E.
  destruct E as (_ & es & Hf & ->).
  assert (Hok : buckets_ok (fold_left file_entry es [])).
  { apply buckets_ok_fold. split; [constructor|]. intros k ns []. }
  split; [apply Hok|]. intros day_ names Hin. split; [|eapply Hok, Hin].
  assert (Hk : In day_ (dict.keys (fold_left file_entry es []))).
  { unfold dict.keys. change day_ with (fst (day_, names)). now apply in_map. }
  apply keys_fold_file in Hk. destruct Hk as [Hk|[]].
  apply in_map_iff in Hk. destruct Hk as ([k0 n0] & Hk & Hin0).
  cbn [fst] in Hk. subst k0.
  destruct (filed_sound today s _ _ _ _ Hf Hin0)
    as (_ & _ & _ & _ & sh & _ & _ & _ & _ & _ & _ & _ & ->).
  apply report_key_working.
Qed.

Lemma report_has_working_days_only_witness :
  NoDup (dict.keys [("Wednesday", ["Ann"]); ("Monday", ["Bo"])])
  /\ forall day_ names,
       In (day_, names) [("Wednesday", ["Ann"]); ("Monday", ["Bo"])] ->
       In day_ working_days /\ names <> [].
Proof.
  apply (proj2 (report_has_working_days_only june_10 june_store)).
  now rewrite report_on_june_10.
Defined.

Section Order.

Ltac month_cases m :=
  let Hc := fresh "Hc" in
  assert (Hc : m = 1 \/ m = 2 \/ m = 3 \/ m = 4 \/ m = 5 \/ m = 6 \/ m = 7
               \/ m = 8 \/ m = 9 \/ m = 10 \/ m = 11 \/ m = 12) by lia;
  repeat (destruct Hc as [Hc|Hc]); rewrite Hc in *.

(** The days before the next month, counting this month in full. *)
Lemma days_before_month_next (y m m' : Z) :
  1 <= m -> m < m' -> m' <= 12 ->
  _days_before_month y m + _days_in_month y m <= _days_before_month y m'.
Proof.
  intros H1 H2 H3. unfold _days_before_month, _days_in_month, table,
    _DAYS_BEFORE_MONTH, _DAYS_IN_MONTH.
  destruct (_is_leap y);
    month_cases m; month_cases m'; try lia;
    apply Z.leb_le; vm_compute; reflexivity.
Qed.

(** Earlier dates have smaller ordinals. *)
Lemma date_lt_toordinal (a b : date) :
  date_ok a -> date_ok b -> date_lt a b = true -> toordinal a < toordinal b.
Proof.
  intros Ha Hb Hlt.
  pose proof (toordinal_within_year a Ha) as Wa.
  pose proof (toordinal_within_year b Hb) as Wb.
  apply date_new_Ok in Ha, Hb.
  destruct Ha as (_ & Hya & Hma & Hda), Hb as (_ & Hyb & Hmb & Hdb).
  unfold date_lt in Hlt. apply orb_true_iff in Hlt.
  destruct Hlt as [Hy|Hlt].
  - apply Z.ltb_lt in Hy.
    pose proof (days_before_year_mono (year a + 1) (year b) ltac:(lia)). lia.
  - apply andb_true_iff in Hlt. destruct Hlt as [Hy Hlt].
    apply Z.eqb_eq in Hy. apply orb_true_iff in Hlt.
    unfold toordinal, _ymd2ord. rewrite Hy.
    destruct Hlt as [Hm|Hlt].
    + apply Z.ltb_lt in Hm.
      pose proof (days_before_month_next (year b) (month a) (month b)
                    ltac:(lia) Hm ltac:(lia)) as Hn.
      rewrite Hy in Hda. lia.
    + apply andb_true_iff in Hlt. destruct Hlt as [Hm Hd].
      apply Z.eqb_eq in Hm. apply Z.ltb_lt in Hd. rewrite Hm. lia.
Qed.

Lemma date_lt_false (a b : date) :
  date_lt a b = false -> a = b \/ date_lt b a = true.
Proof.
  destruct a as [ya ma da], b as [yb mb db]. unfold date_lt.
  cbn [year month day]. intros H.
  apply orb_false_iff in H. destruct H as [H1 H2].
  apply Z.ltb_ge in H1.
  destruct (Z.ltb_spec yb ya) as [L|G]; [now right|]. cbn [orb].
  assert (ya = yb) by lia. subst yb.
  rewrite Z.eqb_refl in *. cbn [andb] in *.
  apply orb_false_iff in H2. destruct H2 as [H2 H3].
  apply Z.ltb_ge in H2.
  destruct (Z.ltb_spec mb ma) as [L|G2]; [now right|]. cbn [orb].
  assert (ma = mb) by lia. subst mb.
  rewrite Z.eqb_refl in *. cbn [andb] in *.
  apply Z.ltb_ge in H3.
  destruct (Z.ltb_spec db da) as [L|G3]; [now right|].
  left. f_equal. lia.
Qed.

Lemma date_lt_irrefl (a : date) : date_lt a a = false.
Proof.
  unfold date_lt. rewrite !Z.ltb_irrefl, !Z.eqb_refl. reflexivity.
Qed.

End Order.

Section Anchoring.

Variable today : date.

Lemma report_record_anchored (acc acc' : list (string * list string))
    (r : RecordObj) (b : Field) (bd : date) :
  AddressBook.report_record today acc r = Ok acc' ->
  birthday r = Some b -> strptime_date (value b) = Ok bd ->
  date_ok (anchored today bd).
Proof.
  unfold AddressBook.report_record. intros H Hb Hp. rewrite Hb, Hp in H.
  cbn [rbind] in H.
  destruct (replace_year bd (year today)) as [x1|] eqn:E1; [|discriminate].
  cbn [rbind] in H.
  match type of H with
  | rbind ?m _ = _ => destruct m as [x|] eqn:E2; [|discriminate]
  end.
  assert (Hx : x = anchored today bd /\ date_ok x).
  { apply anchored_replace. unfold rbind. rewrite E1. exact E2. }
  destruct Hx as [<- Hx]. exact Hx.
Qed.

Lemma report_loop_anchored (ls : list loc)
    (acc res : list (string * list string)) (s s' : store) :
  AddressBook.report_loop today ls acc s = (Ok res, s') ->
  forall l r b bd,
    In l ls -> heap s !! l = Some r -> birthday r = Some b ->
    strptime_date (value b) = Ok bd -> date_ok (anchored today bd).
Proof.
  revert acc. induction ls as [|l0 ls IH]; intros acc H l r b bd Hin;
    [destruct Hin|].
  cbn [AddressBook.report_loop] in H. unfold bind at 1 in H.
  unfold get_record in H.
  destruct (heap s !! l0) as [r0|] eqn:Hr0; [|discriminate].
  unfold bind at 1 in H. unfold lift in H.
  destruct (AddressBook.report_record today acc r0) as [acc1|] eqn:E;
    [|discriminate].
  destruct Hin as [->|Hin].
  - intros Hr Hb Hp. assert (r0 = r) by congruence. subst r0.
    eapply report_record_anchored; eassumption.
  - eapply IH; eassumption.
Qed.

Lemma anchored_not_before (bd : date) :
  date_ok today -> date_ok (anchored today bd) -> 0 <= deltaDays today bd.
Proof.
  intros Ht Ha. unfold deltaDays. revert Ha. unfold anchored.
  destruct (date_lt _ today) eqn:E; intros Ha.
  - pose proof (toordinal_within_year _ Ha) as Wa.
    pose proof (toordinal_within_year _ Ht) as Wt.
    cbn [year] in Wa. lia.
  - apply date_lt_false in E. destruct E as [Heq|E]; [rewrite Heq; lia|].
    pose proof (date_lt_toordinal _ _ Ht Ha E). lia.
Qed.

Lemma anchored_same_day (bd : date) :
  month bd = month today -> day bd = day today -> anchored today bd = today.
Proof.
  intros Hm Hd. unfold anchored. rewrite Hm, Hd.
  replace (mkdate (year today) (month today) (day today)) with today
    by now destruct today.
  now rewrite date_lt_irrefl.
Qed.

End Anchoring.

(** X7. When the report returns, the anchored birthday of a contact of the
    address book is never before today: [deltaDays] is 0 or more. A contact
    whose birthday has the month and the day of today is 0 days away and is
    in the bucket of today, that of Monday when today is a Saturday or a
    Sunday. *)
Theorem report_looks_ahead (today : date) (s s' : store)
    (res : list (string * list string)) :
  date_ok today ->
  AddressBook.get_birthdays_per_week today s = (Ok res, s') ->
  forall k l r b bd,
    In (k, l) (data s) -> heap s !! l = Some r -> birthday r = Some b ->
    strptime_date (value b) = Ok bd ->
    0 <= deltaDays today bd
    /\ (month bd = month today -> day bd = day today ->
        deltaDays today bd = 0
        /\ In (value (name r)) (bucket (report_key today) res)).
Proof.
  intros Ht Hrun k l r b bd Hin Hr Hb Hp.
  assert (Hl : In l (dict.values (data s))).
  { unfold dict.values. change l with (snd (k, l)). now apply in_map. }
  assert (Ha : date_ok (anchored today bd)).
  { revert Hrun. unfold AddressBook.get_birthdays_per_week, bind at 1.
    unfold lift. destruct (add_days today 7); [|discriminate].
    unfold bind, get_data. intros Hrun.
    eapply report_loop_anchored; eassumption. }
  split; [now apply anchored_not_before|].
  intros Hm Hd.
  assert (H0 : deltaDays today bd = 0).
  { unfold deltaDays. rewrite anchored_same_day by assumption. lia. }
  split; [exact H0|].
  apply get_birthdays_per_week_Ok in Hrun.
  destruct Hrun as (_ & es & Hf & ->).
  destruct (filed_complete today s _ _ l r b Hf Hl Hr Hb) as (bd' & Hp' & Hc).
  assert (bd' = bd) by congruence. subst bd'.
  destruct (Hc ltac:(lia)) as (sh & Hs & Hin0).
  rewrite (report_key_weekday today sh); [now apply bucket_fold_file|].
  pose proof (weekday_add_sub today (anchored today bd) sh Hs) as W.
  rewrite (anchored_same_day today bd Hm Hd) in W. now symmetry.
Qed.

(** ** Order of the names in a bucket *)

Lemma bucket_fold_file_eq (es : list (string * string))
    (acc : list (string * list string)) (k : string) :
  bucket k (fold_left file_entry es acc)
  = (bucket k acc ++ map snd (List.filter (filed_under k) es))%list.
Proof.
  revert acc. induction es as [|[k0 n0] es IH]; intros acc.
  - cbn. now rewrite app_nil_r.
  - cbn [fold_left List.filter]. rewrite IH. unfold filed_under at 2.
    cbn [fst]. destruct (String.eqb_spec k0 k) as [->|N].
    + rewrite bucket_file_entry_eq. cbn [map snd]. now rewrite <- app_assoc.
    + rewrite bucket_file_entry_ne by congruence. reflexivity.
Qed.

Lemma sublist_map_filter {A B} (f : A -> bool) (g : A -> B) (l : list A) :
  sublist (map g (List.filter f l)) (map g l).
Proof.
  induction l as [|x l IH]; [constructor|]. cbn [List.filter map].
  destruct (f x); cbn [map]; [now apply sublist_skip|now apply sublist_cons].
Qed.

Lemma report_looks_ahead_witness :
  0 <= deltaDays june_10 (mkdate 2000 6 10)
  /\ deltaDays june_10 (mkdate 2000 6 10) = 0
  /\ In "Ann" (bucket (report_key june_10) [("Monday", ["Ann"])]).
Proof.
  destruct (report_looks_ahead june_10
              (mkStore [mkRecord (mkField "Ann") []
                          (Some (mkField "10.06.2000"))]
                 [("Ann", 0%nat)])
              (mkStore [mkRecord (mkField "Ann") []
                          (Some (mkField "10.06.2000"))]
                 [("Ann", 0%nat)])
              [("Monday", ["Ann"])] eq_refl eq_refl
              "Ann" 0%nat
              (mkRecord (mkField "Ann") [] (Some (mkField "10.06.2000")))
              (mkField "10.06.2000") (mkdate 2000 6 10)
              (or_introl eq_refl) eq_refl eq_refl eq_refl) as [H1 H2].
  split; [exact H1|]. apply H2; reflexivity.
Defined.

(** X8. In an address book that holds each key once, under the name of its
    record, the names of every bucket of the report come in the order in
    which the contacts were put into the book. *)
Theorem report_keeps_book_order (today : date) (s s' : store)
    (res : list (string * list string)) (day_ : string) :
  store_wf s ->
  AddressBook.get_birthdays_per_week today s = (Ok res, s') ->
  sublist (bucket day_ res) (dict.keys (data s)).
Proof.
  intros Hwf Hrun. apply get_birthdays_per_week_Ok in Hrun.
  destruct Hrun as (_ & es & Hf & ->).
  rewrite bucket_fold_file_eq. cbn [bucket dict.get app].
  rewrite <- (wf_names s Hwf).
  transitivity (map snd es); [apply sublist_map_filter|].
  now apply (filed_sublist today).
Qed.

Lemma report_keeps_book_order_witness :
  sublist (bucket "Monday" [("Wednesday", ["Ann"]); ("Monday", ["Bo"])])
    (dict.keys (data june_store)).
Proof.
  exact (report_keeps_book_order june_10 june_store june_store _ "Monday"
           june_store_wf report_on_june_10).
Defined.

(** ** A birthday on the 29th of February *)

Section LeapDay.

Variables (today : date) (s : store).
Hypothesis today_ok : date_ok today.

Lemma report_record_raises (acc : list (string * list string))
    (r : RecordObj) (e : exn) :
  AddressBook.report_record today acc r = Raise e -> is_ValueError e.
Proof using today_ok.
  unfold AddressBook.report_record.
  destruct (birthday r) as [b|]; [|discriminate].
  destruct (strptime_date (value b)) as [bd|e0] eqn:Ep; cbn [rbind].
  2:{ intros [= <-]. eapply strptime_date_raises, Ep. }
  destruct (replace_year bd (year today)) as [x1|e1] eqn:E1; cbn [rbind].
  2:{ intros [= <-]. eapply date_new_raises, E1. }
  match goal with
  | |- rbind ?m _ = _ -> _ => destruct m as [x|e2] eqn:E2; cbn [rbind]
  end.
  2:{ intros [= <-]. destruct (date_lt x1 today); [|discriminate].
      eapply date_new_raises, E2. }
  assert (Hx : x = anchored today bd /\ date_ok x).
  { apply anchored_replace. unfold rbind. rewrite E1. exact E2. }
  destruct Hx as [_ Hx].
  destruct (_ <? 7); [|discriminate].
  rewrite add_days_returns; [discriminate|].
  unfold sub_days.
  replace (toordinal today + (toordinal x - toordinal today))
    with (toordinal x) by lia.
  now apply toordinal_range.
Qed.

Hypothesis not_leap : _is_leap (year today) = false.

Lemma report_record_leap_day (acc : list (string * list string))
    (r : RecordObj) (b : Field) (bd : date) :
  birthday r = Some b -> strptime_date (value b) = Ok bd ->
  month bd = 2 -> day bd = 29 ->
  exists msg,
    AddressBook.report_record today acc r = Raise (ValueError msg).
Proof using today_ok not_leap.
  intros Hb Hp Hm Hd. unfold AddressBook.report_record.
  rewrite Hb, Hp. cbn [rbind].
  unfold replace_year, date_new. rewrite Hm, Hd.
  apply date_new_Ok in today_ok. destruct today_ok as (_ & Hy & _).
  unfold MINYEAR, MAXYEAR.
  replace ((1 <=? year today) && (year today <=? 9999)) with true
    by (symmetry; apply andb_true_iff; rewrite !Z.leb_le; lia).
  unfold _days_in_month. rewrite not_leap. cbn. eauto.
Qed.

Lemma report_loop_leap_day (ls : list loc)
    (acc : list (string * list string)) :
  (forall l, In l ls -> exists r, heap s !! l = Some r) ->
  (exists l r b bd,
     In l ls /\ heap s !! l = Some r /\ birthday r = Some b
     /\ strptime_date (value b) = Ok bd /\ month bd = 2 /\ day bd = 29) ->
  exists msg,
    AddressBook.report_loop today ls acc s = (Raise (ValueError msg), s).
Proof using today_ok not_leap.
  revert acc. induction ls as [|l0 ls IH]; intros acc Hall Hex.
  - destruct Hex as (l & _ & _ & _ & [] & _).
  - destruct (Hall l0 (or_introl eq_refl)) as [r0 Hr0].
    cbn [AddressBook.report_loop]. unfold bind at 1.
    rewrite (get_record_Some _ _ _ Hr0). unfold bind at 1. unfold lift.
    destruct (AddressBook.report_record today acc r0) as [acc1|e] eqn:E.
    + apply IH; [intros l Hl; apply Hall; now right|].
      destruct Hex as (l & r & b & bd & [->|Hin] & Hr & Hb & Hp & Hm & Hd).
      * assert (r0 = r) by congruence. subst r0.
        destruct (report_record_leap_day acc r b bd Hb Hp Hm Hd) as [m Em].
        rewrite Em in E. discriminate.
      * exists l, r, b, bd. repeat split; assumption.
    + apply report_record_raises in E. destruct E as [m ->]. eauto.
Qed.

End LeapDay.

(** X9. The report cannot move a birthday of the 29th of February to a year
    that is not a leap year: when today is in such a year and a contact of
    the address book has such a birthday, [get_birthdays_per_week] raises
    [ValueError], whatever the other contacts are. *)
Theorem report_raises_on_leap_day (today : date) (s : store)
    (k : string) (l : loc) (r : RecordObj) (b : Field) (bd : date) :
  date_ok today -> year today < 9999 -> _is_leap (year today) = false ->
  store_wf s ->
  In (k, l) (data s) -> heap s !! l = Some r -> birthday r = Some b ->
  strptime_date (value b) = Ok bd -> month bd = 2 -> day bd = 29 ->
  exists msg,
    AddressBook.get_birthdays_per_week today s
    = (Raise (ValueError msg), s).
Proof.
  intros Ht Hy Hleap [_ Hwf] Hin Hr Hb Hp Hm Hd.
  unfold AddressBook.get_birthdays_per_week, bind at 1. unfold lift.
  rewrite add_days_returns.
  2:{ pose proof (toordinal_within_year today Ht) as Hw.
      pose proof (toordinal_range today Ht) as Hrg.
      pose proof (days_before_year_mono (year today + 1) 9999 ltac:(lia)) as Hmn.
      change (_days_before_year 9999) with 3651694 in Hmn.
      unfold _MAXORDINAL in *. lia. }
  unfold bind, get_data. apply report_loop_leap_day; [exact Ht|exact Hleap| |].
  - intros l0 Hl0. unfold dict.values in Hl0. apply in_map_iff in Hl0.
    destruct Hl0 as ([k0 l1] & El & Hin0). cbn in El. subst l1.
    destruct (Hwf k0 l0 Hin0) as (r0 & Hr0 & _). eauto.
  - exists l, r, b, bd. repeat split; try assumption.
    unfold dict.values. change l with (snd (k, l)). now apply in_map.
Qed.

Lemma report_raises_on_leap_day_witness :
  exists msg,
    AddressBook.get_birthdays_per_week (mkdate 2023 6 10) leap_store
    = (Raise (ValueError msg), leap_store).
Proof.
  apply (report_raises_on_leap_day (mkdate 2023 6 10) leap_store
           "Eve" 0%nat
           (mkRecord (mkField "Eve") [] (Some (mkField "29.02.2020")))
           (mkField "29.02.2020") (mkdate 2020 2 29));
    try reflexivity.
  - apply reachable_inv.
    exists [Call_Record "Eve"; Call_add_birthday 0%nat "29.02.2020";
            Call_add_record 0%nat].
    reflexivity.
  - left. reflexivity.
Defined.

End Report.

(** ** Words of a line *)

Lemma chars_of_list (cs : list ascii) :
  Str.chars (string_of_list_ascii cs) = cs.
Proof. apply list_ascii_of_string_of_list_ascii. Qed.

Lemma string_of_chars (s : string) : string_of_list_ascii (Str.chars s) = s.
Proof. apply string_of_list_ascii_of_string. Qed.

Lemma word_of_rev (cur : list ascii) :
  cur <> [] -> no_space cur -> word (string_of_list_ascii (rev cur)).
Proof.
  intros Hne Hns. split.
  - intros H. apply (f_equal Str.chars) in H. rewrite chars_of_list in H.
    cbn in H. apply (f_equal (@rev ascii)) in H.
    rewrite rev_involutive in H. now apply Hne.
  - rewrite chars_of_list. intros c Hc. apply Hns. now apply in_rev.
Qed.

Lemma split_chars_words (cs cur : list ascii) :
  no_space cur -> Forall word (split_chars cur cs).
Proof.
  revert cur. induction cs as [|c cs IH]; intros cur Hcur;
    cbn [split_chars].
  - destruct cur as [|c0 cur]; [constructor|].
    constructor; [|constructor]. now apply word_of_rev.
  - destruct (Str.is_space c) eqn:E.
    + destruct cur as [|c0 cur]; [apply IH; intros ? []|].
      constructor; [now apply word_of_rev|]. apply IH. intros ? [].
    + apply IH. intros c' [<-|H]; [exact E|now apply Hcur].
Qed.

Lemma split_chars_letters (cs cur : list ascii) :
  no_space cur ->
  concat (map Str.chars (split_chars cur cs))
  = (rev cur ++ List.filter (fun c => negb (Str.is_space c)) cs)%list.
Proof.
  revert cur. induction cs as [|c cs IH]; intros cur Hcur;
    cbn [split_chars List.filter].
  - rewrite app_nil_r. destruct cur as [|c0 cur]; [reflexivity|].
    cbn [map concat]. now rewrite chars_of_list, app_nil_r.
  - destruct (Str.is_space c) eqn:E; cbn [negb].
    + destruct cur as [|c0 cur].
      * rewrite IH by (intros ? []). reflexivity.
      * cbn [map concat]. rewrite chars_of_list.
        rewrite IH by (intros ? []). reflexivity.
    + rewrite IH by (intros c' [<-|H]; [exact E|now apply Hcur]).
      cbn [rev]. now rewrite <- app_assoc.
Qed.

Lemma split_chars_nil (cs : list ascii) :
  split_chars [] cs = [] <-> forall c, In c cs -> Str.is_space c = true.
Proof.
  split.
  - intros H c Hc.
    pose proof (split_chars_letters cs [] ltac:(intros ? [])) as L.
    rewrite H in L. cbn in L.
    destruct (Str.is_space c) eqn:E; [reflexivity|].
    assert (Hin : In c (List.filter (fun c => negb (Str.is_space c)) cs)).
    { apply filter_In. split; [exact Hc|]. now rewrite E. }
    rewrite <- L in Hin. destruct Hin.
  - induction cs as [|c cs IH]; intros H; [reflexivity|].
    cbn [split_chars]. rewrite (H c (or_introl eq_refl)).
    apply IH. intros c' Hc'. apply H. now right.
Qed.

Lemma strip_word (w : string) : word w -> Str.strip w = w.
Proof.
  intros [Hne Hns]. unfold Str.strip.
  assert (Hl : forall cs, cs <> [] -> no_space cs ->
                          Str.lstrip_chars cs = cs).
  { intros [|c cs] H1 H2; [contradiction|]. cbn [Str.lstrip_chars].
    now rewrite (H2 c (or_introl eq_refl)). }
  assert (Hc : Str.chars w <> []).
  { intros H. apply Hne. rewrite <- (string_of_chars w). now rewrite H. }
  rewrite Hl by assumption. unfold Str.rstrip_chars.
  rewrite Hl.
  - rewrite rev_involutive. apply string_of_chars.
  - intros H. apply (f_equal (@rev ascii)) in H.
    rewrite rev_involutive in H. now apply Hc.
  - intros c Hin. apply Hns. now apply in_rev.
Qed.

(** X11. [parse_input] raises [ValueError] exactly on a line that is empty
    or made of whitespace only. On any other line it returns the first word
    in lower case and the other words; the words are not empty, hold no
    whitespace and, put end to end, are the line without its whitespace. *)
Theorem parse_input_words (user_input : string) :
  (blank user_input ->
   exists msg, Bot.parse_input user_input = Throw (Core (ValueError msg)))
  /\ (~ blank user_input ->
      exists cmd args,
        str_split user_input = cmd :: args
        /\ Bot.parse_input user_input = Return (str_lower cmd, args))
  /\ Forall word (str_split user_input)
  /\ concat (map Str.chars (str_split user_input))
     = List.filter (fun c => negb (Str.is_space c)) (Str.chars user_input).
Proof.
  unfold Bot.parse_input, str_split.
  pose proof (split_chars_words (Str.chars user_input) [] ltac:(intros ? []))
    as Hw.
  pose proof (split_chars_nil (Str.chars user_input)) as Hnil.
  split; [|split; [|split]].
  - intros Hb. unfold blank in Hb. apply Hnil in Hb. rewrite Hb. eauto.
  - intros Hnb.
    destruct (split_chars [] (Str.chars user_input)) as [|cmd args] eqn:E.
    + elim Hnb. unfold blank. now apply Hnil.
    + exists cmd, args. split; [reflexivity|].
      apply Forall_cons in Hw. destruct Hw as [Hcmd _].
      now rewrite (strip_word _ Hcmd).
  - exact Hw.
  - apply (split_chars_letters _ []). intros ? [].
Qed.

Lemma parse_input_words_witness :
  (exists msg, Bot.parse_input "   " = Throw (Core (ValueError msg)))
  /\ exists cmd args,
       str_split " ADD  Ann 0123456789" = cmd :: args
       /\ Bot.parse_input " ADD  Ann 0123456789"
          = Return (str_lower cmd, args).
Proof.
  split.
  - apply (proj1 (parse_input_words "   ")).
    intros c Hc. cbn in Hc.
    repeat (destruct Hc as [<-|Hc]; [reflexivity|]). contradiction.
  - apply (proj1 (proj2 (parse_input_words " ADD  Ann 0123456789"))).
    intros H. specialize (H "A"%char). cbn in H.
    assert (E : Str.is_space "A" = true) by (apply H; tauto).
    discriminate.
Defined.

(** ** The handlers *)

(** What the methods of a record can raise. *)
Lemma init_raises (n : string) (s s' : store) (e : exn) :
  Record_.__init__ n s = (Raise e, s') -> is_ValueError e /\ s' = s.
Proof.
  unfold Record_.__init__, bind, lift, Name.
  destruct (negb _); [|discriminate].
  intros [= <- <-]. split; [eexists; reflexivity|reflexivity].
Qed.

Lemma get_record_raises (l : loc) (s s' : store) (e : exn) :
  get_record l s = (Raise e, s') -> is_ValueError e /\ s' = s.
Proof.
  unfold get_record. destruct (heap s !! l); [discriminate|].
  intros [= <- <-]. split; [eexists; reflexivity|reflexivity].
Qed.

Lemma add_phone_raises (l : loc) (p : string) (s s' : store) (e : exn) :
  Record_.add_phone l p s = (Raise e, s') -> is_ValueError e /\ s' = s.
Proof.
  unfold Record_.add_phone, bind, lift, Phone.
  destruct (_ || _).
  - intros [= <- <-]. split; [eexists; reflexivity|reflexivity].
  - destruct (get_record l s) as [[r|e0] s0] eqn:E; [discriminate|].
    intros [= <- <-]. eapply get_record_raises, E.
Qed.

Lemma add_birthday_raises (l : loc) (b : string) (s s' : store) (e : exn) :
  Record_.add_birthday l b s = (Raise e, s') -> is_ValueError e /\ s' = s.
Proof.
  unfold Record_.add_birthday, bind, lift.
  destruct (Birthday b) as [f|e0] eqn:Eb.
  - destruct (get_record l s) as [[r|e1] s0] eqn:E; [discriminate|].
    intros [= <- <-]. eapply get_record_raises, E.
  - intros [= <- <-]. rewrite (Birthday_raises _ _ Eb).
    split; [eexists; reflexivity|reflexivity].
Qed.

Lemma add_record_raises (l : loc) (s s' : store) (e : exn) :
  AddressBook.add_record l s = (Raise e, s') -> is_ValueError e /\ s' = s.
Proof.
  unfold AddressBook.add_record, bind.
  destruct (get_record l s) as [[r|e0] s0] eqn:E; [discriminate|].
  intros [= <- <-]. eapply get_record_raises, E.
Qed.

Lemma edit_phone_loop_raises_ValueError (l : loc) (o p : string) (n i : nat)
    (s s' : store) (e : exn) :
  Record_.edit_phone_loop l o p i n s = (Raise e, s') -> is_ValueError e.
Proof.
  revert i s. induction n as [|n IH]; intros i s; [discriminate|].
  cbn [Record_.edit_phone_loop]. unfold bind at 1.
  destruct (get_record l s) as [[r|e0] s0] eqn:E.
  2:{ intros [= <- <-]. eapply get_record_raises, E. }
  unfold get_record in E. destruct (heap s !! l); [|discriminate].
  injection E as -> <-.
  destruct (phones r !! i) as [q|]; [|discriminate].
  unfold bind at 1.
  destruct (String.eqb (value q) o).
  - destruct (negb _).
    + intros [= <- <-]. eexists; reflexivity.
    + unfold Record_.set_phone_value, bind at 1.
      destruct (get_record l s) as [[r1|e1] s1] eqn:E1.
      * unfold set_record. apply IH.
      * intros [= <- <-]. eapply get_record_raises, E1.
  - apply IH.
Qed.

Lemma edit_phone_raises_ValueError (l : loc) (o p : string)
    (s s' : store) (e : exn) :
  Record_.edit_phone l o p s = (Raise e, s') -> is_ValueError e.
Proof.
  unfold Record_.edit_phone, bind.
  destruct (get_record l s) as [[r|e0] s0] eqn:E.
  - apply edit_phone_loop_raises_ValueError.
  - intros [= <- <-]. eapply get_record_raises, E.
Qed.

Lemma input_error_answers (func : Cmd (option string)) (s : store) :
  throws_caught func ->
  exists x s', Bot.input_error func s = (Return x, s').
Proof.
  intros H. unfold Bot.input_error.
  destruct (func s) as [[x|e] s'] eqn:E; [eauto|].
  destruct (H _ _ _ E) as [[m ->]|[[m ->]|[m ->]]]; eauto.
Qed.

Lemma throws_caught_bind {A B} (m : Cmd A) (k : A -> Cmd B) :
  throws_caught m -> (forall a, throws_caught (k a)) ->
  throws_caught (cbind m k).
Proof.
  intros Hm Hk s e s'. unfold cbind.
  destruct (m s) as [[a|e0] s0] eqn:E.
  - apply Hk.
  - intros [= <- <-]. eapply Hm, E.
Qed.

Lemma throws_caught_ret {A} (a : A) : throws_caught (cret a).
Proof. intros s e s'. discriminate. Qed.

Lemma throws_caught_of_M {A} (m : M A) :
  (forall s e s', m s = (Raise e, s') -> is_ValueError e) ->
  throws_caught (of_M m).
Proof.
  intros H s e s'. unfold of_M.
  destruct (m s) as [[a|e0] s0] eqn:E; [discriminate|].
  intros [= <- <-]. left. destruct (H _ _ _ E) as [msg ->]. eauto.
Qed.

Lemma throws_caught_return_str (body : Cmd (option string)) :
  throws_caught body -> throws_caught (Bot.return_str_of_ValueError body).
Proof.
  intros H s e s'. unfold Bot.return_str_of_ValueError.
  destruct (body s) as [[x|e0] s0] eqn:E; [discriminate|].
  destruct e0 as [[m|m]|m|m|m|]; try discriminate;
    intros [= <- <-]; eapply H, E.
Qed.

Lemma throws_caught_unpack2 (args : list string) :
  throws_caught (Bot.unpack2 args).
Proof.
  intros s e s'. unfold Bot.unpack2.
  destruct args as [|a [|b [|c args]]]; try discriminate;
    intros [= <- <-]; left; eauto.
Qed.

Lemma throws_caught_index0 {A} (l : list A) : throws_caught (Bot.index0 l).
Proof.
  intros s e s'. unfold Bot.index0. destruct l; [|discriminate].
  intros [= <- <-]. right. right. eauto.
Qed.

Lemma throws_caught_find (n : string) :
  throws_caught (of_M (AddressBook.find n)).
Proof. apply throws_caught_of_M. intros s e s'. discriminate. Qed.

Lemma throws_caught_get_record (l : loc) : throws_caught (of_M (get_record l)).
Proof.
  apply throws_caught_of_M. intros s e s' H.
  eapply get_record_raises, H.
Qed.

Lemma throws_caught_str_records (ls : list loc) :
  throws_caught (Bot.str_records ls).
Proof.
  induction ls as [|l ls IH]; cbn [Bot.str_records].
  - apply throws_caught_ret.
  - apply throws_caught_bind; [apply throws_caught_get_record|]. intros r.
    apply throws_caught_bind; [exact IH|]. intros lines.
    apply throws_caught_ret.
Qed.

Lemma throws_caught_KeyError {A} (m : string) :
  throws_caught (@cthrow A (KeyError m)).
Proof. intros s e s' [= <- <-]. right. left. eauto. Qed.

Ltac caught_steps :=
  repeat first
    [ apply throws_caught_ret
    | apply throws_caught_KeyError
    | apply throws_caught_unpack2
    | apply throws_caught_index0
    | apply throws_caught_find
    | apply throws_caught_get_record
    | apply throws_caught_str_records
    | apply throws_caught_return_str
    | match goal with
      | |- throws_caught (cbind _ _) => apply throws_caught_bind; [|intros ?]
      | |- throws_caught (of_M _) =>
          apply throws_caught_of_M; intros ? ? ? ?
      end
    | match goal with
      | |- throws_caught (let (_, _) := ?p in _) => destruct p
      | |- throws_caught (match ?x with _ => _ end) => destruct x
      end ].

Lemma returns_str_bind {A} (m : Cmd A) (k : A -> Cmd (option string)) :
  (forall a, returns_str (k a)) -> returns_str (cbind m k).
Proof.
  intros Hk s x s'. unfold cbind.
  destruct (m s) as [[a|e0] s0]; [apply Hk|discriminate].
Qed.

Lemma returns_str_ret (x : string) : returns_str (cret (Some x)).
Proof. intros s y s' [= <- <-]. discriminate. Qed.

Lemma returns_str_throw (e : pyexn) : returns_str (cthrow e).
Proof. intros s y s'. discriminate. Qed.

Lemma returns_str_return_str (body : Cmd (option string)) :
  returns_str body -> returns_str (Bot.return_str_of_ValueError body).
Proof.
  intros H s x s'. unfold Bot.return_str_of_ValueError.
  destruct (body s) as [[y|e0] s0] eqn:E.
  - intros [= <- <-]. eapply H, E.
  - destruct e0 as [[m|m]|m|m|m|]; try discriminate.
    intros [= <- <-]. discriminate.
Qed.

Lemma input_error_returns_str (func : Cmd (option string)) (s : store) :
  throws_caught func -> returns_str func ->
  exists x s', Bot.input_error func s = (Return (Some x), s').
Proof.
  intros Hc Hr. unfold Bot.input_error.
  destruct (func s) as [[x|e] s'] eqn:E.
  - destruct x as [x|]; [eauto|]. elim (Hr _ _ _ E). reflexivity.
  - destruct (Hc _ _ _ E) as [[m ->]|[[m ->]|[m ->]]]; eauto.
Qed.

Ltac str_steps :=
  repeat first
    [ apply returns_str_ret
    | apply returns_str_throw
    | apply returns_str_return_str
    | match goal with
      | |- returns_str (cbind _ _) => apply returns_str_bind; intros ?
      | |- returns_str (let (_, _) := ?p in _) => destruct p
      | |- returns_str (match ?x with _ => _ end) => destruct x
      end ].

Lemma add_contact_answers (args : list string) (s : store) :
  exists x s', Bot.add_contact args s = (Return (Some x), s').
Proof.
  unfold Bot.add_contact.
  apply input_error_returns_str; [caught_steps|str_steps].
  - eapply init_raises; eassumption.
  - eapply add_phone_raises; eassumption.
  - eapply add_record_raises; eassumption.
Qed.

Lemma change_contact_answers (args : list string) (s : store) :
  exists x s', Bot.change_contact args s = (Return x, s').
Proof.
  unfold Bot.change_contact. apply input_error_answers. caught_steps.
  eapply edit_phone_raises_ValueError; eassumption.
Qed.

Lemma show_phone_answers (args : list string) (s : store) :
  exists x s', Bot.show_phone args s = (Return (Some x), s').
Proof.
  unfold Bot.show_phone.
  apply input_error_returns_str; [caught_steps|str_steps].
Qed.

Lemma show_all_answers (s : store) :
  exists x s', Bot.show_all s = (Return (Some x), s').
Proof.
  unfold Bot.show_all.
  apply input_error_returns_str; [caught_steps|str_steps]. discriminate.
Qed.

Lemma add_birthday_answers (args : list string) (s : store) :
  exists x s', Bot.add_birthday args s = (Return (Some x), s').
Proof.
  unfold Bot.add_birthday.
  apply input_error_returns_str; [caught_steps|str_steps].
  eapply add_birthday_raises; eassumption.
Qed.

Lemma show_birthday_answers (args : list string) (s : store) :
  exists x s', Bot.show_birthday args s = (Return (Some x), s').
Proof.
  unfold Bot.show_birthday.
  apply input_error_returns_str; [caught_steps|str_steps].
Qed.

(** X12. The decorated handlers never raise: whatever the arguments and the
    store, each of them returns, for the decorator answers every exception
    their bodies can throw. All but [change_contact] return a [str];
    [change_contact] may return [None]. *)
Theorem handlers_always_answer (args : list string) (s : store) :
  (exists x s', Bot.add_contact args s = (Return (Some x), s'))
  /\ (exists x s', Bot.change_contact args s = (Return x, s'))
  /\ (exists x s', Bot.show_phone args s = (Return (Some x), s'))
  /\ (exists x s', Bot.show_all s = (Return (Some x), s'))
  /\ (exists x s', Bot.add_birthday args s = (Return (Some x), s'))
  /\ (exists x s', Bot.show_birthday args s = (Return (Some x), s')).
Proof.
  split; [apply add_contact_answers|].
  split; [apply change_contact_answers|].
  split; [apply show_phone_answers|].
  split; [apply show_all_answers|].
  split; [apply add_birthday_answers|apply show_birthday_answers].
Qed.

(** ** The commands, one by one *)

Lemma Name_not_blank (v : string) : ~ blank v -> Name v = Ok (mkField v).
Proof.
  intros H. unfold Name, Str.truthy.
  destruct (String.eqb_spec (Str.strip v) "") as [E|N]; [|reflexivity].
  apply strip_empty_iff in E. contradiction.
Qed.

Lemma Name_blank (v : string) : blank v -> Name v = Raise InvalidName.
Proof.
  intros H. unfold Name, Str.truthy. apply strip_empty_iff in H.
  now rewrite H.
Qed.

Lemma Phone_refuses (v : string) :
  Str.isdigit v = false \/ String.length v <> 10%nat ->
  Phone v = Raise InvalidPhone.
Proof.
  intros H. unfold Phone.
  destruct (Str.isdigit v) eqn:Hd; [|reflexivity].
  destruct H as [H|H]; [discriminate|]. cbn [negb orb].
  destruct (Z.eqb_spec (Str.len v) 10) as [E|E]; [|reflexivity].
  exfalso. apply H. unfold Str.len in E. lia.
Qed.

Lemma Birthday_lenient (v : string) :
  lenient_date v -> Birthday v = Ok (mkField v).
Proof.
  intros H. apply strptime_date_accepts in H. destruct H as [bd H].
  unfold Birthday. now rewrite H.
Qed.

Lemma Birthday_not_lenient (v : string) :
  ~ lenient_date v -> Birthday v = Raise InvalidDate.
Proof.
  intros H. destruct (Birthday v) as [f|e] eqn:E.
  - apply Birthday_Ok_lenient in E. tauto.
  - apply Birthday_raises in E. now subst.
Qed.

Lemma len_length (v : string) : Str.len v = Z.of_nat (String.length v).
Proof. reflexivity. Qed.

Lemma insert_last {A} (l : list A) (x y : A) :
  <[List.length l := y]> (l ++ [x])%list = (l ++ [y])%list.
Proof.
  induction l as [|a l IH]; [reflexivity|].
  cbn. f_equal. exact IH.
Qed.

Lemma lookup_last {A} (l : list A) (x : A) :
  (l ++ [x])%list !! List.length l = Some x.
Proof. induction l as [|a l IH]; [reflexivity|exact IH]. Qed.

Lemma find_run (n : string) (s : store) :
  of_M (AddressBook.find n) s = (Return (dict.get n (data s)), s).
Proof. reflexivity. Qed.

Lemma of_M_get_record (s : store) (l : loc) (r : RecordObj) :
  heap s !! l = Some r -> of_M (get_record l) s = (Return r, s).
Proof. intros H. unfold of_M. now rewrite (get_record_Some _ _ _ H). Qed.

(** The evaluation of a handler: the binds are unfolded from the outside. *)
Ltac run :=
  unfold Bot.input_error, Bot.return_str_of_ValueError;
  repeat (unfold cbind at 1; cbn [Bot.unpack2 Bot.index0 cret cthrow];
          try rewrite find_run).

Lemma add_contact_run (s : store) (n p : string) :
  ~ blank n -> Str.isdigit p = true -> String.length p = 10%nat ->
  Bot.add_contact [n; p] s
  = (Return (Some "Contact added."),
     mkStore (heap s ++ [mkRecord (mkField n) [mkField p] None])
       (dict.set n (List.length (heap s)) (data s))).
Proof.
  intros Hn Hd Hl. unfold Bot.add_contact. run.
  unfold of_M, Record_.__init__, Record_.add_phone, AddressBook.add_record,
    bind, lift, alloc, get_record, set_record, get_data, set_data.
  rewrite (Name_not_blank _ Hn), (Phone_Ok _ Hd Hl).
  cbn [heap data]. rewrite lookup_last. cbn [heap data name phones birthday].
  rewrite insert_last, lookup_last. reflexivity.
Qed.

Lemma show_phone_run (s : store) (n : string) (rest : list string)
    (l : loc) (r : RecordObj) :
  dict.get n (data s) = Some l -> heap s !! l = Some r ->
  Bot.show_phone (n :: rest) s
  = (Return (Some match phones r with
                  | first :: _ => value first
                  | [] => "No phone number set for this contact."
                  end), s).
Proof.
  intros Hg Hr. unfold Bot.show_phone. run. rewrite Hg.
  unfold cbind. rewrite (of_M_get_record _ _ _ Hr).
  now destruct (phones r).
Qed.

Lemma show_birthday_run (s : store) (n : string) (rest : list string)
    (l : loc) (r : RecordObj) :
  dict.get n (data s) = Some l -> heap s !! l = Some r ->
  Bot.show_birthday (n :: rest) s
  = (Return (Some match birthday r with
                  | Some b => value b
                  | None => "No birthday set for this contact."
                  end), s).
Proof.
  intros Hg Hr. unfold Bot.show_birthday. run. rewrite Hg.
  unfold cbind. rewrite (of_M_get_record _ _ _ Hr).
  now destruct (birthday r).
Qed.

(** X13. [add_contact] with a name that is not blank and a phone of 10
    digits answers "Contact added." and puts a new record under the name,
    with that one phone and no birthday, also when the book had a contact of
    that name, whose phones and birthday are then no longer shown: [phone]
    gives the phone just added and [show-birthday] finds no birthday. *)
Theorem add_contact_adds_a_fresh_record (s : store) (n p : string) :
  ~ blank n -> Str.isdigit p = true -> String.length p = 10%nat ->
  exists s1,
    Bot.add_contact [n; p] s = (Return (Some "Contact added."), s1)
    /\ s1 = mkStore (heap s ++ [mkRecord (mkField n) [mkField p] None])
              (dict.set n (List.length (heap s)) (data s))
    /\ (forall rest, Bot.show_phone (n :: rest) s1 = (Return (Some p), s1))
    /\ (forall rest,
          Bot.show_birthday (n :: rest) s1
          = (Return (Some "No birthday set for this contact."), s1)).
Proof.
  intros Hn Hd Hl. eexists. split; [now apply add_contact_run|].
  split; [reflexivity|].
  split; intros rest.
  - apply (show_phone_run _ n rest (List.length (heap s))
             (mkRecord (mkField n) [mkField p] None));
      [apply dict_get_set_eq | apply lookup_last].
  - apply (show_birthday_run _ n rest (List.length (heap s))
             (mkRecord (mkField n) [mkField p] None));
      [apply dict_get_set_eq | apply lookup_last].
Qed.

Lemma add_contact_adds_a_fresh_record_witness :
  exists s1,
    Bot.add_contact ["Bo"; "0123456789"] twice_store
    = (Return (Some "Contact added."), s1)
    /\ s1 = mkStore (heap twice_store
                     ++ [mkRecord (mkField "Bo") [mkField "0123456789"] None])
              (dict.set "Bo" (List.length (heap twice_store))
                 (data twice_store))
    /\ (forall rest,
          Bot.show_phone ("Bo" :: rest) s1
          = (Return (Some "0123456789"), s1))
    /\ (forall rest,
          Bot.show_birthday ("Bo" :: rest) s1
          = (Return (Some "No birthday set for this contact."), s1)).
Proof.
  apply (add_contact_adds_a_fresh_record twice_store "Bo" "0123456789").
  - intros H. specialize (H "B"%char). cbn in H.
    assert (E : false = true) by (apply H; now left). discriminate.
  - reflexivity.
  - reflexivity.
Defined.

Lemma unpack2_not_two (args : list string) (s : store) :
  (forall a b, args <> [a; b]) ->
  exists m, Bot.unpack2 args s = (Throw (Core (ValueError m)), s).
Proof.
  intros H. destruct args as [|a [|b [|c args]]]; cbn; eauto.
  now elim (H a b).
Qed.

Lemma add_contact_not_two (s : store) (args : list string) :
  (forall a b, args <> [a; b]) ->
  Bot.add_contact args s = (Return (Some Bot.message_ValueError), s).
Proof.
  intros H. destruct (unpack2_not_two args s H) as [m E].
  unfold Bot.add_contact, Bot.input_error, cbind. now rewrite E.
Qed.

Lemma add_contact_blank (s : store) (n p : string) :
  blank n ->
  Bot.add_contact [n; p] s = (Return (Some "Name cannot be empty."), s).
Proof.
  intros Hn. unfold Bot.add_contact. run.
  unfold of_M, Record_.__init__, bind, lift.
  now rewrite (Name_blank _ Hn).
Qed.

Lemma add_contact_bad_phone (s : store) (n p : string) :
  ~ blank n ->
  Str.isdigit p = false \/ String.length p <> 10%nat ->
  Bot.add_contact [n; p] s
  = (Return (Some "Invalid phone number. Please enter 10 digits."),
     mkStore (heap s ++ [mkRecord (mkField n) [] None]) (data s)).
Proof.
  intros Hn Hp. unfold Bot.add_contact. run.
  unfold of_M, Record_.__init__, Record_.add_phone, bind, lift, alloc.
  now rewrite (Name_not_blank _ Hn), (Phone_refuses _ Hp).
Qed.

(** X14. What [add_contact] refuses: anything but two arguments gets the
    answer of the decorator, a blank name and a phone that is not 10 digits
    get the message of their class; the book holds the contacts it held.
    After a refused phone the record made for the name stays in the store,
    in no book. *)
Theorem add_contact_refuses (s : store) :
  (forall args, (forall a b, args <> [a; b]) ->
     Bot.add_contact args s = (Return (Some Bot.message_ValueError), s))
  /\ (forall n p, blank n ->
        Bot.add_contact [n; p] s
        = (Return (Some "Name cannot be empty."), s))
  /\ (forall n p, ~ blank n ->
        Str.isdigit p = false \/ String.length p <> 10%nat ->
        Bot.add_contact [n; p] s
        = (Return (Some "Invalid phone number. Please enter 10 digits."),
           mkStore (heap s ++ [mkRecord (mkField n) [] None]) (data s))).
Proof.
  split; [|split].
  - intros args. apply add_contact_not_two.
  - intros n p. apply add_contact_blank.
  - intros n p. apply add_contact_bad_phone.
Qed.

Lemma not_blank_letter (c : ascii) (v : string) :
  Str.is_space c = false -> ~ blank (String c v).
Proof.
  intros Hc H. specialize (H c). cbn in H. rewrite Hc in H.
  assert (E : false = true) by (apply H; now left). discriminate.
Qed.

Lemma add_contact_refuses_witness :
  Bot.add_contact ["Bo"] twice_store
  = (Return (Some Bot.message_ValueError), twice_store)
  /\ Bot.add_contact [" "; "0123456789"] twice_store
     = (Return (Some "Name cannot be empty."), twice_store)
  /\ Bot.add_contact ["Al"; "12345"] twice_store
     = (Return (Some "Invalid phone number. Please enter 10 digits."),
        mkStore (heap twice_store ++ [mkRecord (mkField "Al") [] None])
          (data twice_store)).
Proof.
  destruct (add_contact_refuses twice_store) as (H1 & H2 & H3).
  split; [|split].
  - apply H1. intros a b. discriminate.
  - apply H2. intros c [<-|[]]. reflexivity.
  - apply H3; [now apply not_blank_letter | right; cbn; lia].
Defined.

Lemma edit_phone_run_ok (s : store) (l : loc) (r : RecordObj)
    (old new : string) :
  heap s !! l = Some r -> String.length new = 10%nat ->
  Record_.edit_phone l old new s
  = (Ok tt,
     with_record s l
       (mkRecord (name r) (map (edit_one old new) (phones r)) (birthday r))).
Proof.
  intros Hr Hl. unfold Record_.edit_phone, bind.
  rewrite (get_record_Some _ _ _ Hr).
  rewrite (edit_phone_loop_ok l old new _ 0%nat s r);
    [reflexivity| |exact Hr|reflexivity].
  rewrite len_length, Hl. reflexivity.
Qed.

Lemma edit_phone_run_raises (s : store) (l : loc) (r : RecordObj)
    (new : string) (first : Field) (rest : list Field) :
  heap s !! l = Some r -> phones r = first :: rest ->
  String.length new <> 10%nat ->
  Record_.edit_phone l (value first) new s = (Raise InvalidPhone, s).
Proof.
  intros Hr Hp Hl. unfold Record_.edit_phone, bind.
  rewrite (get_record_Some _ _ _ Hr).
  apply (edit_phone_loop_raises l (value first) new _ 0%nat s r);
    [|exact Hr|reflexivity|].
  - rewrite len_length. lia.
  - exists 0%nat, first. rewrite Hp. repeat split. lia.
Qed.

Lemma map_edit_one_values (old new : string) (ps : list Field) :
  map value (map (edit_one old new) ps) = replace_all old new (map value ps).
Proof.
  induction ps as [|p ps IH]; [reflexivity|].
  cbn [map replace_all]. rewrite IH. unfold edit_one.
  now destruct (String.eqb (value p) old).
Qed.

Section Found.

Variables (s : store) (n : string) (l : loc) (r : RecordObj).
Hypothesis in_book : dict.get n (data s) = Some l.
Hypothesis in_store : heap s !! l = Some r.

Lemma change_contact_no_phones (p : string) :
  phones r = [] ->
  Bot.change_contact [n; p] s
  = (Return (Some "Invalid command format."), s).
Proof using in_book in_store.
  intros Hp. unfold Bot.change_contact. run. rewrite in_book.
  unfold Bot.return_str_of_ValueError, cbind.
  rewrite (of_M_get_record _ _ _ in_store), Hp. reflexivity.
Qed.

Lemma change_contact_ok (p : string) (first : Field) (rest : list Field) :
  phones r = first :: rest -> String.length p = 10%nat ->
  Bot.change_contact [n; p] s
  = (Return (Some "Contact updated."),
     with_record s l
       (mkRecord (name r) (map (edit_one (value first) p) (phones r))
          (birthday r))).
Proof using in_book in_store.
  intros Hp Hl. unfold Bot.change_contact. run. rewrite in_book.
  unfold Bot.return_str_of_ValueError, cbind.
  rewrite (of_M_get_record _ _ _ in_store), Hp. cbn [Bot.index0 cret].
  unfold of_M. rewrite (edit_phone_run_ok _ _ _ _ _ in_store Hl).
  now rewrite Hp.
Qed.

Lemma change_contact_bad_length (p : string) (first : Field)
    (rest : list Field) :
  phones r = first :: rest -> String.length p <> 10%nat ->
  Bot.change_contact [n; p] s
  = (Return (Some "Invalid phone number. Please enter 10 digits."), s).
Proof using in_book in_store.
  intros Hp Hl. unfold Bot.change_contact. run. rewrite in_book.
  unfold Bot.return_str_of_ValueError, cbind.
  rewrite (of_M_get_record _ _ _ in_store), Hp. cbn [Bot.index0 cret].
  unfold of_M. rewrite (edit_phone_run_raises _ _ _ _ _ _ in_store Hp Hl).
  reflexivity.
Qed.

Lemma add_birthday_ok (b : string) :
  lenient_date b ->
  Bot.add_birthday [n; b] s
  = (Return (Some "Birthday added."),
     with_record s l (mkRecord (name r) (phones r) (Some (mkField b)))).
Proof using in_book in_store.
  intros Hb. unfold Bot.add_birthday. run. rewrite in_book.
  unfold Bot.return_str_of_ValueError, cbind, of_M,
    Record_.add_birthday, bind, lift.
  rewrite (Birthday_lenient _ Hb), (get_record_Some _ _ _ in_store).
  reflexivity.
Qed.

Lemma add_birthday_bad (b : string) :
  ~ lenient_date b ->
  Bot.add_birthday [n; b] s
  = (Return (Some "Invalid date format. Please use DD.MM.YYYY."), s).
Proof using in_book.
  intros Hb. unfold Bot.add_birthday. run. rewrite in_book.
  unfold Bot.return_str_of_ValueError, cbind, of_M,
    Record_.add_birthday, bind, lift.
  now rewrite (Birthday_not_lenient _ Hb).
Qed.

End Found.

(** X15. [change_contact] of a contact of the book: with a new phone of 10
    characters, digits or not, it answers "Contact updated." and writes the
    new phone over the first phone of the contact and over every later phone
    equal to it; with another length it answers the message of [Phone] and
    changes nothing; a contact without phones gets "Invalid command
    format.". *)
Theorem change_contact_rewrites_first_phone
    (s : store) (n p : string) (l : loc) (r : RecordObj) :
  dict.get n (data s) = Some l -> heap s !! l = Some r ->
  (phones r = [] ->
   Bot.change_contact [n; p] s
   = (Return (Some "Invalid command format."), s))
  /\ (forall first rest, phones r = first :: rest ->
        (String.length p = 10%nat ->
         exists r',
           Bot.change_contact [n; p] s
           = (Return (Some "Contact updated."), with_record s l r')
           /\ phone_values r'
              = p :: replace_all (value first) p (map value rest)
           /\ name r' = name r /\ birthday r' = birthday r)
        /\ (String.length p <> 10%nat ->
            Bot.change_contact [n; p] s
            = (Return (Some "Invalid phone number. Please enter 10 digits."),
               s))).
Proof.
  intros Hg Hr. split; [|intros first rest Hp; split].
  - now apply (change_contact_no_phones s n l r).
  - intros Hl. eexists. split; [|split; [|split]].
    + now apply (change_contact_ok s n l r Hg Hr p first rest).
    + unfold phone_values. cbn [phones]. rewrite map_edit_one_values, Hp.
      cbn [map replace_all]. now rewrite String.eqb_refl.
    + reflexivity.
    + reflexivity.
  - now apply (change_contact_bad_length s n l r Hg Hr p first rest).
Qed.

Lemma change_contact_rewrites_first_phone_witness :
  (phones (mkRecord (mkField "Bo")
             [mkField "0123456789"; mkField "0123456789"] None) = [] ->
   Bot.change_contact ["Bo"; "abcdefghij"] twice_store
   = (Return (Some "Invalid command format."), twice_store))
  /\ (exists r',
        Bot.change_contact ["Bo"; "abcdefghij"] twice_store
        = (Return (Some "Contact updated."), with_record twice_store 0 r')
        /\ phone_values r' = ["abcdefghij"; "abcdefghij"]).
Proof.
  destruct (change_contact_rewrites_first_phone twice_store "Bo" "abcdefghij"
              0%nat
              (mkRecord (mkField "Bo")
                 [mkField "0123456789"; mkField "0123456789"] None)
              eq_refl eq_refl) as [H0 H1].
  split; [exact H0|].
  destruct (H1 (mkField "0123456789") [mkField "0123456789"] eq_refl)
    as [Hok _].
  destruct (Hok eq_refl) as (r' & E & Hv & _).
  exists r'. split; [exact E | exact Hv].
Defined.

(** X16. [add_birthday] of a contact of the book: a date the parser accepts
    is kept as it was typed and [show_birthday] gives it back, the name and
    the phones staying; any other text gets the message of [Birthday] and
    changes nothing. *)
Theorem add_birthday_then_show_birthday
    (s : store) (n b : string) (l : loc) (r : RecordObj) :
  dict.get n (data s) = Some l -> heap s !! l = Some r ->
  (lenient_date b ->
   let s1 := with_record s l (mkRecord (name r) (phones r) (Some (mkField b)))
   in Bot.add_birthday [n; b] s = (Return (Some "Birthday added."), s1)
      /\ forall rest, Bot.show_birthday (n :: rest) s1 = (Return (Some b), s1))
  /\ (~ lenient_date b ->
      Bot.add_birthday [n; b] s
      = (Return (Some "Invalid date format. Please use DD.MM.YYYY."), s)).
Proof.
  intros Hg Hr. split.
  - intros Hb. split.
    + now apply add_birthday_ok.
    + intros rest.
      apply (show_birthday_run _ n rest l
               (mkRecord (name r) (phones r) (Some (mkField b))));
        [exact Hg | eapply with_record_lookup, Hr].
  - now apply (add_birthday_bad s n l).
Qed.

Lemma change_contact_missing (s : store) (n p : string) :
  dict.get n (data s) = None ->
  Bot.change_contact [n; p] s = (Return None, s).
Proof. intros Hg. unfold Bot.change_contact. run. now rewrite Hg. Qed.

Lemma add_birthday_missing (s : store) (n b : string) :
  dict.get n (data s) = None ->
  Bot.add_birthday [n; b] s = (Return (Some "Contact not found."), s).
Proof. intros Hg. unfold Bot.add_birthday. run. now rewrite Hg. Qed.

(** X17. A name the book does not hold: [show_phone], [add_birthday] and
    [show_birthday] answer "Contact not found."; [change_contact] answers
    nothing, it returns [None]. The store stays as it is. *)
Theorem commands_on_a_missing_contact (s : store) (n x : string)
    (rest : list string) :
  dict.get n (data s) = None ->
  Bot.show_phone (n :: rest) s = (Return (Some "Contact not found."), s)
  /\ Bot.add_birthday [n; x] s = (Return (Some "Contact not found."), s)
  /\ Bot.show_birthday (n :: rest) s = (Return (Some "Contact not found."), s)
  /\ Bot.change_contact [n; x] s = (Return None, s).
Proof.
  intros Hg. split; [|split; [|split]].
  - unfold Bot.show_phone. run. now rewrite Hg.
  - now apply add_birthday_missing.
  - unfold Bot.show_birthday. run. now rewrite Hg.
  - now apply change_contact_missing.
Qed.

Lemma commands_on_a_missing_contact_witness :
  Bot.show_phone ["Al"] twice_store
  = (Return (Some "Contact not found."), twice_store)
  /\ Bot.add_birthday ["Al"; "01.02.2000"] twice_store
     = (Return (Some "Contact not found."), twice_store)
  /\ Bot.show_birthday ["Al"] twice_store
     = (Return (Some "Contact not found."), twice_store)
  /\ Bot.change_contact ["Al"; "01.02.2000"] twice_store
     = (Return None, twice_store).
Proof.
  apply (commands_on_a_missing_contact twice_store "Al" "01.02.2000" []).
  reflexivity.
Defined.

Lemma change_contact_not_two (s : store) (args : list string) :
  (forall a b, args <> [a; b]) ->
  Bot.change_contact args s = (Return (Some Bot.message_ValueError), s).
Proof.
  intros H. destruct (unpack2_not_two args s H) as [m E].
  unfold Bot.change_contact, Bot.input_error, cbind. now rewrite E.
Qed.

Lemma add_birthday_not_two (s : store) (args : list string) :
  (forall a b, args <> [a; b]) ->
  Bot.add_birthday args s = (Return (Some Bot.message_ValueError), s).
Proof.
  intros H. destruct (unpack2_not_two args s H) as [m E].
  unfold Bot.add_birthday, Bot.input_error, cbind. now rewrite E.
Qed.

(** X18. The wrong number of arguments: [change_contact] and [add_birthday]
    with anything but two get the answer of the decorator for [ValueError],
    before the book is looked at; [show_phone] and [show_birthday] without
    an argument get "Invalid command format.". The store stays as it is. *)
Theorem commands_with_wrong_arity (s : store) :
  (forall args, (forall a b, args <> [a; b]) ->
     Bot.change_contact args s = (Return (Some Bot.message_ValueError), s)
     /\ Bot.add_birthday args s = (Return (Some Bot.message_ValueError), s))
  /\ Bot.show_phone [] s = (Return (Some "Invalid command format."), s)
  /\ Bot.show_birthday [] s = (Return (Some "Invalid command format."), s).
Proof.
  split; [|split; reflexivity].
  intros args H. split;
    [now apply change_contact_not_two | now apply add_birthday_not_two].
Qed.

Lemma commands_with_wrong_arity_witness :
  Bot.change_contact ["Bo"] twice_store
  = (Return (Some Bot.message_ValueError), twice_store)
  /\ Bot.add_birthday ["Bo"; "01.02.2000"; "x"] twice_store
     = (Return (Some Bot.message_ValueError), twice_store).
Proof.
  destruct (commands_with_wrong_arity twice_store) as [H _].
  split.
  - apply (H ["Bo"]). intros a b. discriminate.
  - apply (H ["Bo"; "01.02.2000"; "x"]). intros a b. discriminate.
Defined.

Lemma add_birthday_then_show_birthday_witness :
  (Bot.add_birthday ["Bo"; "1.2.2000"] twice_store
   = (Return (Some "Birthday added."),
      with_record twice_store 0
        (mkRecord (mkField "Bo")
           [mkField "0123456789"; mkField "0123456789"]
           (Some (mkField "1.2.2000"))))
   /\ forall rest,
        Bot.show_birthday ("Bo" :: rest)
          (with_record twice_store 0
             (mkRecord (mkField "Bo")
                [mkField "0123456789"; mkField "0123456789"]
                (Some (mkField "1.2.2000"))))
        = (Return (Some "1.2.2000"),
           with_record twice_store 0
             (mkRecord (mkField "Bo")
                [mkField "0123456789"; mkField "0123456789"]
                (Some (mkField "1.2.2000")))))
  /\ Bot.add_birthday ["Bo"; "2000-02-01"] twice_store
     = (Return (Some "Invalid date format. Please use DD.MM.YYYY."),
        twice_store).
Proof.
  split.
  - apply (proj1 (add_birthday_then_show_birthday twice_store "Bo" "1.2.2000"
                    0%nat
                    (mkRecord (mkField "Bo")
                       [mkField "0123456789"; mkField "0123456789"] None)
                    eq_refl eq_refl)).
    exists ["1"]%char, ["2"]%char, ["2"; "0"; "0"; "0"]%char.
    split; [reflexivity|].
    split; [left; split; [reflexivity|now left]|].
    split; [split; [reflexivity|now left]|].
    split; [split; reflexivity|reflexivity].
  - apply (proj2 (add_birthday_then_show_birthday twice_store "Bo"
                    "2000-02-01" 0%nat
                    (mkRecord (mkField "Bo")
                       [mkField "0123456789"; mkField "0123456789"] None)
                    eq_refl eq_refl)).
    intros (dt & mt & yt & Hs & _).
    assert (Hin : In "."%char (Str.chars "2000-02-01")).
    { rewrite Hs. apply in_or_app. right. now left. }
    cbn in Hin. intuition discriminate.
Defined.

(** ** The loop of [main] *)

Lemma parse_input_blank (line : string) :
  blank line ->
  Bot.parse_input line
  = Throw (Core (ValueError
      "not enough values to unpack (expected at least 1, got 0)")).
Proof.
  intros Hb. unfold Bot.parse_input, str_split.
  unfold blank in Hb. apply split_chars_nil in Hb. now rewrite Hb.
Qed.

Lemma parse_input_first_word (line w : string) (args : list string) :
  str_split line = w :: args ->
  Bot.parse_input line = Return (str_lower w, args).
Proof.
  intros E. unfold Bot.parse_input. rewrite E.
  assert (Hw : Forall word (str_split line)).
  { apply split_chars_words. intros ? []. }
  rewrite E in Hw. apply Forall_cons in Hw. destruct Hw as [Hw _].
  now rewrite (strip_word _ Hw).
Qed.

(** X19. Where [main] stops: a line of whitespace only, the empty line
    among them, ends the program with the [ValueError] of the unpacking in
    [parse_input], which nothing catches; a line whose first word is [close]
    or [exit] in any case of letters prints "Goodbye!" and ends the loop.
    Either way the lines after it are not read and the store stays. *)
Theorem main_stops_at (line : string) (today : datetime.date)
    (rest : list (string * datetime.date)) (s : store) :
  (blank line ->
   Bot.main_loop ((line, today) :: rest) s
   = ([Bot.Prompted "Enter a command: "],
      Bot.Uncaught (Core (ValueError
        "not enough values to unpack (expected at least 1, got 0)")), s))
  /\ (forall w args, str_split line = w :: args ->
        str_lower w = "close" \/ str_lower w = "exit" ->
        Bot.main_loop ((line, today) :: rest) s
        = ([Bot.Prompted "Enter a command: "; Bot.Printed "Goodbye!"],
           Bot.Goodbye, s)).
Proof.
  split.
  - intros Hb. cbn [Bot.main_loop]. now rewrite (parse_input_blank _ Hb).
  - intros w args E Hw. cbn [Bot.main_loop].
    rewrite (parse_input_first_word _ _ _ E).
    now destruct Hw as [-> | ->].
Qed.

Lemma main_stops_at_witness :
  Bot.main_loop [("  ", datetime.mkdate 2024 6 10); ("hello", datetime.mkdate 2024 6 10)]
    empty_store
  = ([Bot.Prompted "Enter a command: "],
     Bot.Uncaught (Core (ValueError
       "not enough values to unpack (expected at least 1, got 0)")),
     empty_store)
  /\ Bot.main_loop [("ExIt now", datetime.mkdate 2024 6 10); ("hello", datetime.mkdate 2024 6 10)]
       empty_store
     = ([Bot.Prompted "Enter a command: "; Bot.Printed "Goodbye!"],
        Bot.Goodbye, empty_store).
Proof.
  split.
  - apply (proj1 (main_stops_at "  " (datetime.mkdate 2024 6 10)
                    [("hello", datetime.mkdate 2024 6 10)] empty_store)).
    intros c [<-|[<-|[]]]; reflexivity.
  - apply (proj2 (main_stops_at "ExIt now" (datetime.mkdate 2024 6 10)
                    [("hello", datetime.mkdate 2024 6 10)] empty_store)
             "ExIt" ["now"]); [reflexivity | right; reflexivity].
Defined.

(** *** What a turn can throw *)

Lemma turn_throws (command : string) (args : list string)
    (today : datetime.date) (s s' : store) (e : pyexn) :
  Bot.turn command args today s = (Throw e, s') ->
  command = "birthdays" /\ exists c, e = Core c.
Proof.
  unfold Bot.turn.
  destruct (String.eqb command "hello"); [discriminate|].
  destruct (String.eqb command "add").
  { unfold cbind. destruct (add_contact_answers args s) as (x & s1 & ->).
    discriminate. }
  destruct (String.eqb command "change").
  { unfold cbind. destruct (change_contact_answers args s) as (x & s1 & ->).
    discriminate. }
  destruct (String.eqb command "phone").
  { unfold cbind. destruct (show_phone_answers args s) as (x & s1 & ->).
    discriminate. }
  destruct (String.eqb command "all").
  { unfold cbind. destruct (show_all_answers s) as (x & s1 & ->).
    discriminate. }
  destruct (String.eqb command "add-birthday").
  { unfold cbind. destruct (add_birthday_answers args s) as (x & s1 & ->).
    discriminate. }
  destruct (String.eqb command "show-birthday").
  { unfold cbind. destruct (show_birthday_answers args s) as (x & s1 & ->).
    discriminate. }
  destruct (String.eqb_spec command "birthdays") as [->|]; [|discriminate].
  unfold cbind, of_M.
  destruct (AddressBook.get_birthdays_per_week today s) as [[b|c] s1];
    [discriminate|].
  intros [= <- <-]. eauto.
Qed.

Lemma harmless_cons_parse (line command : string) (args : list string) :
  harmless line -> Bot.parse_input line = Return (command, args) ->
  command <> "birthdays".
Proof. intros [_ H] E ->. exact (H args E). Qed.

(** X20. How a run of [main] can end: by [close] or [exit], by the end of
    the input, or by an exception of the classes and the libraries under
    them; never by the [KeyError] or [IndexError] of a handler, and never by
    the [TypeError] of ["Phone: " + result], a line that is never reached.
    When no line is blank and none is the command [birthdays], the run ends
    by [close] or [exit] or at the end of the input. *)
Theorem main_ends_by (inputs : list (string * datetime.date)) (s : store) :
  let e := (Bot.main_loop inputs s).1.2 in
  (e = Bot.Goodbye \/ e = Bot.Uncaught EOFError
   \/ exists c, e = Bot.Uncaught (Core c))
  /\ (Forall (fun i => harmless i.1) inputs ->
      e = Bot.Goodbye \/ e = Bot.Uncaught EOFError).
Proof.
  revert s. induction inputs as [|[line today] inputs IH]; intros s.
  - cbn. split; [right; left; reflexivity|right; reflexivity].
  - cbn [Bot.main_loop].
    destruct (Bot.parse_input line) as [[command args]|e0] eqn:Ep.
    + destruct (AddressBook.in_list command ["close"; "exit"]).
      { cbn. split; [left; reflexivity|left; reflexivity]. }
      destruct (Bot.turn command args today s) as [[outs|e1] s1] eqn:Et.
      * specialize (IH s1).
        destruct (Bot.main_loop inputs s1) as [[outs' e'] s''].
        cbn in IH |- *. destruct IH as [IH1 IH2].
        split; [exact IH1|]. intros HF. apply Forall_cons in HF.
        apply IH2, HF.
      * apply turn_throws in Et. destruct Et as [-> [c ->]]. cbn.
        split; [right; right; eauto|].
        intros HF. apply Forall_cons in HF. destruct HF as [Hh _].
        cbn in Hh. now elim (harmless_cons_parse _ _ _ Hh Ep).
    + cbn. split.
      * unfold Bot.parse_input in Ep.
        destruct (str_split line); [|discriminate].
        injection Ep as <-. right. right. eauto.
      * intros HF. apply Forall_cons in HF. destruct HF as [[Hb _] _].
        cbn in Hb. exfalso. apply Hb. unfold blank.
        apply split_chars_nil. unfold Bot.parse_input, str_split in Ep.
        destruct (split_chars [] (Str.chars line)); [reflexivity|discriminate].
Qed.

Lemma main_ends_by_witness :
  let e := (Bot.main_loop
              [("hello", june_10); ("add Bo 0123456789", june_10)]
              empty_store).1.2 in
  e = Bot.Goodbye \/ e = Bot.Uncaught EOFError.
Proof.
  apply (proj2 (main_ends_by
                  [("hello", june_10); ("add Bo 0123456789", june_10)]
                  empty_store)).
  repeat constructor.
  - now apply not_blank_letter.
  - intros args H. vm_compute in H. discriminate.
  - now apply not_blank_letter.
  - intros args H. vm_compute in H. discriminate.
Defined.

(** *** The book of a run *)

Lemma inv_kept (s s' : store) :
  data s' = data s -> records_kept s s' ->
  store_wf s /\ one_phone_each s -> store_wf s' /\ one_phone_each s'.
Proof.
  intros Hd Hk [[Hnd Hwf] Hone]. split; [split|].
  - now rewrite Hd.
  - intros k l Hin. rewrite Hd in Hin.
    destruct (Hwf k l Hin) as (r & Hr & Hn). exists r. split; [|exact Hn].
    now apply Hk.
  - intros k l Hin. rewrite Hd in Hin.
    destruct (Hone k l Hin) as (r & p & Hr & Hp & Hl). exists r, p.
    split; [now apply Hk|]. split; assumption.
Qed.

Lemma records_kept_app (s : store) (r : RecordObj)
    (d : list (string * loc)) :
  records_kept s (mkStore (heap s ++ [r]) d).
Proof.
  intros l r0 H. cbn [heap]. rewrite lookup_app_l; [exact H|].
  now apply lookup_lt_Some in H.
Qed.

Lemma inv_add (s : store) (n p : string) :
  String.length p = 10%nat ->
  store_wf s /\ one_phone_each s ->
  let s1 := mkStore (heap s ++ [mkRecord (mkField n) [mkField p] None])
              (dict.set n (List.length (heap s)) (data s)) in
  store_wf s1 /\ one_phone_each s1.
Proof.
  intros Hl [[Hnd Hwf] Hone] s1. split; [split|].
  - cbn [data s1]. now apply dict_NoDup_set.
  - intros k l Hin. cbn [data s1] in Hin.
    apply dict_In_set in Hin; [|exact Hnd].
    destruct Hin as [[-> ->]|[Hne Hin]].
    + eexists. split; [apply lookup_last|reflexivity].
    + destruct (Hwf k l Hin) as (r & Hr & Hn). exists r.
      split; [|exact Hn]. now apply (records_kept_app s _ _ l r).
  - intros k l Hin. cbn [data s1] in Hin.
    apply dict_In_set in Hin; [|exact Hnd].
    destruct Hin as [[-> ->]|[Hne Hin]].
    + eexists. exists p. split; [apply lookup_last|].
      split; [reflexivity|exact Hl].
    + destruct (Hone k l Hin) as (r & p0 & Hr & Hp & Hl0). exists r, p0.
      split; [now apply (records_kept_app s _ _ l r)|]. split; assumption.
Qed.

Lemma inv_with_record (s : store) (l : loc) (r r' : RecordObj) (p : string) :
  heap s !! l = Some r -> name r' = name r ->
  phone_values r' = [p] -> String.length p = 10%nat ->
  store_wf s /\ one_phone_each s ->
  store_wf (with_record s l r') /\ one_phone_each (with_record s l r').
Proof.
  intros Hr Hn Hp Hl [[Hnd Hwf] Hone]. split; [split|].
  - exact Hnd.
  - intros k l0 Hin. cbn [with_record data] in Hin.
    destruct (Hwf k l0 Hin) as (r0 & Hr0 & Hn0).
    destruct (Nat.eq_dec l0 l) as [->|Hne].
    + exists r'. split; [eapply with_record_lookup, Hr|].
      rewrite Hn. congruence.
    + exists r0. split; [|exact Hn0]. cbn [with_record heap].
      rewrite list_lookup_insert_ne; [exact Hr0|congruence].
  - intros k l0 Hin. cbn [with_record data] in Hin.
    destruct (Hone k l0 Hin) as (r0 & p0 & Hr0 & Hp0 & Hl0).
    destruct (Nat.eq_dec l0 l) as [->|Hne].
    + exists r', p. split; [eapply with_record_lookup, Hr|].
      split; assumption.
    + exists r0, p0. cbn [with_record heap].
      rewrite list_lookup_insert_ne; [|congruence]. repeat split; assumption.
Qed.

Lemma not_two_cases (args : list string) :
  (exists a b, args = [a; b]) \/ forall a b, args <> [a; b].
Proof.
  destruct args as [|a [|b [|c args]]]; try (right; intros; discriminate).
  left. eauto.
Qed.

Lemma blank_cases (v : string) : blank v \/ ~ blank v.
Proof.
  destruct (String.eqb_spec (Str.strip v) "") as [E|N].
  - left. now apply strip_empty_iff.
  - right. intros H. now apply strip_empty_iff in H.
Qed.

Lemma lenient_cases (v : string) : lenient_date v \/ ~ lenient_date v.
Proof.
  destruct (Birthday v) as [f|e] eqn:E.
  - left. now apply Birthday_Ok_lenient in E.
  - right. intros H. apply Birthday_lenient in H. congruence.
Qed.

Lemma add_contact_inv (args : list string) (s : store) :
  store_wf s /\ one_phone_each s ->
  store_wf (Bot.add_contact args s).2 /\ one_phone_each (Bot.add_contact args s).2.
Proof.
  intros H. destruct (not_two_cases args) as [(n & p & ->)|Hn].
  2:{ now rewrite (add_contact_not_two s args Hn). }
  destruct (blank_cases n) as [Hb|Hb].
  { now rewrite (add_contact_blank s n p Hb). }
  destruct (Str.isdigit p) eqn:Hd.
  2:{ rewrite (add_contact_bad_phone s n p Hb (or_introl Hd)).
      eapply inv_kept; [| |exact H]; [reflexivity|apply records_kept_app]. }
  destruct (Nat.eq_dec (String.length p) 10%nat) as [Hl|Hl].
  2:{ rewrite (add_contact_bad_phone s n p Hb (or_intror Hl)).
      eapply inv_kept; [| |exact H]; [reflexivity|apply records_kept_app]. }
  rewrite (add_contact_run s n p Hb Hd Hl). now apply inv_add.
Qed.

Lemma book_entry (s : store) (n : string) (l : loc) :
  store_wf s /\ one_phone_each s -> dict.get n (data s) = Some l ->
  exists r f, heap s !! l = Some r /\ phones r = [f]
              /\ String.length (value f) = 10%nat.
Proof.
  intros [_ Hone] Hg. apply dict_get_In in Hg.
  destruct (Hone n l Hg) as (r & p & Hr & Hp & Hl).
  unfold phone_values in Hp.
  destruct (phones r) as [|f [|f' fs]] eqn:E; try discriminate.
  injection Hp as <-. eauto.
Qed.

Lemma change_contact_inv (args : list string) (s : store) :
  store_wf s /\ one_phone_each s ->
  store_wf (Bot.change_contact args s).2
  /\ one_phone_each (Bot.change_contact args s).2.
Proof.
  intros H. destruct (not_two_cases args) as [(n & p & ->)|Hn].
  2:{ now rewrite (change_contact_not_two s args Hn). }
  destruct (dict.get n (data s)) as [l|] eqn:Hg.
  2:{ now rewrite (change_contact_missing s n p Hg). }
  destruct (book_entry s n l H Hg) as (r & f & Hr & Hp & Hf).
  destruct (Nat.eq_dec (String.length p) 10%nat) as [Hl|Hl].
  - rewrite (change_contact_ok s n l r Hg Hr p f [] Hp Hl).
    eapply (inv_with_record s l r _ p Hr); [reflexivity| |exact Hl|exact H].
    unfold phone_values. cbn [phones]. rewrite Hp. cbn [map].
    unfold edit_one. now rewrite String.eqb_refl.
  - now rewrite (change_contact_bad_length s n l r Hg Hr p f [] Hp Hl).
Qed.

Lemma add_birthday_inv (args : list string) (s : store) :
  store_wf s /\ one_phone_each s ->
  store_wf (Bot.add_birthday args s).2
  /\ one_phone_each (Bot.add_birthday args s).2.
Proof.
  intros H. destruct (not_two_cases args) as [(n & b & ->)|Hn].
  2:{ now rewrite (add_birthday_not_two s args Hn). }
  destruct (dict.get n (data s)) as [l|] eqn:Hg.
  2:{ now rewrite (add_birthday_missing s n b Hg). }
  destruct (book_entry s n l H Hg) as (r & f & Hr & Hp & Hf).
  destruct (lenient_cases b) as [Hb|Hb].
  - rewrite (add_birthday_ok s n l r Hg Hr b Hb).
    eapply (inv_with_record s l r _ (value f) Hr);
      [reflexivity| |exact Hf|exact H].
    unfold phone_values. cbn [phones]. now rewrite Hp.
  - now rewrite (add_birthday_bad s n l Hg b Hb).
Qed.

Lemma show_phone_reads (args : list string) (s : store) :
  (Bot.show_phone args s).2 = s.
Proof.
  unfold Bot.show_phone. destruct args as [|n rest]; [reflexivity|].
  run. destruct (dict.get n (data s)) as [l|]; [|reflexivity].
  unfold cbind, of_M, get_record.
  destruct (heap s !! l) as [r|]; [|reflexivity].
  now destruct (phones r).
Qed.

Lemma show_birthday_reads (args : list string) (s : store) :
  (Bot.show_birthday args s).2 = s.
Proof.
  unfold Bot.show_birthday. destruct args as [|n rest]; [reflexivity|].
  run. destruct (dict.get n (data s)) as [l|]; [|reflexivity].
  unfold cbind, of_M, get_record.
  destruct (heap s !! l) as [r|]; [|reflexivity].
  now destruct (birthday r).
Qed.

Lemma str_records_reads (ls : list loc) (s : store) :
  (Bot.str_records ls s).2 = s.
Proof.
  induction ls as [|l ls IH]; [reflexivity|].
  cbn [Bot.str_records]. unfold cbind at 1. unfold of_M, get_record.
  destruct (heap s !! l) as [r|]; [|reflexivity].
  unfold cbind. destruct (Bot.str_records ls s) as [[lines|e] s'].
  - exact IH.
  - exact IH.
Qed.

Lemma show_all_reads (s : store) : (Bot.show_all s).2 = s.
Proof.
  unfold Bot.show_all, Bot.input_error. unfold cbind at 1.
  unfold of_M, get_data. destruct (data s) as [|kv d]; [reflexivity|].
  unfold cbind.
  pose proof (str_records_reads (dict.values (kv :: d)) s) as H.
  destruct (Bot.str_records (dict.values (kv :: d)) s) as [[lines|e] s'].
  - exact H.
  - cbn in H. subst s'. now destruct e as [[m|m]|m|m|m|].
Qed.

Lemma bind_print_store (m : Cmd (option string)) (s : store) :
  (cbind m (fun x => cret [Bot.print_value x]) s).2 = (m s).2.
Proof. unfold cbind. now destruct (m s) as [[x|e] s']. Qed.

Lemma turn_inv (command : string) (args : list string)
    (today : datetime.date) (s : store) :
  store_wf s /\ one_phone_each s ->
  store_wf (Bot.turn command args today s).2
  /\ one_phone_each (Bot.turn command args today s).2.
Proof.
  intros H. unfold Bot.turn.
  destruct (String.eqb command "hello"); [exact H|].
  destruct (String.eqb command "add").
  { rewrite bind_print_store. now apply add_contact_inv. }
  destruct (String.eqb command "change").
  { rewrite bind_print_store. now apply change_contact_inv. }
  destruct (String.eqb command "phone").
  { pose proof (show_phone_reads args s) as E. unfold cbind.
    destruct (Bot.show_phone args s) as [[[x|]|e] s']; cbn in E |- *;
      now subst s'. }
  destruct (String.eqb command "all").
  { rewrite bind_print_store. now rewrite show_all_reads. }
  destruct (String.eqb command "add-birthday").
  { rewrite bind_print_store. now apply add_birthday_inv. }
  destruct (String.eqb command "show-birthday").
  { pose proof (show_birthday_reads args s) as E. unfold cbind.
    destruct (Bot.show_birthday args s) as [[[x|]|e] s']; cbn in E |- *;
      now subst s'. }
  destruct (String.eqb command "birthdays"); [|exact H].
  pose proof (get_birthdays_per_week_reads today s) as E.
  unfold cbind, of_M.
  destruct (AddressBook.get_birthdays_per_week today s) as [[b|c] s'];
    cbn in E |- *; now subst s'.
Qed.

Lemma main_loop_inv (inputs : list (string * datetime.date)) (s : store) :
  store_wf s /\ one_phone_each s ->
  store_wf (Bot.main_loop inputs s).2
  /\ one_phone_each (Bot.main_loop inputs s).2.
Proof.
  revert s. induction inputs as [|[line today] inputs IH]; intros s H;
    [exact H|].
  cbn [Bot.main_loop].
  destruct (Bot.parse_input line) as [[command args]|e0]; [|exact H].
  destruct (AddressBook.in_list command ["close"; "exit"]); [exact H|].
  pose proof (turn_inv command args today s H) as Ht.
  destruct (Bot.turn command args today s) as [[outs|e1] s1];
    [|exact Ht].
  specialize (IH s1 Ht).
  now destruct (Bot.main_loop inputs s1) as [[outs' e'] s''].
Qed.

(** X21. The book of a run of [main], whatever was typed: each name is in
    it once, under it is a record with that name, and that record has
    exactly one phone, of 10 characters. *)
Theorem book_of_a_run (inputs : list (string * datetime.date)) :
  store_wf (store_of_run inputs) /\ one_phone_each (store_of_run inputs).
Proof.
  unfold store_of_run, Bot.main.
  pose proof (main_loop_inv inputs empty_store) as H.
  destruct (Bot.main_loop inputs empty_store) as [[outs e] s].
  apply H. split; [split|].
  - apply NoDup_nil_2.
  - intros k l [].
  - intros k l [].
Qed.

(** ** Lines made of words *)

Lemma chars_app (a b : string) :
  Str.chars (a +:+ b) = (Str.chars a ++ Str.chars b)%list.
Proof.
  unfold Str.chars. induction a as [|c a IH]; [reflexivity|].
  cbn. now rewrite <- IH.
Qed.

Lemma split_chars_letters_then (w rest cur : list ascii) :
  no_space w ->
  split_chars cur (w ++ rest) = split_chars (rev w ++ cur) rest.
Proof.
  revert cur. induction w as [|c w IH]; intros cur Hw; [reflexivity|].
  cbn [app split_chars]. rewrite (Hw c (or_introl eq_refl)).
  rewrite IH by (intros c' Hc'; apply Hw; now right).
  cbn [rev]. now rewrite <- app_assoc.
Qed.

Lemma split_chars_spaces_then (seps rest : list ascii) :
  (forall c, In c seps -> Str.is_space c = true) ->
  split_chars [] (seps ++ rest) = split_chars [] rest.
Proof.
  induction seps as [|c seps IH]; intros H; [reflexivity|].
  cbn [app split_chars]. rewrite (H c (or_introl eq_refl)).
  apply IH. intros c' Hc'. apply H. now right.
Qed.

Lemma split_chars_word_then (w sep : string) (rest : list ascii) :
  word w -> separator sep ->
  split_chars [] (Str.chars w ++ Str.chars sep ++ rest)
  = w :: split_chars [] rest.
Proof.
  intros [Hne Hns] [Hsne Hsb].
  rewrite split_chars_letters_then by exact Hns. rewrite app_nil_r.
  destruct (Str.chars sep) as [|c seps] eqn:Es.
  { elim Hsne. rewrite <- (string_of_chars sep). now rewrite Es. }
  unfold blank in Hsb. rewrite Es in Hsb.
  cbn [app split_chars]. rewrite (Hsb c (or_introl eq_refl)).
  destruct (rev (Str.chars w)) as [|c0 cur] eqn:Er.
  { elim Hne. rewrite <- (string_of_chars w).
    apply (f_equal (@rev ascii)) in Er. rewrite rev_involutive in Er.
    now rewrite Er. }
  rewrite <- Er, rev_involutive, string_of_chars. f_equal.
  apply split_chars_spaces_then. intros c' Hc'. apply Hsb. now right.
Qed.

Lemma split_chars_last_word (w : string) :
  word w -> split_chars [] (Str.chars w) = [w].
Proof.
  intros [Hne Hns].
  rewrite <- (app_nil_r (Str.chars w)).
  rewrite split_chars_letters_then by exact Hns. rewrite app_nil_r.
  cbn [split_chars].
  destruct (rev (Str.chars w)) as [|c0 cur] eqn:Er.
  { elim Hne. rewrite <- (string_of_chars w).
    apply (f_equal (@rev ascii)) in Er. rewrite rev_involutive in Er.
    now rewrite Er. }
  now rewrite <- Er, rev_involutive, string_of_chars.
Qed.

Lemma str_split_join (sep : string) (ws : list string) :
  separator sep -> Forall word ws -> str_split (Str.join sep ws) = ws.
Proof.
  intros Hsep Hws. unfold str_split.
  induction Hws as [|w ws Hw Hws IH]; [reflexivity|].
  destruct ws as [|w' ws'].
  - cbn [Str.join]. now apply split_chars_last_word.
  - change (Str.join sep (w :: w' :: ws'))
      with (w +:+ sep +:+ Str.join sep (w' :: ws')).
    rewrite !chars_app. rewrite split_chars_word_then by assumption.
    now rewrite IH.
Qed.

(** X22. [split] undoes [join]: words joined by a separator of whitespace,
    one character or more, come back as they were, and [parse_input] of
    such a line gives the first word in lower case and the other words as
    the arguments. *)
Theorem parse_input_of_joined_words (sep cmd : string) (args : list string) :
  separator sep -> Forall word (cmd :: args) ->
  str_split (Str.join sep (cmd :: args)) = cmd :: args
  /\ Bot.parse_input (Str.join sep (cmd :: args))
     = Return (str_lower cmd, args).
Proof.
  intros Hsep Hws.
  pose proof (str_split_join sep (cmd :: args) Hsep Hws) as E.
  split; [exact E|].
  unfold Bot.parse_input. rewrite E.
  apply Forall_cons in Hws. destruct Hws as [Hc _].
  now rewrite (strip_word _ Hc).
Qed.

Lemma parse_input_of_joined_words_witness :
  str_split (Str.join " " ["Add"; "Bo"; "0123456789"])
  = ["Add"; "Bo"; "0123456789"]
  /\ Bot.parse_input (Str.join " " ["Add"; "Bo"; "0123456789"])
     = Return (str_lower "Add", ["Bo"; "0123456789"]).
Proof.
  apply (parse_input_of_joined_words " " "Add" ["Bo"; "0123456789"]).
  - split; [discriminate|]. intros c [<-|[]]. reflexivity.
  - repeat constructor; try discriminate;
      intros c Hc; cbn in Hc;
      repeat (destruct Hc as [<-|Hc]; [reflexivity|]); contradiction.
Defined.

(** ** Sessions *)

Lemma main_loop_step (line : string) (today : datetime.date)
    (rest : list (string * datetime.date)) (s s1 : store)
    (command : string) (args : list string) (outs : list Bot.output) :
  Bot.parse_input line = Return (command, args) ->
  AddressBook.in_list command ["close"; "exit"] = false ->
  Bot.turn command args today s = (Return outs, s1) ->
  Bot.main_loop ((line, today) :: rest) s
  = (Bot.Prompted "Enter a command: "
       :: outs ++ (Bot.main_loop rest s1).1.1,
     (Bot.main_loop rest s1).1.2, (Bot.main_loop rest s1).2).
Proof.
  intros Hp Hc Ht. cbn [Bot.main_loop]. rewrite Hp, Hc, Ht.
  now destruct (Bot.main_loop rest s1) as [[o e] s2].
Qed.

Lemma isdigit_char_not_space (c : ascii) :
  Str.isdigit_char c = true -> Str.is_space c = false.
Proof.
  unfold Str.isdigit_char. intros H.
  destruct (Str.is_decimal c) eqn:Hd; [now apply decimal_not_space|].
  cbn [orb] in H. unfold Str.is_space.
  repeat match goal with
         | H : context [?a =? ?b] |- _ => destruct (Z.eqb_spec a b)
         end; cbn in H; try discriminate;
  repeat match goal with
         | |- context [?a <=? ?b] => destruct (Z.leb_spec a b); try lia
         | |- context [?a =? ?b] => destruct (Z.eqb_spec a b); try lia
         end; reflexivity.
Qed.

Lemma isdigit_word (p : string) : Str.isdigit p = true -> word p.
Proof.
  unfold Str.isdigit. intros H. split.
  - intros ->. discriminate.
  - destruct (Str.chars p) as [|c cs]; [discriminate|].
    intros c' Hc'. apply isdigit_char_not_space.
    rewrite forallb_forall in H. now apply H.
Qed.

(** X23. A session of three lines, [add n p], [change n q], [phone n], the
    words one space apart: with a name [n] without whitespace, a phone [p]
    of 10 digits and a word [q] of 10 characters, digits or not, [main]
    prints "Contact added.", "Contact updated." and [q], and ends at the
    end of the input with one contact in the book, whose only phone is
    [q]. *)
Theorem session_add_change_phone (n p q : string)
    (d1 d2 d3 : datetime.date) :
  word n -> Str.isdigit p = true -> String.length p = 10%nat ->
  word q -> String.length q = 10%nat ->
  Bot.main [(Str.join " " ["add"; n; p], d1);
            (Str.join " " ["change"; n; q], d2);
            (Str.join " " ["phone"; n], d3)]
  = ([Bot.Printed "Welcome to the address book bot!";
      Bot.Prompted "Enter a command: "; Bot.Printed "Contact added.";
      Bot.Prompted "Enter a command: "; Bot.Printed "Contact updated.";
      Bot.Prompted "Enter a command: "; Bot.Printed q;
      Bot.Prompted "Enter a command: "],
     Bot.Uncaught EOFError,
     mkStore [mkRecord (mkField n) [mkField q] None] [(n, 0%nat)]).
Proof.
  intros Hn Hd Hl Hq Hql.
  assert (Hsp : separator " ").
  { split; [discriminate|]. intros c [<-|[]]. reflexivity. }
  assert (Hadd : word "add" /\ word "change" /\ word "phone").
  { repeat split; try discriminate;
      intros c Hc; cbn in Hc;
      repeat (destruct Hc as [<-|Hc]; [reflexivity|]); contradiction. }
  destruct Hadd as (Wa & Wc & Wp).
  pose proof (isdigit_word p Hd) as Hp.
  assert (Hnb : ~ blank n).
  { intros Hb. destruct Hn as [Hne Hns].
    destruct (Str.chars n) as [|c cs] eqn:E.
    - apply Hne. rewrite <- (string_of_chars n). now rewrite E.
    - unfold blank, no_space in *. rewrite E in Hb.
      specialize (Hb c (or_introl eq_refl)).
      specialize (Hns c (or_introl eq_refl)). congruence. }
  unfold Bot.main.
  set (s1 := mkStore [mkRecord (mkField n) [mkField p] None] [(n, 0%nat)]).
  set (s2 := mkStore [mkRecord (mkField n) [mkField q] None] [(n, 0%nat)]).
  assert (E1 : Bot.turn "add" [n; p] d1 empty_store
               = (Return [Bot.Printed "Contact added."], s1)).
  { unfold Bot.turn. cbn [String.eqb Ascii.eqb Bool.eqb].
    unfold cbind. now rewrite (add_contact_run empty_store n p Hnb Hd Hl). }
  assert (E2 : Bot.turn "change" [n; q] d2 s1
               = (Return [Bot.Printed "Contact updated."], s2)).
  { unfold Bot.turn. cbn [String.eqb Ascii.eqb Bool.eqb].
    unfold cbind.
    rewrite (change_contact_ok s1 n 0%nat
               (mkRecord (mkField n) [mkField p] None)
               ltac:(cbn; now rewrite String.eqb_refl) eq_refl
               q (mkField p) [] eq_refl Hql).
    cbn [Bot.print_value cret]. f_equal. unfold s2, with_record.
    cbn. unfold edit_one. cbn. now rewrite String.eqb_refl. }
  assert (E3 : Bot.turn "phone" [n] d3 s2
               = (Return [Bot.Printed q], s2)).
  { unfold Bot.turn. cbn [String.eqb Ascii.eqb Bool.eqb].
    unfold cbind.
    now rewrite (show_phone_run s2 n [] 0%nat
                   (mkRecord (mkField n) [mkField q] None)
                   ltac:(cbn; now rewrite String.eqb_refl) eq_refl). }
  rewrite (main_loop_step _ d1 _ empty_store s1 "add" [n; p] _
             (proj2 (parse_input_of_joined_words " " "add" [n; p] Hsp
                       ltac:(repeat (constructor; [assumption|]); constructor)))
             eq_refl E1).
  rewrite (main_loop_step _ d2 _ s1 s2 "change" [n; q] _
             (proj2 (parse_input_of_joined_words " " "change" [n; q] Hsp
                       ltac:(repeat (constructor; [assumption|]); constructor)))
             eq_refl E2).
  rewrite (main_loop_step _ d3 _ s2 s2 "phone" [n] _
             (proj2 (parse_input_of_joined_words " " "phone" [n] Hsp
                       ltac:(repeat (constructor; [assumption|]); constructor)))
             eq_refl E3).
  reflexivity.
Qed.

Lemma session_add_change_phone_witness :
  Bot.main [(Str.join " " ["add"; "Bo"; "0123456789"], june_10);
            (Str.join " " ["change"; "Bo"; "abcdefghij"], june_10);
            (Str.join " " ["phone"; "Bo"], june_10)]
  = ([Bot.Printed "Welcome to the address book bot!";
      Bot.Prompted "Enter a command: "; Bot.Printed "Contact added.";
      Bot.Prompted "Enter a command: "; Bot.Printed "Contact updated.";
      Bot.Prompted "Enter a command: "; Bot.Printed "abcdefghij";
      Bot.Prompted "Enter a command: "],
     Bot.Uncaught EOFError,
     mkStore [mkRecord (mkField "Bo") [mkField "abcdefghij"] None]
       [("Bo", 0%nat)]).
Proof.
  apply (session_add_change_phone "Bo" "0123456789" "abcdefghij"
           june_10 june_10 june_10); try reflexivity.
  - split; [discriminate|].
    intros c Hc; cbn in Hc;
      repeat (destruct Hc as [<-|Hc]; [reflexivity|]); contradiction.
  - split; [discriminate|].
    intros c Hc; cbn in Hc;
      repeat (destruct Hc as [<-|Hc]; [reflexivity|]); contradiction.
Defined.

(** ** The command [birthdays] *)

Lemma report_keys_working (today : datetime.date) (s s' : store)
    (res : list (string * list string)) :
  AddressBook.get_birthdays_per_week today s = (Ok res, s') ->
  s' = s /\ buckets_ok res
  /\ forall k, In k (dict.keys res) -> In k working_days.
Proof.
  intros Hrun. apply get_birthdays_per_week_Ok in Hrun.
  destruct Hrun as (-> & es & Hf & ->). split; [reflexivity|]. split.
  - apply buckets_ok_fold. split; [constructor|]. intros k ns [].
  - intros k Hk. apply keys_fold_file in Hk. destruct Hk as [Hk|[]].
    apply in_map_iff in Hk. destruct Hk as ([k0 n0] & Hk & Hin0).
    cbn [fst] in Hk. subst k0.
    destruct (filed_sound today s _ _ _ _ Hf Hin0)
      as (_ & _ & _ & _ & sh & _ & _ & _ & _ & _ & _ & _ & ->).
    apply report_key_working.
Qed.

Lemma print_birthdays_all (res : list (string * list string)) :
  (forall k ns, In (k, ns) res -> ns <> []) ->
  Bot.print_birthdays res = map birthday_line res.
Proof.
  induction res as [|[k ns] res IH]; intros H; [reflexivity|].
  unfold Bot.print_birthdays in *. cbn [flat_map map].
  rewrite IH by (intros k' ns' Hin; eapply H; right; exact Hin).
  destruct ns as [|x ns]; [|reflexivity].
  now elim (H k [] (or_introl eq_refl)).
Qed.

(** X24. The command [birthdays], when the report returns: the test
    [if names] never fails, a line with the day and the names is printed
    for every key of the report, in the order of the report, at most five
    lines, and the store stays as it is. When the report raises, so does the
    command. *)
Theorem birthdays_prints_every_bucket (today : datetime.date) (s : store)
    (args : list string) :
  (forall res s',
     AddressBook.get_birthdays_per_week today s = (Ok res, s') ->
     Bot.turn "birthdays" args today s = (Return (map birthday_line res), s)
     /\ (List.length res <= 5)%nat)
  /\ (forall e s',
        AddressBook.get_birthdays_per_week today s = (Raise e, s') ->
        Bot.turn "birthdays" args today s = (Throw (Core e), s)).
Proof.
  split.
  - intros res s' Hrun.
    destruct (report_keys_working _ _ _ _ Hrun) as (-> & [Hnd Hne] & Hk).
    split.
    + unfold Bot.turn. cbn [String.eqb Ascii.eqb Bool.eqb].
      unfold cbind, of_M. rewrite Hrun. cbn [cret].
      now rewrite (print_birthdays_all res Hne).
    + change 5%nat with (List.length working_days).
      rewrite <- (length_map fst res).
      apply NoDup_incl_length.
      * apply NoDup_ListNoDup. exact Hnd.
      * intros k Hin. now apply Hk.
  - intros e s' Hrun.
    pose proof (get_birthdays_per_week_reads today s) as Hs.
    rewrite Hrun in Hs. cbn in Hs. subst s'.
    unfold Bot.turn. cbn [String.eqb Ascii.eqb Bool.eqb].
    unfold cbind, of_M. now rewrite Hrun.
Qed.

Lemma birthdays_prints_every_bucket_witness :
  Bot.turn "birthdays" [] june_10 june_store
  = (Return [Bot.Printed "Wednesday: Ann"; Bot.Printed "Monday: Bo"],
     june_store)
  /\ exists msg,
       Bot.turn "birthdays" [] (datetime.mkdate 2023 6 10) leap_store
       = (Throw (Core (ValueError msg)), leap_store).
Proof.
  split.
  - apply (proj1 (birthdays_prints_every_bucket june_10 june_store [])
             _ june_store report_on_june_10).
  - destruct report_with_leap_day as [msg E]. exists msg.
    apply (proj2 (birthdays_prints_every_bucket (datetime.mkdate 2023 6 10)
                    leap_store [])
             _ leap_store E).
Defined.

(** ** The command [all] *)

Lemma str_records_run (s : store) (ls : list loc) :
  (forall l, In l ls -> exists r, heap s !! l = Some r) ->
  Bot.str_records ls s
  = (Return (map Record_.__str__ (omap (fun l => heap s !! l) ls)), s).
Proof.
  induction ls as [|l ls IH]; intros H; [reflexivity|].
  cbn [Bot.str_records]. unfold cbind at 1.
  destruct (H l (or_introl eq_refl)) as [r Hr].
  rewrite (of_M_get_record _ _ _ Hr). unfold cbind.
  rewrite IH by (intros l' Hl'; apply H; now right).
  cbn [omap list_omap]. now rewrite Hr.
Qed.

Lemma book_records_length (s : store) :
  store_wf s -> List.length (book_records s) = List.length (data s).
Proof.
  intros [_ Hwf]. unfold book_records, dict.values.
  induction (data s) as [|[k l] d IH]; [reflexivity|].
  cbn [map omap list_omap snd].
  destruct (Hwf k l (or_introl eq_refl)) as (r & Hr & _). rewrite Hr.
  cbn [List.length]. f_equal. apply IH.
  intros k' l' Hin. apply Hwf. now right.
Qed.

(** X25. [show_all] leaves the store as it is; on an empty address book it
    answers "Your address book is empty."; on any other book that holds
    each key under the name of its record, it answers the lines of
    [Record.__str__], one for each contact, in the order of the keys, with
    a newline between them. *)
Theorem show_all_lists_the_book (s : store) :
  (data s = [] ->
   Bot.show_all s = (Return (Some "Your address book is empty."), s))
  /\ (store_wf s -> data s <> [] ->
      Bot.show_all s
      = (Return (Some (Str.join newline
                         (map Record_.__str__ (book_records s)))), s)
      /\ List.length (book_records s) = List.length (data s)).
Proof.
  split.
  - intros E. unfold Bot.show_all, Bot.input_error, cbind, of_M, get_data.
    now rewrite E.
  - intros Hwf Hne. split; [|now apply book_records_length].
    unfold Bot.show_all, Bot.input_error. unfold cbind at 1.
    unfold of_M at 1. unfold get_data.
    destruct (data s) as [|kv d] eqn:E; [contradiction|].
    unfold cbind. rewrite str_records_run.
    + unfold book_records. now rewrite E.
    + intros l Hl. unfold dict.values in Hl. apply in_map_iff in Hl.
      destruct Hl as ([k l'] & El & Hin). cbn in El. subst l'.
      destruct Hwf as [_ Hwf]. rewrite <- E in Hin.
      destruct (Hwf k l Hin) as (r & Hr & _). eauto.
Qed.

Lemma show_all_lists_the_book_witness :
  Bot.show_all twice_store
  = (Return (Some (Str.join newline
                     (map Record_.__str__ (book_records twice_store)))),
     twice_store)
  /\ List.length (book_records twice_store)
     = List.length (data twice_store).
Proof.
  apply (proj2 (show_all_lists_the_book twice_store)).
  - split.
    + apply NoDup_cons. split; [apply not_elem_of_nil|apply NoDup_nil_2].
    + intros k l [[= <- <-]|[]]. eexists. split; reflexivity.
  - discriminate.
Defined.
